(** * aira_grad: rescue-event rate aggregation and population normalisation

  A shallow embedding of the data-transformation core of the dashboard:
  - [db.py]        : the query layer ([execute_query]);
  - [vasteet.py]   : the cached query function, time bucketing and the
                     rate aggregator ([process_rescue_events]);
  - [vakiluvut.py] : the municipality loader and the population
                     normaliser ([get_top_municipalities_analysis]).

  Conventions.  A pandas [DataFrame] is the list of its rows, a row is a
  record of its columns.  Timestamps are [datetime64[ns]] values, that is
  integers counting nanoseconds since 1970-01-01T00:00; the bounds of
  that type (1677 to 2262) are not modelled, so what is proved of a chart
  is proved of the charts that are returned.  Floating-point
  columns that the code rounds to two decimals are kept as an exact number
  of hundredths (or NaN, or an infinity); the binary rounding error of the
  float division is not modelled.  Python exceptions are values of [Exn]
  carried by [Outcome]. *)

From Stdlib Require Import ZArith List String Ascii Bool Lia DecimalString.
From Stdlib Require Import Sorting.Sorted Sorting.Permutation.
From Stdlib Require OrdersEx DecimalNat.
Import ListNotations.
Local Open Scope string_scope.
Local Open Scope list_scope.
Local Open Scope Z_scope.

(* ===================================================================== *)
(** ** Numbers: float columns rounded to two decimals                     *)
(* ===================================================================== *)

Module Num.

(** A float that went through [.round(2)]. *)
Inductive Float : Type :=
| NaN : Float
| Inf (negative : bool) : Float
| Fin (hundredths : Z) : Float.

(** Round the quotient [n / d] ([0 < d]) to the nearest integer, ties to
    the even one, as [numpy.round] does.  The quotient is the exact one:
    where the binary float of the code lies just off a tie, its last
    digit can differ from the one computed here. *)
Definition round_half_even (n d : Z) : Z :=
  let q := n / d in
  let r := n mod d in
  if 2 * r <? d then q
  else if d <? 2 * r then q + 1
  else if Z.even q then q else q + 1.

(** [(n / d * scale).round(2)] on integer columns [n] and [d]: division by
    zero gives an infinity (NaN for 0/0), it does not raise. *)
Definition div_scale_round2 (n d scale : Z) : Float :=
  if d =? 0 then (if n =? 0 then NaN else Inf (n <? 0))
  else if d <? 0 then Fin (round_half_even (- n * scale * 100) (- d))
  else Fin (round_half_even (n * scale * 100) d).

Definition is_nan (x : Float) : bool :=
  match x with NaN => true | _ => false end.

(** [x <= y] on floats; false as soon as one side is NaN. *)
Definition leb (x y : Float) : bool :=
  match x, y with
  | NaN, _ | _, NaN => false
  | Inf true, _ => true
  | _, Inf false => true
  | Inf false, _ => false
  | _, Inf true => false
  | Fin a, Fin b => a <=? b
  end.

(** The same value of a column: the same number, or missing on both
    sides. *)
Definition same (x y : Float) : bool :=
  match x, y with
  | NaN, NaN => true
  | Inf a, Inf b => Bool.eqb a b
  | Fin a, Fin b => a =? b
  | _, _ => false
  end.

(** Descending order with missing values last: [y] may follow [x]. *)
Definition ge_nan_last (x y : Float) : Prop :=
  leb y x = true \/ is_nan y = true.

End Num.

(* ===================================================================== *)
(** ** Calendar: what pandas' [floor] and [to_period(...).start_time] need *)
(* ===================================================================== *)

Module Calendar.

Definition NS_PER_SECOND : Z := 1000000000.
Definition NS_PER_DAY : Z := 86400 * NS_PER_SECOND.

(** Day number (days since 1970-01-01) and time of day of a timestamp. *)
Definition day_of (t : Z) : Z := t / NS_PER_DAY.
Definition midnight (day : Z) : Z := day * NS_PER_DAY.

Definition is_leap (y : Z) : bool :=
  (y mod 4 =? 0) && (negb (y mod 100 =? 0) || (y mod 400 =? 0)).

(** Days between 0001-01-01 and January 1 of year [y] (proleptic
    Gregorian calendar). *)
Definition days_before_year (y : Z) : Z :=
  let y1 := y - 1 in 365 * y1 + y1 / 4 - y1 / 100 + y1 / 400.

(** 1970-01-01 is day 719162 counted from 0001-01-01. *)
Definition EPOCH_SHIFT : Z := 719162.

(** Day number of January 1 of year [y]. *)
Definition year_start_day (y : Z) : Z := days_before_year y - EPOCH_SHIFT.

(** Year and zero-based day of the year of a day number: the 400, 100, 4
    and 1 year cycles of the Gregorian calendar. *)
Definition year_doy (day : Z) : Z * Z :=
  let n0 := day + EPOCH_SHIFT in
  let n400 := n0 / 146097 in
  let n := n0 mod 146097 in
  let n100 := n / 36524 in
  let n := n mod 36524 in
  let n4 := n / 1461 in
  let n := n mod 1461 in
  let n1 := n / 365 in
  let n := n mod 365 in
  let year := n400 * 400 + 1 + n100 * 100 + n4 * 4 + n1 in
  if (n1 =? 4) || (n100 =? 4) then (year - 1, 365) else (year, n).

(** Days of the year before the first of month [m] (1..12). *)
Definition days_before_month (leap : bool) (m : Z) : Z :=
  let l := if leap then 1 else 0 in
  if m <=? 1 then 0
  else if m =? 2 then 31
  else if m =? 3 then 59 + l
  else if m =? 4 then 90 + l
  else if m =? 5 then 120 + l
  else if m =? 6 then 151 + l
  else if m =? 7 then 181 + l
  else if m =? 8 then 212 + l
  else if m =? 9 then 243 + l
  else if m =? 10 then 273 + l
  else if m =? 11 then 304 + l
  else 334 + l.

(** Month (1..12) of a zero-based day of the year. *)
Definition month_of_doy (leap : bool) (doy : Z) : Z :=
  if doy <? days_before_month leap 2 then 1
  else if doy <? days_before_month leap 3 then 2
  else if doy <? days_before_month leap 4 then 3
  else if doy <? days_before_month leap 5 then 4
  else if doy <? days_before_month leap 6 then 5
  else if doy <? days_before_month leap 7 then 6
  else if doy <? days_before_month leap 8 then 7
  else if doy <? days_before_month leap 9 then 8
  else if doy <? days_before_month leap 10 then 9
  else if doy <? days_before_month leap 11 then 10
  else if doy <? days_before_month leap 12 then 11
  else 12.

(** Civil date (year, month, day of month) of a day number. *)
Definition civil_of_day (day : Z) : Z * Z * Z :=
  let (y, doy) := year_doy day in
  let m := month_of_doy (is_leap y) doy in
  (y, m, doy - days_before_month (is_leap y) m + 1).

(** Day of the week of a day number, Monday = 0 ... Sunday = 6
    (1970-01-01 was a Thursday). *)
Definition weekday (day : Z) : Z := (day + 3) mod 7.

(** [Series.dt.floor('D')]. *)
Definition floor_day (t : Z) : Z := midnight (day_of t).

(** [Series.dt.to_period('W').dt.start_time]: pandas' ['W'] is ['W-SUN'],
    weeks that end on Sunday, so a period starts on Monday 00:00. *)
Definition week_start (t : Z) : Z :=
  midnight (day_of t - weekday (day_of t)).

(** [Series.dt.to_period('M').dt.start_time]. *)
Definition month_start (t : Z) : Z :=
  let '(_, _, dom) := civil_of_day (day_of t) in
  midnight (day_of t - (dom - 1)).

(** [Series.dt.to_period('Y').dt.start_time]. *)
Definition year_start (t : Z) : Z :=
  let (_, doy) := year_doy (day_of t) in
  midnight (day_of t - doy).

(** The first day of the month of day [doy] of a year, as a day of the
    year. *)
Definition month_first_doy (leap : bool) (doy : Z) : Z :=
  days_before_month leap (month_of_doy leap doy).

(** The same truncations on day numbers: the Monday, the first of the
    month and the January 1 on or before a day. *)
Definition week_floor (d : Z) : Z := d - weekday d.

Definition month_floor (d : Z) : Z :=
  let '(_, _, dom) := civil_of_day d in d - (dom - 1).

Definition year_floor (d : Z) : Z :=
  let (_, doy) := year_doy d in d - doy.

End Calendar.

(* ===================================================================== *)
(** ** db.py: the store and the query layer                               *)
(* ===================================================================== *)

Module Db.

(** Python exceptions that the modelled code can meet. *)
Inductive Exn : Type :=
| SQLAlchemyError (msg : string)
| NameError (name : string)
| KeyError (key : string)
| ValueError (msg : string).

Inductive Outcome (A : Type) : Type :=
| Return (a : A)
| Raise (e : Exn).
Arguments Return {A} a.
Arguments Raise {A} e.

(** *** The relational store *)

(** A row of table [tilanteet]; [hake] is nullable. *)
Record Event : Type := {
  timestamp : Z;
  event_type : string;
  municipality : string;
  hake : option string
}.

(** A row of table [vakiluvut]. *)
Record Population : Type := {
  alue : string;
  vuosi : Z;
  vakiluku : Z
}.

(** The data store as it stands at one moment.  [failure = Some msg] is a
    store that cannot be reached or refuses the statement: connecting or
    executing raises [SQLAlchemyError msg]. *)
Record Store : Type := {
  tilanteet : list Event;
  vakiluvut : list Population;
  failure : option string
}.

(** *** Bound parameters *)

Inductive Value : Type :=
| VDatetime (t : Z)
| VText (s : string).

Definition value_eqb (a b : Value) : bool :=
  match a, b with
  | VDatetime x, VDatetime y => x =? y
  | VText x, VText y => String.eqb x y
  | _, _ => false
  end.

(** A tuple of (name, value) pairs, the hashable form of the parameters. *)
Definition ParamsTuple : Type := list (string * Value).

(** A Python [dict] from names to values: insertion ordered, one entry per
    key. *)
Definition Dict : Type := list (string * Value).

Fixpoint dict_set (d : Dict) (k : string) (v : Value) : Dict :=
  match d with
  | [] => [(k, v)]
  | (k', v') :: tl =>
      if String.eqb k' k then (k', v) :: tl else (k', v') :: dict_set tl k v
  end.

Fixpoint dict_get (d : Dict) (k : string) : option Value :=
  match d with
  | [] => None
  | (k', v') :: tl => if String.eqb k' k then Some v' else dict_get tl k
  end.

(** [dict(params_tuple)]: later pairs overwrite earlier ones. *)
Definition dict (t : ParamsTuple) : Dict :=
  fold_left (fun d kv => dict_set d (fst kv) (snd kv)) t [].

(** *** The statements the modelled modules send *)

Inductive Column : Type := C_event_type | C_municipality | C_hake.

Definition column_name (c : Column) : string :=
  match c with
  | C_event_type => "event_type"
  | C_municipality => "municipality"
  | C_hake => "hake"
  end.

(** [SelectTilanteet with_type clauses] is
    [SELECT timestamp, (event_type,) hake FROM tilanteet
     WHERE timestamp BETWEEN :start_date AND :end_date
     AND col IN (:p0, :p1, ...) AND ...], one [IN] test per clause, each
    with the names of its placeholders. *)
Inductive Query : Type :=
| SelectTilanteet (with_event_type : bool)
                  (in_clauses : list (Column * list string))
| PopulationQuery
| IncidentsQuery.

(** [', '.join(...)]. *)
Fixpoint join (sep : string) (l : list string) : string :=
  match l with
  | [] => ""
  | [x] => x
  | x :: tl => (x ++ sep ++ join sep tl)%string
  end.

Definition in_clause_text (c : Column * list string) : string :=
  (" AND " ++ column_name (fst c) ++ " IN ("
     ++ join ", " (map (fun p => ":" ++ p) (snd c)) ++ ")")%string.

(** The SQL text of a statement (layout white space apart). *)
Definition sql_text (q : Query) : string :=
  match q with
  | SelectTilanteet with_type clauses =>
      ((if with_type
        then "SELECT timestamp, event_type, hake"
        else "SELECT timestamp, hake")
       ++ " FROM tilanteet WHERE timestamp BETWEEN :start_date AND :end_date"
       ++ String.concat "" (map in_clause_text clauses))%string
  | PopulationQuery =>
      "SELECT alue, vakiluku FROM vakiluvut WHERE vuosi = 2024"
  | IncidentsQuery =>
      "SELECT municipality, event_type, COUNT(*) as incident_count FROM tilanteet GROUP BY municipality, event_type HAVING COUNT(*) > 100"
  end.

(** *** Result tables *)

(** Columns [timestamp, event_type, hake]. *)
Record SelectedRow : Type := {
  s_timestamp : Z;
  s_event_type : string;
  s_hake : option string
}.

(** Columns [timestamp, hake]. *)
Record TotalRow : Type := {
  t_timestamp : Z;
  t_hake : option string
}.

(** Columns [alue, vakiluku]. *)
Record PopulationRow : Type := {
  p_alue : string;
  p_vakiluku : Z
}.

(** Columns [municipality, event_type, incident_count]. *)
Record IncidentRow : Type := {
  i_municipality : string;
  i_event_type : string;
  i_incident_count : Z
}.

Inductive DataFrame : Type :=
| SelectedFrame (rows : list SelectedRow)
| TotalFrame (rows : list TotalRow)
| PopulationFrame (rows : list PopulationRow)
| IncidentsFrame (rows : list IncidentRow)
| BlankFrame.                          (* [pd.DataFrame()] *)

(** [df.empty]. *)
Definition empty (df : DataFrame) : bool :=
  match df with
  | SelectedFrame [] | TotalFrame [] | PopulationFrame []
  | IncidentsFrame [] | BlankFrame => true
  | _ => false
  end.

(** *** What the store answers *)

Definition bind_datetime (params : option Dict) (name : string) : Outcome Z :=
  match params with
  | None => Raise (SQLAlchemyError "a value is required for bind parameter")
  | Some d =>
      match dict_get d name with
      | Some (VDatetime t) => Return t
      | Some (VText _) => Raise (SQLAlchemyError "invalid input for type timestamp")
      | None => Raise (SQLAlchemyError "a value is required for bind parameter")
      end
  end.

Definition bind_text (params : option Dict) (name : string) : Outcome string :=
  match params with
  | None => Raise (SQLAlchemyError "a value is required for bind parameter")
  | Some d =>
      match dict_get d name with
      | Some (VText s) => Return s
      | Some (VDatetime _) => Raise (SQLAlchemyError "operator does not exist: text = timestamp")
      | None => Raise (SQLAlchemyError "a value is required for bind parameter")
      end
  end.

Fixpoint bind_texts (params : option Dict) (names : list string)
  : Outcome (list string) :=
  match names with
  | [] => Return []
  | n :: tl =>
      match bind_text params n with
      | Raise e => Raise e
      | Return v =>
          match bind_texts params tl with
          | Raise e => Raise e
          | Return vs => Return (v :: vs)
          end
      end
  end.

(** The placeholders of every [IN] test replaced by their values. *)
Fixpoint bind_clauses (params : option Dict)
         (clauses : list (Column * list string))
  : Outcome (list (Column * list string)) :=
  match clauses with
  | [] => Return []
  | (c, names) :: tl =>
      match bind_texts params names with
      | Raise e => Raise e
      | Return vs =>
          match bind_clauses params tl with
          | Raise e => Raise e
          | Return cs => Return ((c, vs) :: cs)
          end
      end
  end.

Definition mem (s : string) (l : list string) : bool :=
  existsb (String.eqb s) l.

(** [col IN (v0, v1, ...)]; a NULL column satisfies no [IN] test. *)
Definition in_test (ev : Event) (c : Column * list string) : bool :=
  match fst c with
  | C_event_type => mem (event_type ev) (snd c)
  | C_municipality => mem (municipality ev) (snd c)
  | C_hake => match hake ev with
              | Some h => mem h (snd c)
              | None => false
              end
  end.

Definition where_tilanteet (lo hi : Z) (clauses : list (Column * list string))
           (ev : Event) : bool :=
  (lo <=? timestamp ev) && (timestamp ev <=? hi) && forallb (in_test ev) clauses.

Definition selected_row (ev : Event) : SelectedRow :=
  {| s_timestamp := timestamp ev;
     s_event_type := event_type ev;
     s_hake := hake ev |}.

Definition total_row (ev : Event) : TotalRow :=
  {| t_timestamp := timestamp ev; t_hake := hake ev |}.

(** The first occurrence of every element, in order of appearance. *)
Fixpoint unique {A : Type} (eqb : A -> A -> bool) (l : list A) : list A :=
  match l with
  | [] => []
  | x :: tl => x :: filter (fun y => negb (eqb x y)) (unique eqb tl)
  end.

Definition pair_eqb (a b : string * string) : bool :=
  String.eqb (fst a) (fst b) && String.eqb (snd a) (snd b).

(** [COUNT( * )] of the group of [(municipality, event_type)]. *)
Definition group_count (evs : list Event) (k : string * string) : Z :=
  Z.of_nat (List.length (filter (fun ev => pair_eqb (municipality ev, event_type ev) k) evs)).

(** [GROUP BY municipality, event_type HAVING COUNT( * ) > 100].  SQL leaves
    the order of the groups open; they are listed in order of first
    appearance. *)
Definition incident_groups (evs : list Event) : list IncidentRow :=
  map (fun k => {| i_municipality := fst k;
                   i_event_type := snd k;
                   i_incident_count := group_count evs k |})
      (filter (fun k => 100 <? group_count evs k)
              (unique pair_eqb (map (fun ev => (municipality ev, event_type ev)) evs))).

(** The number of rows of [tilanteet] of one event type, over all
    municipalities. *)
Definition type_count (evs : list Event) (ty : string) : Z :=
  Z.of_nat (List.length (filter (fun ev => String.eqb (event_type ev) ty) evs)).

Definition population_2024 (pops : list Population) : list PopulationRow :=
  map (fun p => {| p_alue := alue p; p_vakiluku := vakiluku p |})
      (filter (fun p => vuosi p =? 2024) pops).

(** [engine.connect()] followed by [pd.read_sql_query(text(query), conn,
    params=params)]. *)
Definition read_sql_query (db : Store) (q : Query) (params : option Dict)
  : Outcome DataFrame :=
  match failure db with
  | Some msg => Raise (SQLAlchemyError msg)
  | None =>
      match q with
      | SelectTilanteet with_type clauses =>
          match bind_datetime params "start_date" with
          | Raise e => Raise e
          | Return lo =>
          match bind_datetime params "end_date" with
          | Raise e => Raise e
          | Return hi =>
          match bind_clauses params clauses with
          | Raise e => Raise e
          | Return cs =>
              let evs := filter (where_tilanteet lo hi cs) (tilanteet db) in
              Return (if with_type
                      then SelectedFrame (map selected_row evs)
                      else TotalFrame (map total_row evs))
          end end end
      | PopulationQuery => Return (PopulationFrame (population_2024 (vakiluvut db)))
      | IncidentsQuery => Return (IncidentsFrame (incident_groups (tilanteet db)))
      end
  end.

(** *** The process *)

(** What one Python process keeps between calls: the entries of the
    [lru_cache] of [cached_execute_query], most recently used first, and
    (as an observation, not program state) the statements sent to the
    store so far, latest first. *)
Record Proc : Type := {
  lru : list ((string * option ParamsTuple) * DataFrame);
  issued : list (string * option Dict)
}.

(** A computation reads the store, changes the process state and returns
    or raises. *)
Definition M (A : Type) : Type := Store -> Proc -> Outcome A * Proc.

Definition ret {A : Type} (a : A) : M A := fun _ p => (Return a, p).

Definition raise {A : Type} (e : Exn) : M A := fun _ p => (Raise e, p).

Definition bind {A B : Type} (m : M A) (k : A -> M B) : M B :=
  fun db p =>
    match m db p with
    | (Return a, p') => k a db p'
    | (Raise e, p') => (Raise e, p')
    end.

(** [try: m  except Exception as e: h e]. *)
Definition try_except {A : Type} (m : M A) (h : Exn -> M A) : M A :=
  fun db p =>
    match m db p with
    | (Return a, p') => (Return a, p')
    | (Raise e, p') => h e db p'
    end.

(** Lift a pure step that may raise. *)
Definition lift {A : Type} (o : Outcome A) : M A := fun _ p => (o, p).

(** The names bound at module level in [db.py], by its imports and its
    [def]s. *)
Definition module_globals : list string :=
  ["load_dotenv"; "os"; "pd"; "create_engine"; "text"; "SQLAlchemyError";
   "get_engine"; "execute_query"; "get_filter_options"; "load_data"].

(** [execute_query(query, params=None)].  The handler of
    [SQLAlchemyError] starts by evaluating the name [st]; a name that is
    not bound raises [NameError] before [pd.DataFrame()] is returned. *)
Definition execute_query (q : Query) (params : option Dict) : M DataFrame :=
  fun db p =>
    let p' := {| lru := lru p; issued := (sql_text q, params) :: issued p |} in
    match read_sql_query db q params with
    | Return df => (Return df, p')
    | Raise (SQLAlchemyError msg) =>
        if mem "st" module_globals
        then (Return BlankFrame, p')
        else (Raise (NameError "st"), p')
    | Raise e => (Raise e, p')
    end.

End Db.

Notation "x <- m ;; k" := (Db.bind m (fun x => k))
  (at level 61, m at next level, right associativity).

(* ===================================================================== *)
(** ** pandas: the operations the two analyses use                        *)
(* ===================================================================== *)

Module Pandas.

Section GroupBy.
Context {K : Type} (cmp : K -> K -> comparison).

Definition same_key (k x : K) : bool :=
  match cmp k x with Eq => true | _ => false end.

Fixpoint insert_key (k : K) (l : list K) : list K :=
  match l with
  | [] => [k]
  | x :: tl =>
      match cmp k x with
      | Lt => k :: l
      | Eq => l
      | Gt => x :: insert_key k tl
      end
  end.

(** The distinct group keys, in ascending order ([sort=True]). *)
Definition group_keys (keys : list K) : list K :=
  fold_right insert_key [] keys.

(** [df.groupby(keys).size().reset_index(name=...)], given the key of every
    row that has no missing key column: one row per group, sorted by key,
    with the number of rows of the group. *)
Definition groupby_size (keys : list K) : list (K * nat) :=
  map (fun k => (k, List.length (filter (same_key k) keys))) (group_keys keys).

End GroupBy.

Definition lex {A B : Type} (ca : A -> A -> comparison)
           (cb : B -> B -> comparison) (x y : A * B) : comparison :=
  match ca (fst x) (fst y) with
  | Eq => cb (snd x) (snd y)
  | c => c
  end.

(** [pd.merge(left, right, on=..., how='left')]: every left row, in the
    order of [left], with each right row of the same key, or with missing
    values when there is none. *)
Definition merge_left {L R : Type} (same : L -> R -> bool)
           (left : list L) (right : list R) : list (L * option R) :=
  flat_map (fun l =>
              match filter (same l) right with
              | [] => [(l, None)]
              | ms => map (fun r => (l, Some r)) ms
              end) left.

(** [left.merge(right, on=..., how='inner')]. *)
Definition merge_inner {L R : Type} (same : L -> R -> bool)
           (left : list L) (right : list R) : list (L * R) :=
  flat_map (fun l => map (fun r => (l, r)) (filter (same l) right)) left.

Section NLargest.
Context {A : Type} (key : A -> Num.Float).

(** Insert [x] in a list in descending key order, before the rows whose
    key is not larger than its own. *)
Fixpoint insert_desc (x : A) (l : list A) : list A :=
  match l with
  | [] => [x]
  | y :: tl =>
      if Num.leb (key y) (key x) then x :: l else y :: insert_desc x tl
  end.

(** Descending stable sort of rows whose key is not NaN. *)
Definition sort_desc (l : list A) : list A := fold_right insert_desc [] l.

(** [df.nlargest(n, column)] with the default [keep='first'], as pandas
    documents it: the [n] rows with the largest values of [column] in
    descending order, equal values in the order of the frame; rows whose
    value is NaN come after all others. *)
Definition nlargest (n : nat) (l : list A) : list A :=
  let dropped := filter (fun x => negb (Num.is_nan (key x))) l in
  let nan_rows := filter (fun x => Num.is_nan (key x)) l in
  firstn n (sort_desc dropped ++ nan_rows).

End NLargest.

End Pandas.

(* ===================================================================== *)
(** ** vasteet.py: cached queries and the rate aggregator                 *)
(* ===================================================================== *)

Module Vasteet.
Import Db Pandas.

(** *** [@lru_cache(maxsize=128, typed=True)] *)

Definition maxsize : nat := 128.

(** The cache key: the positional arguments [(query, params_tuple)]. *)
Definition Key : Type := (string * option ParamsTuple)%type.

Fixpoint params_eqb (a b : ParamsTuple) : bool :=
  match a, b with
  | [], [] => true
  | (k, v) :: ta, (k', v') :: tb =>
      String.eqb k k' && value_eqb v v' && params_eqb ta tb
  | _, _ => false
  end.

Definition key_eqb (a b : Key) : bool :=
  String.eqb (fst a) (fst b) &&
  match snd a, snd b with
  | None, None => true
  | Some x, Some y => params_eqb x y
  | _, _ => false
  end.

Fixpoint cache_find (k : Key) (c : list (Key * DataFrame)) : option DataFrame :=
  match c with
  | [] => None
  | (k', df) :: tl => if key_eqb k k' then Some df else cache_find k tl
  end.

Definition cache_remove (k : Key) (c : list (Key * DataFrame))
  : list (Key * DataFrame) :=
  filter (fun e => negb (key_eqb k (fst e))) c.

(** [dict(params_tuple) if params_tuple else None]. *)
Definition params_of_tuple (params_tuple : option ParamsTuple) : option Dict :=
  match params_tuple with
  | Some (kv :: tl) => Some (dict (kv :: tl))
  | _ => None
  end.

(** [cached_execute_query(query, params_tuple=None)].  A hit returns the
    stored table and makes the entry the most recent one; a miss runs
    [execute_query], stores its result and drops the least recently used
    entry beyond [maxsize]; a call that raises stores nothing. *)
Definition cached_execute_query (q : Query) (params_tuple : option ParamsTuple)
  : M DataFrame :=
  fun db p =>
    let key := (sql_text q, params_tuple) in
    match cache_find key (lru p) with
    | Some df =>
        (Return df,
         {| lru := (key, df) :: cache_remove key (lru p); issued := issued p |})
    | None =>
        match execute_query q (params_of_tuple params_tuple) db p with
        | (Return df, p') =>
            (Return df,
             {| lru := firstn maxsize ((key, df) :: lru p');
                issued := issued p' |})
        | (Raise e, p') => (Raise e, p')
        end
    end.

(** A sequence of calls of one process; the store may differ from call
    to call. *)
Fixpoint run_calls (calls : list (Query * option ParamsTuple * Store))
         (p : Proc) : Proc :=
  match calls with
  | [] => p
  | (q, params_tuple, db) :: tl =>
      run_calls tl (snd (cached_execute_query q params_tuple db p))
  end.

(** *** Time bucketing *)

(** The [time_group] column for a value of [time_aggregation]; no column
    is added for any other label. *)
Definition time_bucket (time_aggregation : string) : option (Z -> Z) :=
  if String.eqb time_aggregation "Päivä" then Some Calendar.floor_day
  else if String.eqb time_aggregation "Viikko" then Some Calendar.week_start
  else if String.eqb time_aggregation "Kuukausi" then Some Calendar.month_start
  else if String.eqb time_aggregation "Vuosi" then Some Calendar.year_start
  else None.

Definition time_group (time_aggregation : string) (t : Z) : option Z :=
  option_map (fun f => f t) (time_bucket time_aggregation).

(** *** The result of [process_rescue_events] *)

(** A row of [merged_df]; [total_count] is missing when no total row has
    the bucket of the left row. *)
Record MergedRow : Type := {
  m_time_group : Z;
  m_event_type : string;
  m_selected_count : nat;
  m_total_count : option nat;
  m_percentage : Num.Float
}.

(** A row of [merged_df_by_hake], with its [hake_label]. *)
Record HakeRow : Type := {
  h_time_group : Z;
  h_hake : string;
  h_event_type : string;
  h_selected_count : nat;
  h_total_count : option nat;
  h_percentage : Num.Float;
  h_hake_label : string
}.

(** A line chart is the table it draws. *)
Definition Figure : Type := list MergedRow.

Record HakeFigure : Type := {
  hf_event_type : string;
  hf_data : list HakeRow
}.

Inductive Summary : Type :=
| Message (text : string)
| ErrorMessage (e : Exn)                 (* "Error processing data: ..." *)
| Yhteenveto (total_events selected_events : nat) (percentage : Num.Float).

(** A fetched row with its [time_group] column. *)
Definition Bucketed (R : Type) : Type := (R * Z)%type.

Record Result : Type := {
  fig : option Figure;
  hake_figs : list HakeFigure;
  summary_text : Summary;
  sample_data : list (Bucketed SelectedRow)
}.

Definition SELECT_PROMPT : string := "Please select at least one event type.".
Definition NO_DATA : string := "No data available with the current filter settings.".

(** *** Arguments and statement building *)

(** A date argument: a ["%Y-%m-%d"] string or a [date] (its day number). *)
Inductive DateArg : Type :=
| DateStr (s : string)
| DateObj (day : Z).

Definition string_of_nat (n : nat) : string :=
  NilEmpty.string_of_uint (Nat.to_uint n).

(** [f'{prefix}{i}']. *)
Definition placeholder (prefix : string) (i : nat) : string :=
  (prefix ++ string_of_nat i)%string.

Definition placeholders (prefix : string) (n : nat) : list string :=
  map (placeholder prefix) (seq 0 n).

(** The pairs appended by [for i, v in enumerate(values)]. *)
Definition enumerate_params (prefix : string) (values : list string)
  : ParamsTuple :=
  map (fun iv => (placeholder prefix (fst iv), VText (snd iv)))
      (combine (seq 0 (List.length values)) values).

(** One [if values: ...] block: an [IN] test is appended to the statement
    and its parameters to the list, only for a non-empty selection. *)
Definition add_filter (col : Column) (prefix : string) (values : list string)
           (qp : list (Column * list string) * ParamsTuple)
  : list (Column * list string) * ParamsTuple :=
  match values with
  | [] => qp
  | _ :: _ =>
      (fst qp ++ [(col, placeholders prefix (List.length values))],
       snd qp ++ enumerate_params prefix values)
  end.

Definition date_params (start_datetime end_datetime : Z) : ParamsTuple :=
  [("start_date", VDatetime start_datetime);
   ("end_date", VDatetime end_datetime)].

(** [selected_query] and [base_params]. *)
Definition selected_statement (start_datetime end_datetime : Z)
           (selected_event_types selected_municipalities
              selected_hake_values : list string)
  : list (Column * list string) * ParamsTuple :=
  add_filter C_hake "hake_" selected_hake_values
    (add_filter C_municipality "municipality_" selected_municipalities
       (add_filter C_event_type "event_type_" selected_event_types
          ([], date_params start_datetime end_datetime))).

(** [total_query] and [total_params]: the same without the event types. *)
Definition total_statement (start_datetime end_datetime : Z)
           (selected_municipalities selected_hake_values : list string)
  : list (Column * list string) * ParamsTuple :=
  add_filter C_hake "hake_" selected_hake_values
    (add_filter C_municipality "municipality_" selected_municipalities
       ([], date_params start_datetime end_datetime)).

(** The value of [k] after the pairs of [t] were written one by one. *)
Definition last_binding (k : string) (t : ParamsTuple) (start : option Value)
  : option Value :=
  fold_left (fun acc kv => if String.eqb (fst kv) k then Some (snd kv) else acc)
            t start.

(** What one [if values:] block adds. *)
Definition filter_part (col : Column) (prefix : string) (values : list string)
  : list (Column * list string) * ParamsTuple :=
  match values with
  | [] => ([], [])
  | _ :: _ => ([(col, placeholders prefix (List.length values))],
               enumerate_params prefix values)
  end.

(** The clauses and the parameters of the municipality and station
    filters, common to both statements. *)
Definition common_clauses (munis hakes : list string)
  : list (Column * list string) :=
  fst (filter_part C_municipality "municipality_" munis)
  ++ fst (filter_part C_hake "hake_" hakes).

Definition common_params (munis hakes : list string) : ParamsTuple :=
  snd (filter_part C_municipality "municipality_" munis)
  ++ snd (filter_part C_hake "hake_" hakes).

(** *** The aggregation (lines 170-304 of [process_rescue_events]) *)

(** Rows of the total table: only [timestamp] and [hake] are read. *)
Definition as_total_rows (df : DataFrame) : Outcome (list TotalRow) :=
  match df with
  | TotalFrame rows => Return rows
  | SelectedFrame rows =>
      Return (map (fun r => {| t_timestamp := s_timestamp r; t_hake := s_hake r |}) rows)
  | _ => Raise (KeyError "timestamp")
  end.

Definition as_selected_rows (df : DataFrame) : Outcome (list SelectedRow) :=
  match df with
  | SelectedFrame rows => Return rows
  | TotalFrame _ => Raise (KeyError "event_type")
  | _ => Raise (KeyError "timestamp")
  end.

(** [(selected_count / total_count * 100).round(2)]. *)
Definition percentage (selected_count : nat) (total_count : option nat)
  : Num.Float :=
  match total_count with
  | None => Num.NaN
  | Some t => Num.div_scale_round2 (Z.of_nat selected_count) (Z.of_nat t) 100
  end.

Definition cmp_bucket_type : Z * string -> Z * string -> comparison :=
  lex Z.compare String.compare.

Definition cmp_bucket_hake_type
  : Z * string * string -> Z * string * string -> comparison :=
  lex (lex Z.compare String.compare) String.compare.

(** [total_counts], [selected_counts], [merged_df] and its [percentage]. *)
Definition merged_percentages (total_df : list (Bucketed TotalRow))
           (selected_df : list (Bucketed SelectedRow)) : list MergedRow :=
  let total_counts := groupby_size Z.compare (map snd total_df) in
  let selected_counts :=
    groupby_size cmp_bucket_type
                 (map (fun r => (snd r, s_event_type (fst r))) selected_df) in
  map (fun lr =>
         let '((tg, et), n) := fst lr in
         let total := option_map snd (snd lr) in
         {| m_time_group := tg;
            m_event_type := et;
            m_selected_count := n;
            m_total_count := total;
            m_percentage := percentage n total |})
      (merge_left (fun l r => fst (fst l) =? fst r) selected_counts total_counts).

(** [groupby] leaves out the rows whose [hake] is missing. *)
Definition total_hake_keys (total_df : list (Bucketed TotalRow))
  : list (Z * string) :=
  flat_map (fun r => match t_hake (fst r) with
                     | Some h => [(snd r, h)]
                     | None => []
                     end) total_df.

Definition selected_hake_keys (selected_df : list (Bucketed SelectedRow))
  : list (Z * string * string) :=
  flat_map (fun r => match s_hake (fst r) with
                     | Some h => [(snd r, h, s_event_type (fst r))]
                     | None => []
                     end) selected_df.

(** [merged_df_by_hake] with its [percentage]. *)
Definition merged_by_hake (total_df : list (Bucketed TotalRow))
           (selected_df : list (Bucketed SelectedRow)) : list HakeRow :=
  let total_counts_by_hake :=
    groupby_size (lex Z.compare String.compare) (total_hake_keys total_df) in
  let selected_counts_by_hake :=
    groupby_size cmp_bucket_hake_type (selected_hake_keys selected_df) in
  map (fun lr =>
         let '((tg, h, et), n) := fst lr in
         let total := option_map snd (snd lr) in
         {| h_time_group := tg;
            h_hake := h;
            h_event_type := et;
            h_selected_count := n;
            h_total_count := total;
            h_percentage := percentage n total;
            h_hake_label := ("Hätäkeskus " ++ h)%string |})
      (merge_left (fun l r => (fst (fst (fst l)) =? fst (fst r))
                              && String.eqb (snd (fst (fst l))) (snd (fst r)))
                  selected_counts_by_hake total_counts_by_hake).

(** The body of [if show_hake_breakdown:].  [available_hakes] is computed
    there from [selected_hake_values] but only printed: the tables below
    are grouped over every station of the fetched rows. *)
Definition hake_breakdown (total_df : list (Bucketed TotalRow))
           (selected_df : list (Bucketed SelectedRow)) : list HakeFigure :=
  let merged_df_by_hake := merged_by_hake total_df selected_df in
  let event_types := unique String.eqb (map h_event_type merged_df_by_hake) in
  flat_map (fun event_type =>
              match filter (fun r => String.eqb (h_event_type r) event_type)
                           merged_df_by_hake with
              | [] => []                                   (* [continue] *)
              | event_data =>
                  [{| hf_event_type := event_type; hf_data := event_data |}]
              end)
           (firstn 5 event_types).

Definition bucket_rows {R : Type} (ts : R -> Z) (f : Z -> Z) (rows : list R)
  : list (Bucketed R) :=
  map (fun r => (r, f (ts r))) rows.

Definition aggregate (time_aggregation : string) (show_hake_breakdown : bool)
           (total_rows : list TotalRow) (selected_rows : list SelectedRow)
  : Outcome Result :=
  match time_bucket time_aggregation with
  | None => Raise (KeyError "time_group")
  | Some f =>
      let total_df := bucket_rows t_timestamp f total_rows in
      let selected_df := bucket_rows s_timestamp f selected_rows in
      let total_events := List.length total_df in
      let selected_events := List.length selected_df in
      Return
        {| fig := Some (merged_percentages total_df selected_df);
           hake_figs :=
             if show_hake_breakdown
             then hake_breakdown total_df selected_df
             else [];
           summary_text :=
             Yhteenveto total_events selected_events
               (match total_events with
                | O => Num.Fin 0
                | _ => Num.div_scale_round2 (Z.of_nat selected_events)
                                            (Z.of_nat total_events) 100
                end);
           sample_data := firstn 100 selected_df |}
  end.

Definition no_figure (s : Summary) : Result :=
  {| fig := None; hake_figs := []; summary_text := s; sample_data := [] |}.

Section ProcessRescueEvents.

(** [datetime.strptime(s, "%Y-%m-%d")] as the day number of the date;
    [None] when the string does not parse ([ValueError]). *)
Variable strptime : string -> option Z.

Definition start_datetime_of (start_date : DateArg) : Outcome Z :=
  match start_date with
  | DateStr s =>
      match strptime s with
      | Some day => Return (Calendar.midnight day)
      | None => Raise (ValueError "time data does not match format")
      end
  | DateObj day => Return (Calendar.midnight day)
  end.

(** A string gives the last whole second of the day, a [date] its last
    microsecond ([datetime.max.time()]). *)
Definition end_datetime_of (end_date : DateArg) : Outcome Z :=
  match end_date with
  | DateStr s =>
      match strptime s with
      | Some day =>
          Return (Calendar.midnight day + Calendar.NS_PER_DAY - Calendar.NS_PER_SECOND)
      | None => Raise (ValueError "time data does not match format")
      end
  | DateObj day => Return (Calendar.midnight day + Calendar.NS_PER_DAY - 1000)
  end.

Definition process_rescue_events
           (start_date end_date : DateArg)
           (selected_event_types selected_municipalities
              selected_hake_values : list string)
           (time_aggregation : string) (show_hake_breakdown : bool)
  : M Result :=
  try_except
    (match selected_event_types with
     | [] => ret (no_figure (Message SELECT_PROMPT))
     | _ :: _ =>
         start_datetime <- lift (start_datetime_of start_date) ;;
         end_datetime <- lift (end_datetime_of end_date) ;;
         let selected :=
           selected_statement start_datetime end_datetime selected_event_types
                              selected_municipalities selected_hake_values in
         let total :=
           total_statement start_datetime end_datetime
                           selected_municipalities selected_hake_values in
         total_df <- cached_execute_query (SelectTilanteet false (fst total))
                                          (Some (snd total)) ;;
         selected_df <- cached_execute_query (SelectTilanteet true (fst selected))
                                             (Some (snd selected)) ;;
         if empty total_df || empty selected_df
         then ret (no_figure (Message NO_DATA))
         else
           total_rows <- lift (as_total_rows total_df) ;;
           selected_rows <- lift (as_selected_rows selected_df) ;;
           lift (aggregate time_aggregation show_hake_breakdown
                           total_rows selected_rows)
     end)
    (fun e => ret (no_figure (ErrorMessage e))).

End ProcessRescueEvents.

(** The cached tables that a request with these bounds and selections
    uses are current: if the cache has an entry under the key of the total
    statement of the request, or under the key of its subset statement,
    the entry is the table that the store answers to that statement now.
    Entries under other keys are not constrained, and a key without entry
    constrains nothing (its table is then fetched). *)
Definition tables_used_current (db : Store) (p : Proc) (lo hi : Z)
           (etypes munis hakes : list string) : Prop :=
  let total := total_statement lo hi munis hakes in
  let selected := selected_statement lo hi etypes munis hakes in
  (forall df,
      cache_find (sql_text (SelectTilanteet false (fst total)), Some (snd total))
                 (lru p) = Some df ->
      read_sql_query db (SelectTilanteet false (fst total))
                     (params_of_tuple (Some (snd total))) = Return df) /\
  (forall df,
      cache_find (sql_text (SelectTilanteet true (fst selected)),
                  Some (snd selected)) (lru p) = Some df ->
      read_sql_query db (SelectTilanteet true (fst selected))
                     (params_of_tuple (Some (snd selected))) = Return df).

(** The arguments of one call of [process_rescue_events]. *)
Record Request : Type := {
  req_start : DateArg;
  req_end : DateArg;
  req_event_types : list string;
  req_municipalities : list string;
  req_hake_values : list string;
  req_time_aggregation : string;
  req_show_hake : bool
}.

(** The process after it has answered the requests one after the other,
    the store being the same for all of them. *)
Fixpoint run_requests (strptime : string -> option Z) (db : Store)
         (reqs : list Request) (p : Proc) : Proc :=
  match reqs with
  | [] => p
  | r :: tl =>
      run_requests strptime db tl
        (snd (process_rescue_events strptime (req_start r) (req_end r)
                (req_event_types r) (req_municipalities r) (req_hake_values r)
                (req_time_aggregation r) (req_show_hake r) db p))
  end.

(** A cached entry that a request put there on the store [db]: its key is
    the key of the total statement, or of the subset statement, of some
    request, and its table is what [db] answers to that statement. *)
Definition request_table (db : Store) (k : Key) (df : DataFrame) : Prop :=
  (exists lo hi munis hakes,
      k = (sql_text (SelectTilanteet false
                       (fst (total_statement lo hi munis hakes))),
           Some (snd (total_statement lo hi munis hakes))) /\
      read_sql_query db
        (SelectTilanteet false (fst (total_statement lo hi munis hakes)))
        (params_of_tuple (Some (snd (total_statement lo hi munis hakes))))
      = Return df) \/
  (exists lo hi etypes munis hakes,
      k = (sql_text (SelectTilanteet true
                       (fst (selected_statement lo hi etypes munis hakes))),
           Some (snd (selected_statement lo hi etypes munis hakes))) /\
      read_sql_query db
        (SelectTilanteet true
           (fst (selected_statement lo hi etypes munis hakes)))
        (params_of_tuple
           (Some (snd (selected_statement lo hi etypes munis hakes))))
      = Return df).

Definition cache_of_requests (db : Store) (p : Proc) : Prop :=
  forall k df, In (k, df) (lru p) -> request_table db k df.

End Vasteet.

(* ===================================================================== *)
(** ** vakiluvut.py: municipality loader and population normaliser        *)
(* ===================================================================== *)

Module Vakiluvut.
Import Db Pandas.

(** A row of [merged_df]: an incident group joined with a population row. *)
Record MunicipalityRow : Type := {
  r_municipality : string;
  r_event_type : string;
  r_incident_count : Z;
  r_vakiluku : Z
}.

Definition as_population_rows (df : DataFrame) : Outcome (list PopulationRow) :=
  match df with
  | PopulationFrame rows => Return rows
  | _ => Raise (KeyError "municipality")
  end.

Definition as_incident_rows (df : DataFrame) : Outcome (list IncidentRow) :=
  match df with
  | IncidentsFrame rows => Return rows
  | _ => Raise (KeyError "municipality")
  end.

(** [load_municipality_data()]: both tables are fetched with
    [execute_query] (no cache), joined on the municipality name. *)
Definition load_municipality_data : M (list MunicipalityRow * list string) :=
  population_df <- execute_query PopulationQuery None ;;
  incidents_df <- execute_query IncidentsQuery None ;;
  population_rows <- lift (as_population_rows population_df) ;;
  incident_rows <- lift (as_incident_rows incidents_df) ;;
  let merged_df :=
    map (fun ip =>
           {| r_municipality := i_municipality (fst ip);
              r_event_type := i_event_type (fst ip);
              r_incident_count := i_incident_count (fst ip);
              r_vakiluku := p_vakiluku (snd ip) |})
        (merge_inner (fun i p => String.eqb (i_municipality i) (p_alue p))
                     incident_rows population_rows) in
  let event_types := group_keys String.compare (map r_event_type merged_df) in
  ret (merged_df, event_types).

(** A row with its [normalized_rate] column. *)
Record RateRow : Type := {
  rate_row : MunicipalityRow;
  normalized_rate : Num.Float
}.

(** [calculate_municipality_rates(df, selected_event_types)]:
    [incident_count / vakiluku * 1000], rounded to two decimals.  The two
    columns are numbers, as they are in a table that has rows; a table
    without rows whose columns have no numeric type (what a statement
    that yields no row gives) makes [.round(2)] raise, which a list of
    rows does not show. *)
Definition with_normalized_rate (r : MunicipalityRow) : RateRow :=
  {| rate_row := r;
     normalized_rate :=
       Num.div_scale_round2 (r_incident_count r) (r_vakiluku r) 1000 |}.

Definition calculate_municipality_rates (df : list MunicipalityRow)
           (selected_event_types : list string) : list RateRow :=
  map with_normalized_rate
      (filter (fun r => mem (r_event_type r) selected_event_types) df).

(** A row of the result, with its [rank] and [selected_event_type]. *)
Record TopRow : Type := {
  top_row : RateRow;
  rank : nat;
  selected_event_type : string
}.

(** The table appended to [results] for one event type of the loop. *)
Definition top_10_of (normalized_df : list RateRow) (event_type : string)
  : list TopRow :=
  let event_data :=
    filter (fun r => String.eqb (r_event_type (rate_row r)) event_type)
           normalized_df in
  let top_10 := nlargest normalized_rate 10 event_data in
  map (fun ir => {| top_row := snd ir;
                    rank := fst ir;
                    selected_event_type := event_type |})
      (combine (seq 1 (List.length top_10)) top_10).

(** [get_top_municipalities_analysis(df, selected_event_types)]; the
    concatenation of no table is the empty table. *)
Definition get_top_municipalities_analysis (df : list MunicipalityRow)
           (selected_event_types : list string) : list TopRow :=
  let normalized_df := calculate_municipality_rates df selected_event_types in
  List.concat (map (top_10_of normalized_df) selected_event_types).

Inductive Chart : Type :=
| Annotation (text : string)
| BarChart (grouped : bool) (rows : list TopRow).

(** [create_municipality_visualization(df)]. *)
Definition create_municipality_visualization (df : list TopRow) : Chart :=
  match df with
  | [] => Annotation "Ei dataa näytettäväksi"
  | _ :: _ =>
      match unique String.eqb (map (fun r => r_event_type (rate_row (top_row r))) df) with
      | [event_type] =>
          BarChart false
            (firstn 10 (filter (fun r => String.eqb (r_event_type (rate_row (top_row r)))
                                                    event_type) df))
      | _ => BarChart true df
      end
  end.

(** A row of the display table: Sija, Kunta, Tapahtumatyyppi, Tapauksia
    yhteensä, Väkiluku, Tapauksia per 1,000. *)
Definition DisplayRow : Type :=
  (nat * string * string * Z * Z * Num.Float)%type.

Inductive ResultsTable : Type :=
| Viesti (text : string)
| Display (rows : list DisplayRow).

(** [format_municipality_table(df)]; the thousands separators written into
    column Väkiluku are left out. *)
Definition format_municipality_table (df : list TopRow) : ResultsTable :=
  match df with
  | [] => Viesti "Ei dataa saatavilla valituilla kriteereillä"
  | _ :: _ =>
      Display (map (fun r =>
                      let m := rate_row (top_row r) in
                      (rank r, r_municipality m, r_event_type m,
                       r_incident_count m, r_vakiluku m,
                       normalized_rate (top_row r))) df)
  end.

Inductive Summary : Type :=
| SummaryText (text : string)
| AnalysisSummary (event_types : list string) (total_incidents : Z)
                  (total_municipalities : nat).

Definition SELECT_PROMPT : string := "Valitse tapahtumatyyppejä analysoitavaksi.".
Definition NO_DATA : string := "Ei dataa saatavilla valituilla kriteereillä.".

(** [analyze_municipality_incidents(selected_event_types,
    municipality_data_df)]: a function of its two arguments; it reads
    neither the store nor the cache. *)
Definition analyze_municipality_incidents (selected_event_types : list string)
           (municipality_data_df : list MunicipalityRow)
  : ResultsTable * Chart * Summary :=
  match selected_event_types with
  | [] =>
      (Viesti "Valitse vähintään yksi tapahtumatyyppi",
       Annotation "Valitse tapahtumatyyppejä",
       SummaryText SELECT_PROMPT)
  | _ :: _ =>
      let top_municipalities :=
        get_top_municipalities_analysis municipality_data_df selected_event_types in
      let results_table := format_municipality_table top_municipalities in
      let chart := create_municipality_visualization top_municipalities in
      let summary :=
        match top_municipalities with
        | [] => SummaryText NO_DATA
        | _ :: _ =>
            AnalysisSummary
              selected_event_types
              (fold_right Z.add 0
                 (map (fun r => r_incident_count (rate_row (top_row r)))
                      top_municipalities))
              (List.length
                 (unique String.eqb
                    (map (fun r => r_municipality (rate_row (top_row r)))
                         top_municipalities)))
        end in
      (results_table, chart, summary)
  end.

End Vakiluvut.

(* ===================================================================== *)
(** ** Concrete stores and calls used by the examples below               *)
(* ===================================================================== *)

Module Examples.
Import Db Vasteet.

(** A fresh process: nothing cached, nothing sent. *)
Definition fresh : Proc := {| lru := []; issued := [] |}.

(** A store that cannot be reached. *)
Definition store_down : Store :=
  {| tilanteet := []; vakiluvut := []; failure := Some "connection refused" |}.

Definition event (t : Z) (ty mu : string) (h : option string) : Event :=
  {| timestamp := t; event_type := ty; municipality := mu; hake := h |}.

(** 2023-01-02 (a Monday) is day 19359. *)
Definition day_2023_01_02 : Z := 19359.
Definition noon (day : Z) : Z := Calendar.midnight day + 12 * 3600 * Calendar.NS_PER_SECOND.

(** One event of type A on 2023-01-02. *)
Definition store_1 : Store :=
  {| tilanteet := [event (noon day_2023_01_02) "A" "Kouvola" (Some "Kuopio")];
     vakiluvut := [];
     failure := None |}.

(** The same store after three events of type B were recorded, two on the
    same day and one the day after. *)
Definition store_2 : Store :=
  {| tilanteet := tilanteet store_1 ++
                  [event (noon day_2023_01_02 + 1) "B" "Kouvola" (Some "Kuopio");
                   event (noon day_2023_01_02 + 2) "B" "Kouvola" (Some "Kuopio");
                   event (noon (day_2023_01_02 + 1)) "B" "Kouvola" (Some "Kuopio")];
     vakiluvut := [];
     failure := None |}.

(** The same two parameters listed in two orders. *)
Definition range_params : ParamsTuple :=
  [("start_date", VDatetime (Calendar.midnight 19358));
   ("end_date", VDatetime (Calendar.midnight 19370))].

Definition range_params_swapped : ParamsTuple :=
  [("end_date", VDatetime (Calendar.midnight 19370));
   ("start_date", VDatetime (Calendar.midnight 19358))].

Definition all_events_query : Query := SelectTilanteet false [].

(** Kouvola has 150 incidents for 50000 inhabitants, Kotka and Hamina tie
    below it. *)
Definition municipality_rows : list Vakiluvut.MunicipalityRow :=
  [ {| Vakiluvut.r_municipality := "Kotka"; Vakiluvut.r_event_type := "rakennuspalo";
       Vakiluvut.r_incident_count := 120; Vakiluvut.r_vakiluku := 60000 |};
    {| Vakiluvut.r_municipality := "Kouvola"; Vakiluvut.r_event_type := "rakennuspalo";
       Vakiluvut.r_incident_count := 150; Vakiluvut.r_vakiluku := 50000 |};
    {| Vakiluvut.r_municipality := "Hamina"; Vakiluvut.r_event_type := "rakennuspalo";
       Vakiluvut.r_incident_count := 240; Vakiluvut.r_vakiluku := 120000 |};
    {| Vakiluvut.r_municipality := "Kouvola"; Vakiluvut.r_event_type := "maastopalo";
       Vakiluvut.r_incident_count := 101; Vakiluvut.r_vakiluku := 50000 |} ].

(** 101 building fires in Kouvola and 101 in Iitti; Kouvola has
    population rows for 2023 and 2024, Iitti only for 2023. *)
Definition store_regions : Store :=
  {| tilanteet :=
       repeat (event (noon day_2023_01_02) "rakennuspalo" "Kouvola" None) 101
       ++ repeat (event (noon day_2023_01_02) "rakennuspalo" "Iitti" None) 101;
     vakiluvut :=
       [ {| alue := "Kouvola"; vuosi := 2023; vakiluku := 50500 |};
         {| alue := "Kouvola"; vuosi := 2024; vakiluku := 50000 |};
         {| alue := "Iitti"; vuosi := 2023; vakiluku := 6500 |} ];
     failure := None |}.

(** No string is a date: only [date] arguments are used in the examples. *)
Definition no_strptime (s : string) : option Z := None.

(** Two requests of one process for 2023-01-01 .. 2023-01-13, per day:
    event type A while the store is [store_1], then event type B once the
    store has become [store_2]. *)
Definition first_request : Outcome Result * Proc :=
  process_rescue_events no_strptime (DateObj 19358) (DateObj 19370)
                        ["A"] [] [] "Päivä" true store_1 fresh.

Definition second_request : Outcome Result * Proc :=
  process_rescue_events no_strptime (DateObj 19358) (DateObj 19370)
                        ["B"] [] [] "Päivä" true store_2 (snd first_request).

(** What the first request returned and the process state it left. *)
Definition first_result : Result :=
  Eval vm_compute in
    match fst first_request with
    | Return r => r
    | Raise e => no_figure (ErrorMessage e)
    end.

Definition first_state : Proc := Eval vm_compute in snd first_request.

(** The second request on a process that has cached nothing. *)
Definition second_request_alone : Outcome Result * Proc :=
  process_rescue_events no_strptime (DateObj 19358) (DateObj 19370)
                        ["B"] [] [] "Päivä" true store_2 fresh.

End Examples.

(* ===================================================================== *)
(** ** The filter of a request, as the two statements express it          *)
(* ===================================================================== *)

Module Criteria.
Import Db Vasteet.

(** An [IN] test is only written for a selection that is not empty: an
    empty selection restricts nothing. *)
Definition chosen (selection : list string) (v : string) : bool :=
  match selection with
  | [] => true
  | _ :: _ => mem v selection
  end.

(** The same for the nullable station: a row without station passes no
    [IN] test. *)
Definition chosen_hake (selection : list string) (h : option string) : bool :=
  match selection with
  | [] => true
  | _ :: _ => match h with
              | Some v => mem v selection
              | None => false
              end
  end.

(** The [IN] test of one filter with its values in place of the
    placeholders. *)
Definition resolved (col : Column) (values : list string)
  : list (Column * list string) :=
  match values with
  | [] => []
  | _ :: _ => [(col, values)]
  end.

(** [timestamp BETWEEN :start_date AND :end_date] and the municipality and
    station tests: the rows of the total table. *)
Definition total_filter (lo hi : Z) (munis hakes : list string) (ev : Event)
  : bool :=
  (lo <=? timestamp ev) && (timestamp ev <=? hi)
  && chosen munis (municipality ev) && chosen_hake hakes (hake ev).

(** With the event type test: the rows of the subset table. *)
Definition subset_filter (lo hi : Z) (etypes munis hakes : list string)
           (ev : Event) : bool :=
  total_filter lo hi munis hakes ev && chosen etypes (event_type ev).

End Criteria.

(* ===================================================================== *)
(** ** The callers: [update_rescue_events] and the wrappers of airapp.py  *)
(* ===================================================================== *)

Module Ui.
Import Db Vasteet.

(** [gr.Plot(value=fig, visible=True)] or [gr.Plot(visible=False)]. *)
Inductive Plot : Type :=
| PlotShown (chart : HakeFigure)
| PlotHidden.

Inductive UiSummary : Type :=
| FromRequest (s : Summary)            (* the summary of the request *)
| UiError (e : Exn).                   (* f"Error: {str(e)}" *)

(** The values returned to the components [main_chart, summary_markdown,
    sample_data] and to the plots that follow them. *)
Record Outputs : Type := {
  out_chart : option Figure;
  out_summary : UiSummary;
  out_sample : list (Bucketed SelectedRow);
  out_plots : list Plot
}.

(** The loop over the plot components: the [i]-th plot shows the [i]-th
    chart when there is one. *)
Definition plot_outputs (n_components : nat) (hake_figs : list HakeFigure)
  : list Plot :=
  map (fun i => match nth_error hake_figs i with
                | Some chart => PlotShown chart
                | None => PlotHidden
                end)
      (seq 0 n_components).

(** The [return] of the [except] clause: five hidden plots. *)
Definition error_outputs (e : Exn) : Outputs :=
  {| out_chart := None;
     out_summary := UiError e;
     out_sample := [];
     out_plots := repeat PlotHidden 5 |}.

Definition request_outputs (n_components : nat) (r : Result) : Outputs :=
  {| out_chart := fig r;
     out_summary := FromRequest (summary_text r);
     out_sample := sample_data r;
     out_plots := plot_outputs n_components (hake_figs r) |}.

(** The names bound at module level in [vasteet.py]: what [from db import *]
    brings, the other imports and the [def]s. *)
Definition vasteet_globals : list string :=
  module_globals ++
  ["pd"; "gr"; "px"; "datetime"; "timedelta"; "lru_cache";
   "cached_execute_query"; "get_data_ranges"; "update_rescue_events";
   "process_rescue_events"].

Section Callers.
Variable strptime : string -> option Z.

(** [update_rescue_events] of [vasteet.py].  Every [return] of
    [process_rescue_events] gives four values, so the test
    [result is None or len(result) != 4] never holds; the loop then reads
    the name [hake_chart_outputs] (in airapp.py a list of five plots,
    local to [create_gradio_app]). *)
Definition update_rescue_events
           (start end_ : DateArg) (events munis hakes : list string)
           (time_agg : string) (show_hake : bool)
  : Store -> Proc -> Outputs * Proc :=
  fun db p =>
    match process_rescue_events strptime start end_ events munis hakes
                                time_agg show_hake db p with
    | (Return r, p') =>
        if mem "hake_chart_outputs" vasteet_globals
        then (request_outputs 5 r, p')
        else (error_outputs (NameError "hake_chart_outputs"), p')
    | (Raise e, p') => (error_outputs e, p')
    end.

(** [update_rescue_events_wrapper] of [airapp.py], defined where
    [hake_chart_outputs], a list of five plots, is in scope. *)
Definition update_rescue_events_wrapper
           (start end_ : DateArg) (events munis hakes : list string)
           (time_agg : string) (show_hake : bool)
  : Store -> Proc -> Outputs * Proc :=
  fun db p =>
    match process_rescue_events strptime start end_ events munis hakes
                                time_agg show_hake db p with
    | (Return r, p') => (request_outputs 5 r, p')
    | (Raise e, p') => (error_outputs e, p')
    end.

End Callers.

(** [gr.Dropdown(choices=..., value=..., multiselect=True)]. *)
Record Dropdown : Type := {
  choices : list string;
  value : list string
}.

(** The two module-level variables of [airapp.py]. *)
Record Globals : Type := {
  municipality_data_df : option (list Vakiluvut.MunicipalityRow);
  municipality_available_event_types : list string
}.

Definition initial_globals : Globals :=
  {| municipality_data_df := None; municipality_available_event_types := [] |}.

(** [load_municipality_data_on_startup()]: the globals are assigned only
    when the loader returned. *)
Definition load_municipality_data_on_startup (g : Globals)
  : Store -> Proc -> Dropdown * Globals * Proc :=
  fun db p =>
    match Vakiluvut.load_municipality_data db p with
    | (Return (df, event_types), p') =>
        ({| choices := event_types; value := firstn 2 event_types |},
         {| municipality_data_df := Some df;
            municipality_available_event_types := event_types |},
         p')
    | (Raise e, p') => ({| choices := []; value := [] |}, g, p')
    end.

Inductive AnalysisOutcome : Type :=
| Analysis (outputs : Vakiluvut.ResultsTable * Vakiluvut.Chart * Vakiluvut.Summary)
| RaisesTypeError (msg : string).

(** [municipality_analysis_wrapper(selected_event_types)].  While the
    global is still [None], a selection that is not empty makes
    [calculate_municipality_rates] subscript [None]. *)
Definition municipality_analysis_wrapper (g : Globals)
           (selected_event_types : list string) : AnalysisOutcome :=
  match municipality_data_df g, selected_event_types with
  | Some df, _ =>
      Analysis (Vakiluvut.analyze_municipality_incidents selected_event_types df)
  | None, [] =>
      Analysis (Vakiluvut.analyze_municipality_incidents [] [])
  | None, _ :: _ => RaisesTypeError "'NoneType' object is not subscriptable"
  end.

End Ui.

(* ===================================================================== *)
(** ** palotapahtumat.py: option labels and the event-type filter         *)
(* ===================================================================== *)

Module Palotapahtumat.
Import Db.

(** [sep in s]. *)
Fixpoint contains (sep s : string) : bool :=
  match s with
  | "" => String.prefix sep ""
  | String c rest => String.prefix sep s || contains sep rest
  end.

(** [s.split(sep)[0]]: what stands before the first [sep]. *)
Fixpoint before_sep (sep s : string) : string :=
  match s with
  | "" => ""
  | String c rest =>
      if String.prefix sep s then "" else String c (before_sep sep rest)
  end.

(** [event_type.split(' (')[0] if ' (' in event_type else event_type]. *)
Definition clean_event_type (event_type : string) : string :=
  if contains " (" event_type then before_sep " (" event_type else event_type.

(** [f"{row['event_type']} ({row['count']})"], the label of an option. *)
Definition option_label (event_type : string) (count : nat) : string :=
  (event_type ++ " (" ++ Vasteet.string_of_nat count ++ ")")%string.

Section WhereClause.

(** [str.lower]. *)
Variable lower : string -> string.

Definition event_filter_part (event_type : string) : string :=
  ("lower(event_type) = '" ++ lower (clean_event_type event_type) ++ "'")%string.

(** The [WHERE] clause of [palotapahtumat_etl]: all fire events unless a
    filter is given. *)
Definition where_clause (event_type_filter : list string) : string :=
  match event_type_filter with
  | [] => "WHERE lower(event_type) LIKE '%palo%'"
  | _ :: _ =>
      ("WHERE (" ++ join " OR " (map event_filter_part event_type_filter)
                 ++ ")")%string
  end.

End WhereClause.

End Palotapahtumat.

(* ===================================================================== *)
(** ** db.py: [get_filter_options] and [load_data]                        *)
(* ===================================================================== *)

Module DbOptions.
Import Db.

(** [execute_query] for a statement given by its text and by what the
    store answers to it. *)
Definition execute_statement {F : Type} (text : string) (params : option Dict)
           (answer : Store -> Outcome F) (blank : F) : M F :=
  fun db p =>
    let p' := {| lru := lru p; issued := (text, params) :: issued p |} in
    match answer db with
    | Return df => (Return df, p')
    | Raise (SQLAlchemyError msg) =>
        if mem "st" module_globals
        then (Return blank, p')
        else (Raise (NameError "st"), p')
    | Raise e => (Raise e, p')
    end.

(** A store that cannot be reached raises on every statement. *)
Definition connected {F : Type} (db : Store) (rows : Outcome F) : Outcome F :=
  match failure db with
  | Some msg => Raise (SQLAlchemyError msg)
  | None => rows
  end.

(** [load_data(selected_event_type, selected_hake)]: the statement and its
    parameters; ["All"] adds no test. *)
Definition load_data_query (selected_event_type selected_hake : string)
  : string * Dict :=
  let q0 := "SELECT municipality, timestamp, event_type, hake FROM tilanteet WHERE 1=1" in
  let '(q1, p1) :=
    if String.eqb selected_event_type "All" then (q0, [])
    else ((q0 ++ " AND event_type = :event_type")%string,
          dict_set [] "event_type" (VText selected_event_type)) in
  if String.eqb selected_hake "All" then (q1, p1)
  else ((q1 ++ " AND hake = :hake")%string,
        dict_set p1 "hake" (VText selected_hake)).

(** The rows the store answers: each test that was written compares the
    column with the bound value. *)
Definition load_data_rows (with_type with_hake : bool) (params : Dict)
           (evs : list Event) : Outcome (list Event) :=
  match (if with_type then bind_text (Some params) "event_type" else Return ""),
        (if with_hake then bind_text (Some params) "hake" else Return "") with
  | Return ty, Return h =>
      Return (filter (fun ev =>
                        (if with_type then String.eqb (event_type ev) ty else true)
                        && (if with_hake
                            then match hake ev with
                                 | Some v => String.eqb v h
                                 | None => false
                                 end
                            else true)) evs)
  | Raise e, _ | _, Raise e => Raise e
  end.

Definition load_data (selected_event_type selected_hake : string)
  : M (list Event) :=
  let '(query, params) := load_data_query selected_event_type selected_hake in
  execute_statement query (Some params)
    (fun db => connected db
                 (load_data_rows (negb (String.eqb selected_event_type "All"))
                                 (negb (String.eqb selected_hake "All"))
                                 params (tilanteet db)))
    [].

(** [sorted(values)]: insertion in ascending order, equal values keeping
    their order. *)
Fixpoint insert_sorted (x : string) (l : list string) : list string :=
  match l with
  | [] => [x]
  | y :: tl =>
      match String.compare x y with
      | Gt => y :: insert_sorted x tl
      | _ => x :: l
      end
  end.

Definition sorted (l : list string) : list string :=
  fold_right insert_sorted [] l.

(** [SELECT DISTINCT col FROM tilanteet]: each value once, NULL included;
    SQL leaves the order open, the order of first appearance is taken. *)
Definition option_eqb (a b : option string) : bool :=
  match a, b with
  | Some x, Some y => String.eqb x y
  | None, None => true
  | _, _ => false
  end.

Definition distinct_event_types (evs : list Event) : list string :=
  unique String.eqb (map event_type evs).

Definition distinct_hakes (evs : list Event) : list (option string) :=
  unique option_eqb (map hake evs).

(** [Series.dropna().tolist()]. *)
Definition dropna (l : list (option string)) : list string :=
  flat_map (fun o => match o with Some v => [v] | None => [] end) l.

(** [get_filter_options()]. *)
Definition get_filter_options : M (list string * list string) :=
  df_event <- execute_statement "SELECT DISTINCT event_type FROM tilanteet" None
                (fun db => connected db (Return (distinct_event_types (tilanteet db))))
                [] ;;
  df_hake <- execute_statement "SELECT DISTINCT hake FROM tilanteet" None
               (fun db => connected db (Return (distinct_hakes (tilanteet db))))
               [] ;;
  ret ("All" :: sorted df_event, "All" :: sorted (dropna df_hake)).

End DbOptions.

(* ===================================================================== *)
(** ** Further examples                                                   *)
(* ===================================================================== *)

Module MoreExamples.
Import Db Vasteet Examples.

(** Iitti is recorded with a population of zero. *)
Definition iitti_row : Vakiluvut.MunicipalityRow :=
  {| Vakiluvut.r_municipality := "Iitti"; Vakiluvut.r_event_type := "rakennuspalo";
     Vakiluvut.r_incident_count := 101; Vakiluvut.r_vakiluku := 0 |}.

Definition rows_with_zero_population : list Vakiluvut.MunicipalityRow :=
  municipality_rows ++ [iitti_row].

(** A process that has answered one request on [store_2], for both event
    types and one municipality: the two tables of that request are in its
    cache. *)
Definition state_after_request : Proc :=
  snd (process_rescue_events no_strptime (DateObj 19358) (DateObj 19370)
                             ["A"; "B"] ["Kouvola"] [] "Päivä" true
                             store_2 fresh).

End MoreExamples.

(* ===================================================================== *)
(** ** Properties                                                         *)
(* ===================================================================== *)

Section CalendarFacts.
Import Calendar.

Example civil_2023_01_02 : civil_of_day 19359 = (2023, 1, 2).
Proof. reflexivity. Qed.

Example weekday_2023_01_02 : weekday 19359 = 0.
Proof. reflexivity. Qed.

Example civil_2024_02_29 : civil_of_day 19782 = (2024, 2, 29).
Proof. reflexivity. Qed.

Example civil_1969_12_31 : civil_of_day (-1) = (1969, 12, 31).
Proof. reflexivity. Qed.

Lemma year_doy_spec day y doy :
  year_doy day = (y, doy) ->
  day = year_start_day y + doy /\ 0 <= doy /\ day < year_start_day (y + 1).
Proof.
  unfold year_doy, year_start_day, days_before_year, EPOCH_SHIFT.
  cbv zeta.
  destruct (_ || _) eqn:E; intros H; inversion H; subst; clear H.
  - apply orb_true_iff in E. rewrite !Z.eqb_eq in E.
    Z.div_mod_to_equations. lia.
  - apply orb_false_iff in E. rewrite !Z.eqb_neq in E.
    Z.div_mod_to_equations. lia.
Qed.

Lemma year_start_day_mono a b : a <= b -> year_start_day a <= year_start_day b.
Proof.
  unfold year_start_day, days_before_year. cbv zeta. intros H.
  Z.div_mod_to_equations. lia.
Qed.

Lemma year_length y :
  year_start_day (y + 1) =
  year_start_day y + 365 + (if is_leap y then 1 else 0).
Proof.
  unfold year_start_day, days_before_year, is_leap. cbv zeta.
  replace (y + 1 - 1) with y by lia.
  destruct (Z.eqb_spec (y mod 4) 0); destruct (Z.eqb_spec (y mod 100) 0);
    destruct (Z.eqb_spec (y mod 400) 0); cbn [andb orb negb];
    Z.div_mod_to_equations; lia.
Qed.

Lemma year_doy_unique day y :
  year_start_day y <= day < year_start_day (y + 1) ->
  year_doy day = (y, day - year_start_day y).
Proof.
  intros [Hlo Hhi].
  destruct (year_doy day) as [y' doy'] eqn:E.
  apply year_doy_spec in E. destruct E as (Hd & H0 & Hlt).
  assert (y' = y).
  { destruct (Z.lt_trichotomy y' y) as [Hc | [Hc | Hc]]; [| exact Hc |].
    - pose proof (year_start_day_mono (y' + 1) y ltac:(lia)). lia.
    - pose proof (year_start_day_mono (y + 1) y' ltac:(lia)). lia. }
  subst y'. f_equal. lia.
Qed.

Lemma year_of_mono d1 d2 :
  d1 <= d2 -> fst (year_doy d1) <= fst (year_doy d2).
Proof.
  intros H.
  destruct (year_doy d1) as [y1 n1] eqn:E1.
  destruct (year_doy d2) as [y2 n2] eqn:E2.
  apply year_doy_spec in E1. apply year_doy_spec in E2. simpl.
  destruct (Z_le_gt_dec y1 y2) as [Hle | Hgt]; [exact Hle |].
  pose proof (year_start_day_mono (y2 + 1) y1 ltac:(lia)). lia.
Qed.

Ltac eval_days_before_month :=
  repeat match goal with
         | |- context [days_before_month ?l (Z.pos ?m)] =>
             let v := eval vm_compute in (days_before_month l (Z.pos m)) in
             change (days_before_month l (Z.pos m)) with v
         end.

Ltac month_cases :=
  repeat match goal with
         | |- context [if ?a <? ?b then _ else _] => destruct (Z.ltb_spec a b)
         end.

Lemma month_first_doy_le leap doy :
  0 <= doy -> 0 <= month_first_doy leap doy <= doy.
Proof.
  intros H. unfold month_first_doy, month_of_doy.
  destruct leap; eval_days_before_month; month_cases;
    eval_days_before_month; lia.
Qed.

Lemma month_first_doy_mono leap a b :
  a <= b -> month_first_doy leap a <= month_first_doy leap b.
Proof.
  intros H. unfold month_first_doy, month_of_doy.
  destruct leap; eval_days_before_month; month_cases;
    eval_days_before_month; lia.
Qed.

Lemma month_of_first_doy leap doy :
  0 <= doy ->
  month_of_doy leap (month_first_doy leap doy) = month_of_doy leap doy.
Proof.
  intros H. unfold month_first_doy.
  unfold month_of_doy at 2 3.
  destruct leap; eval_days_before_month; month_cases; reflexivity.
Qed.

Lemma month_of_doy_range leap doy : 1 <= month_of_doy leap doy <= 12.
Proof.
  unfold month_of_doy. month_cases; lia.
Qed.

Lemma week_floor_mono d1 d2 : d1 <= d2 -> week_floor d1 <= week_floor d2.
Proof.
  unfold week_floor, weekday. intros H. Z.div_mod_to_equations. lia.
Qed.

Lemma week_floor_spec d :
  weekday (week_floor d) = 0 /\ week_floor d <= d < week_floor d + 7.
Proof.
  unfold week_floor, weekday. Z.div_mod_to_equations. lia.
Qed.

Lemma year_floor_eq d : year_floor d = year_start_day (fst (year_doy d)).
Proof.
  unfold year_floor. destruct (year_doy d) as [y n] eqn:E.
  apply year_doy_spec in E. simpl. lia.
Qed.

Lemma year_floor_mono d1 d2 : d1 <= d2 -> year_floor d1 <= year_floor d2.
Proof.
  intros H. rewrite !year_floor_eq.
  apply year_start_day_mono, year_of_mono, H.
Qed.

Lemma year_floor_spec d :
  year_floor d <= d /\
  civil_of_day (year_floor d) = (fst (year_doy d), 1, 1).
Proof.
  rewrite year_floor_eq.
  destruct (year_doy d) as [y n] eqn:E. simpl.
  apply year_doy_spec in E. destruct E as (Hd & H0 & Hlt).
  split; [lia |].
  unfold civil_of_day.
  rewrite (year_doy_unique (year_start_day y) y).
  - replace (year_start_day y - year_start_day y) with 0 by lia.
    destruct (is_leap y); reflexivity.
  - pose proof (year_length y). destruct (is_leap y); lia.
Qed.

Lemma month_floor_eq d :
  month_floor d =
  year_start_day (fst (year_doy d))
  + month_first_doy (is_leap (fst (year_doy d))) (snd (year_doy d)).
Proof.
  unfold month_floor, civil_of_day, month_first_doy.
  destruct (year_doy d) as [y n] eqn:E. simpl.
  apply year_doy_spec in E. lia.
Qed.

Lemma month_floor_mono d1 d2 : d1 <= d2 -> month_floor d1 <= month_floor d2.
Proof.
  intros H. rewrite !month_floor_eq.
  pose proof (year_of_mono d1 d2 H) as Hy.
  destruct (year_doy d1) as [y1 n1] eqn:E1.
  destruct (year_doy d2) as [y2 n2] eqn:E2. simpl in *.
  apply year_doy_spec in E1. apply year_doy_spec in E2.
  destruct E1 as (Hd1 & H01 & Hlt1). destruct E2 as (Hd2 & H02 & Hlt2).
  destruct (Z.eq_dec y1 y2) as [-> | Hne].
  - pose proof (month_first_doy_mono (is_leap y2) n1 n2 ltac:(lia)). lia.
  - pose proof (month_first_doy_le (is_leap y1) n1 H01).
    pose proof (month_first_doy_le (is_leap y2) n2 H02).
    pose proof (year_start_day_mono (y1 + 1) y2 ltac:(lia)). lia.
Qed.

Lemma month_floor_spec d :
  month_floor d <= d /\
  exists y m dom,
    civil_of_day d = (y, m, dom) /\ civil_of_day (month_floor d) = (y, m, 1).
Proof.
  rewrite month_floor_eq. unfold civil_of_day.
  destruct (year_doy d) as [y n] eqn:E. simpl.
  apply year_doy_spec in E. destruct E as (Hd & H0 & Hlt).
  pose proof (month_first_doy_le (is_leap y) n H0) as Hm.
  split; [lia |].
  eexists _, _, _. split; [reflexivity |].
  rewrite (year_doy_unique _ y) by lia.
  replace (year_start_day y + month_first_doy (is_leap y) n - year_start_day y)
    with (month_first_doy (is_leap y) n) by lia.
  rewrite month_of_first_doy by exact H0.
  unfold month_first_doy. f_equal. lia.
Qed.

Lemma day_of_mono t1 t2 : t1 <= t2 -> day_of t1 <= day_of t2.
Proof.
  intros H. unfold day_of. apply Z.div_le_mono; [reflexivity | exact H].
Qed.

Lemma midnight_mono d1 d2 : d1 <= d2 -> midnight d1 <= midnight d2.
Proof.
  unfold midnight, NS_PER_DAY, NS_PER_SECOND. lia.
Qed.

Lemma midnight_day_of t : midnight (day_of t) <= t < midnight (day_of t) + NS_PER_DAY.
Proof.
  unfold midnight, day_of, NS_PER_DAY, NS_PER_SECOND.
  Z.div_mod_to_equations. lia.
Qed.

Lemma day_of_midnight d : day_of (midnight d) = d.
Proof.
  unfold midnight, day_of, NS_PER_DAY, NS_PER_SECOND.
  Z.div_mod_to_equations. lia.
Qed.

Lemma week_start_eq t : week_start t = midnight (week_floor (day_of t)).
Proof. reflexivity. Qed.

Lemma month_start_eq t : month_start t = midnight (month_floor (day_of t)).
Proof.
  unfold month_start, month_floor.
  destruct (civil_of_day (day_of t)) as [[y m] dom]. reflexivity.
Qed.

Lemma year_start_eq t : year_start t = midnight (year_floor (day_of t)).
Proof.
  unfold year_start, year_floor.
  destruct (year_doy (day_of t)) as [y n]. reflexivity.
Qed.

End CalendarFacts.

(* --------------------------------------------------------------------- *)
(** *** Time bucketing                                                    *)
(* --------------------------------------------------------------------- *)

Section TimeBucketing.
Import Calendar Vasteet.

Lemma time_bucket_mono agg f :
  time_bucket agg = Some f -> forall t1 t2, t1 <= t2 -> f t1 <= f t2.
Proof.
  unfold time_bucket. intros Hf t1 t2 Ht.
  pose proof (day_of_mono t1 t2 Ht) as Hd.
  repeat match type of Hf with
         | (if ?c then _ else _) = _ => destruct c
         end; inversion Hf; subst f; clear Hf.
  - apply midnight_mono, Hd.
  - rewrite !week_start_eq. apply midnight_mono, week_floor_mono, Hd.
  - rewrite !month_start_eq. apply midnight_mono, month_floor_mono, Hd.
  - rewrite !year_start_eq. apply midnight_mono, year_floor_mono, Hd.
Qed.

(** C6.  The bucket of a timestamp never decreases when the timestamp
    grows, for every value of [time_aggregation]; "Päivä" truncates to
    midnight of the same day, "Viikko" to midnight of the Monday that
    starts the week of the timestamp, "Kuukausi" to midnight of the first
    day of its month and "Vuosi" to midnight of January 1 of its year.
    The bucket is a function of the timestamp and the label, and it is
    defined for each of the four labels. *)
Theorem time_group_monotone_truncating :
  (forall agg t1 t2 b1 b2,
      time_group agg t1 = Some b1 -> time_group agg t2 = Some b2 ->
      t1 < t2 -> b1 <= b2) /\
  (forall t, exists b,
      time_group "Päivä" t = Some b /\
      b = midnight (day_of t) /\ b <= t < b + NS_PER_DAY) /\
  (forall t, exists b d,
      time_group "Viikko" t = Some b /\
      b = midnight d /\ weekday d = 0 /\ b <= t < b + 7 * NS_PER_DAY) /\
  (forall t, exists b d y m dom,
      time_group "Kuukausi" t = Some b /\
      b = midnight d /\ b <= t /\
      civil_of_day (day_of t) = (y, m, dom) /\ civil_of_day d = (y, m, 1)) /\
  (forall t, exists b d y m dom,
      time_group "Vuosi" t = Some b /\
      b = midnight d /\ b <= t /\
      civil_of_day (day_of t) = (y, m, dom) /\ civil_of_day d = (y, 1, 1)).
Proof.
  split; [| split; [| split; [| split]]].
  - intros agg t1 t2 b1 b2 H1 H2 Hlt. unfold time_group in *.
    destruct (time_bucket agg) as [f |] eqn:Hf; [| discriminate].
    simpl in *. inversion H1; inversion H2; subst.
    apply (time_bucket_mono agg f Hf). lia.
  - intros t. exists (floor_day t). split; [reflexivity |].
    split; [reflexivity |]. apply midnight_day_of.
  - intros t. exists (week_start t), (week_floor (day_of t)).
    split; [reflexivity |]. split; [reflexivity |].
    destruct (week_floor_spec (day_of t)) as [Hw Hr].
    split; [exact Hw |].
    pose proof (midnight_day_of t) as Hm. rewrite week_start_eq.
    unfold midnight, NS_PER_DAY, NS_PER_SECOND in *. lia.
  - intros t.
    destruct (month_floor_spec (day_of t)) as (Hle & y & m & dom & Hc & Hf).
    exists (month_start t), (month_floor (day_of t)), y, m, dom.
    split; [reflexivity |]. split; [apply month_start_eq |].
    split; [| split; assumption].
    pose proof (midnight_day_of t) as Hm. rewrite month_start_eq.
    unfold midnight, NS_PER_DAY, NS_PER_SECOND in *. lia.
  - intros t.
    destruct (year_floor_spec (day_of t)) as (Hle & Hf).
    destruct (civil_of_day (day_of t)) as [[y m] dom] eqn:Hc.
    exists (year_start t), (year_floor (day_of t)), y, m, dom.
    split; [reflexivity |]. split; [apply year_start_eq |].
    split; [| split; [reflexivity |]].
    + pose proof (midnight_day_of t) as Hm. rewrite year_start_eq.
      unfold midnight, NS_PER_DAY, NS_PER_SECOND in *. lia.
    + rewrite Hf. unfold civil_of_day in Hc.
      destruct (year_doy (day_of t)) as [y' n]. inversion Hc. reflexivity.
Qed.

(** Monday 2023-01-02 12:00 and Tuesday 2023-01-03 12:00 fall in the week
    that starts on 2023-01-02. *)
Lemma time_group_monotone_witness :
  Calendar.midnight 19359 <= Calendar.midnight 19359.
Proof.
  apply (proj1 time_group_monotone_truncating "Viikko"
               (Examples.noon 19359) (Examples.noon 19360)
               (Calendar.midnight 19359) (Calendar.midnight 19359)).
  - reflexivity.
  - reflexivity.
  - vm_compute. reflexivity.
Defined.

End TimeBucketing.

(* --------------------------------------------------------------------- *)
(** *** The query layer                                                   *)
(* --------------------------------------------------------------------- *)

Section QueryLayer.
Import Db Examples.

Lemma execute_query_failure q params db p msg :
  failure db = Some msg ->
  fst (execute_query q params db p) = Raise (NameError "st").
Proof.
  intros H. unfold execute_query, read_sql_query. rewrite H. reflexivity.
Qed.

Lemma execute_query_reachable q params db p :
  failure db = None ->
  execute_query q params db p =
  (read_sql_query db q params,
   {| lru := lru p; issued := (sql_text q, params) :: issued p |})
  \/ exists msg, read_sql_query db q params = Raise (SQLAlchemyError msg).
Proof.
  intros H. unfold execute_query.
  destruct (read_sql_query db q params) as [df | [msg | n | k | m]];
    try (left; reflexivity).
  right. exists msg. reflexivity.
Qed.

(** C4.  On a store that cannot be reached, [execute_query] does not
    return an empty table: the handler of [SQLAlchemyError] raises
    [NameError] for the unbound name [st], and a caller without a handler
    of its own, [load_municipality_data], ends with that exception. *)
Theorem execute_query_store_down_raises :
  mem "st" module_globals = false /\
  execute_query PopulationQuery None store_down fresh =
    (Raise (NameError "st"),
     {| lru := []; issued := [(sql_text PopulationQuery, None)] |}) /\
  fst (Vakiluvut.load_municipality_data store_down fresh) =
    Raise (NameError "st").
Proof.
  repeat split.
Qed.

End QueryLayer.

(* --------------------------------------------------------------------- *)
(** *** Empty selections                                                  *)
(* --------------------------------------------------------------------- *)

Section EmptySelection.
Import Db Vasteet.

Lemma bind_Return_inv {A B : Type} (m : M A) (k : A -> M B) db p b p' :
  (x <- m ;; k x) db p = (Return b, p') ->
  exists a p1, m db p = (Return a, p1) /\ k a db p1 = (Return b, p').
Proof.
  unfold bind. destruct (m db p) as [[a | e] p1]; intros H.
  - exists a, p1. split; [reflexivity | exact H].
  - discriminate.
Qed.

Lemma lift_Return_inv {A : Type} (o : Outcome A) db p a p' :
  lift o db p = (Return a, p') -> o = Return a /\ p' = p.
Proof.
  unfold lift. intros H. inversion H. split; reflexivity.
Qed.

Lemma try_except_total {A : Type} (m : M A) (h : Exn -> A) db p :
  exists a p', try_except m (fun e => ret (h e)) db p = (Return a, p') /\
               (m db p = (Return a, p') \/
                exists e, m db p = (Raise e, p') /\ a = h e).
Proof.
  unfold try_except, ret. destruct (m db p) as [[a | e] p'].
  - exists a, p'. split; [reflexivity | left; reflexivity].
  - exists (h e), p'. split; [reflexivity |]. right. exists e. split; reflexivity.
Qed.

Lemma aggregate_summary agg show total_rows selected_rows r :
  aggregate agg show total_rows selected_rows = Return r ->
  exists n k x, summary_text r = Yhteenveto n k x.
Proof.
  unfold aggregate. destruct (time_bucket agg); [| discriminate].
  intros H. inversion H. simpl. eauto.
Qed.

(** With at least one event type selected the aggregator always returns,
    and never with the prompt for a selection. *)
Lemma process_rescue_events_selected strptime s e x xs munis hakes agg show db p :
  exists r p',
    process_rescue_events strptime s e (x :: xs) munis hakes agg show db p
      = (Return r, p') /\
    summary_text r <> Message Vasteet.SELECT_PROMPT.
Proof.
  unfold process_rescue_events.
  match goal with
  | |- context [try_except ?m ?h] =>
      destruct (try_except_total m (fun e => no_figure (ErrorMessage e)) db p)
        as (r & p' & Hr & Hcase)
  end.
  exists r, p'. split; [exact Hr |].
  destruct Hcase as [Hm | (e0 & _ & ->)]; [| discriminate].
  apply bind_Return_inv in Hm. destruct Hm as (t0 & p1 & _ & Hm).
  apply bind_Return_inv in Hm. destruct Hm as (t1 & p2 & _ & Hm).
  cbv zeta in Hm.
  apply bind_Return_inv in Hm. destruct Hm as (tdf & p3 & _ & Hm).
  apply bind_Return_inv in Hm. destruct Hm as (sdf & p4 & _ & Hm).
  destruct (empty tdf || empty sdf).
  - inversion Hm. discriminate.
  - apply bind_Return_inv in Hm. destruct Hm as (tr & p5 & _ & Hm).
    apply bind_Return_inv in Hm. destruct Hm as (sr & p6 & _ & Hm).
    apply lift_Return_inv in Hm. destruct Hm as [Hm _].
    apply aggregate_summary in Hm. destruct Hm as (n & k & y & ->).
    discriminate.
Qed.

(** C3.  With an empty selection of event types [process_rescue_events]
    returns the prompt "Please select at least one event type." and
    leaves the process state as it was (no statement sent to the store,
    cache untouched), whatever the store and the other arguments are;
    [analyze_municipality_incidents], a function of its arguments alone,
    returns the prompt "Valitse tapahtumatyyppejä analysoitavaksi.".
    Both prompts differ from the "no data" messages, and neither function
    returns its prompt for a selection that is not empty. *)
Theorem empty_selection_prompts_without_query :
  (forall strptime s e munis hakes agg show db p,
      process_rescue_events strptime s e [] munis hakes agg show db p
      = (Return (no_figure (Message Vasteet.SELECT_PROMPT)), p)) /\
  (forall df,
      Vakiluvut.analyze_municipality_incidents [] df
      = (Vakiluvut.Viesti "Valitse vähintään yksi tapahtumatyyppi",
         Vakiluvut.Annotation "Valitse tapahtumatyyppejä",
         Vakiluvut.SummaryText Vakiluvut.SELECT_PROMPT)) /\
  Vasteet.SELECT_PROMPT <> Vasteet.NO_DATA /\
  Vakiluvut.SELECT_PROMPT <> Vakiluvut.NO_DATA /\
  (forall strptime s e x xs munis hakes agg show db p,
      exists r p',
        process_rescue_events strptime s e (x :: xs) munis hakes agg show db p
          = (Return r, p') /\
        summary_text r <> Message Vasteet.SELECT_PROMPT) /\
  (forall x xs df,
      snd (Vakiluvut.analyze_municipality_incidents (x :: xs) df)
      <> Vakiluvut.SummaryText Vakiluvut.SELECT_PROMPT).
Proof.
  split; [| split; [| split; [| split; [| split]]]].
  - reflexivity.
  - reflexivity.
  - discriminate.
  - discriminate.
  - intros. apply process_rescue_events_selected.
  - intros x xs df. unfold Vakiluvut.analyze_municipality_incidents. simpl.
    destruct (Vakiluvut.get_top_municipalities_analysis df (x :: xs));
      discriminate.
Qed.

End EmptySelection.

(* --------------------------------------------------------------------- *)
(** *** The query cache                                                   *)
(* --------------------------------------------------------------------- *)

Section QueryCache.
Import Db Vasteet Examples.

Lemma value_eqb_eq a b : value_eqb a b = true <-> a = b.
Proof.
  destruct a, b; simpl; split; intros H; try discriminate;
    try (apply Z.eqb_eq in H; congruence);
    try (apply String.eqb_eq in H; congruence);
    inversion H; subst; try apply Z.eqb_refl; apply String.eqb_refl.
Qed.

Lemma params_eqb_eq a b : params_eqb a b = true <-> a = b.
Proof.
  revert b. induction a as [| [k v] ta IH]; intros [| [k' v'] tb]; simpl;
    split; intros H; try discriminate; try reflexivity.
  - apply andb_true_iff in H. destruct H as [H Ht].
    apply andb_true_iff in H. destruct H as [Hk Hv].
    apply String.eqb_eq in Hk. apply value_eqb_eq in Hv. apply IH in Ht.
    congruence.
  - inversion H; subst. rewrite String.eqb_refl.
    rewrite (proj2 (value_eqb_eq v' v') eq_refl).
    rewrite (proj2 (IH tb) eq_refl). reflexivity.
Qed.

Lemma key_eqb_eq (a b : Key) : key_eqb a b = true <-> a = b.
Proof.
  destruct a as [qa pa], b as [qb pb]. unfold key_eqb. simpl.
  rewrite andb_true_iff, String.eqb_eq.
  destruct pa as [pa |], pb as [pb |]; try rewrite params_eqb_eq;
    split; intros H; try (destruct H; congruence);
    try (inversion H; split; reflexivity).
Qed.

Lemma key_eqb_refl (k : Key) : key_eqb k k = true.
Proof. apply key_eqb_eq. reflexivity. Qed.

Lemma cache_find_firstn k n c df :
  cache_find k (firstn n c) = Some df -> cache_find k c = Some df.
Proof.
  revert n. induction c as [| [k' d] tl IH]; intros [| n]; simpl;
    try discriminate.
  destruct (key_eqb k k'); [trivial | apply IH].
Qed.

Lemma cache_find_firstn_le k n m c df :
  (n <= m)%nat ->
  cache_find k (firstn n c) = Some df -> cache_find k (firstn m c) = Some df.
Proof.
  revert n m. induction c as [| [k' d] tl IH]; intros [| n] [| m] Hle; simpl;
    try discriminate; try lia.
  destruct (key_eqb k k'); [trivial | apply IH; lia].
Qed.

Lemma cache_find_remove_other k k' n c df :
  key_eqb k k' = false ->
  cache_find k (firstn n c) = Some df ->
  cache_find k (firstn n (cache_remove k' c)) = Some df.
Proof.
  intros Hne. revert n.
  induction c as [| [k0 d] tl IH]; intros n H.
  - destruct n; discriminate.
  - destruct n as [| n]; [discriminate |]. simpl in H. simpl.
    destruct (key_eqb k' k0) eqn:E0; simpl.
    + apply key_eqb_eq in E0. subst k0. rewrite Hne in H.
      apply (cache_find_firstn_le k n (S n)); [lia |]. apply IH, H.
    + destruct (key_eqb k k0); [exact H | apply IH, H].
Qed.

Lemma cache_remove_length k c :
  (List.length (cache_remove k c) <= List.length c)%nat.
Proof. apply filter_length_le. Qed.

Lemma cache_remove_found k c df :
  cache_find k c = Some df ->
  (List.length (cache_remove k c) < List.length c)%nat.
Proof.
  induction c as [| [k' d] tl IH]; simpl; [discriminate |].
  destruct (key_eqb k k') eqn:E; simpl.
  - intros _. pose proof (cache_remove_length k tl). lia.
  - intros H. apply IH in H. lia.
Qed.

Lemma execute_query_lru q params db p :
  lru (snd (execute_query q params db p)) = lru p.
Proof.
  unfold execute_query.
  destruct (read_sql_query db q params) as [df | [msg | n | k | m]];
    reflexivity.
Qed.

(** One call keeps an entry that is among the [n] most recent ones among
    the [n + 1] most recent ones. *)
Lemma cached_call_keeps k df n q ps db p :
  (n < maxsize)%nat ->
  cache_find k (firstn n (lru p)) = Some df ->
  cache_find k (firstn (S n) (lru (snd (cached_execute_query q ps db p))))
  = Some df.
Proof.
  intros Hn Hk. unfold cached_execute_query.
  destruct (cache_find (sql_text q, ps) (lru p)) as [d |] eqn:Hf.
  - cbn [snd lru firstn cache_find].
    destruct (key_eqb k (sql_text q, ps)) eqn:E.
    + apply key_eqb_eq in E. subst k.
      apply cache_find_firstn in Hk. congruence.
    + apply cache_find_remove_other; assumption.
  - pose proof (execute_query_lru q (params_of_tuple ps) db p) as Hl.
    destruct (execute_query q _ db p) as [[d | e] p'] eqn:He;
      cbn [snd] in Hl |- *.
    + cbn [lru]. rewrite Hl.
      rewrite firstn_firstn.
      replace (Nat.min (S n) maxsize) with (S n) by (unfold maxsize in *; lia).
      cbn [firstn cache_find].
      destruct (key_eqb k (sql_text q, ps)) eqn:E; [| exact Hk].
      apply key_eqb_eq in E. subst k.
      apply cache_find_firstn in Hk. congruence.
    + rewrite Hl. apply (cache_find_firstn_le k n (S n)); [lia | exact Hk].
Qed.

Lemma run_calls_keeps k df calls :
  forall n p,
    (n + List.length calls <= maxsize)%nat ->
    cache_find k (firstn n (lru p)) = Some df ->
    cache_find k (lru (run_calls calls p)) = Some df.
Proof.
  induction calls as [| [[q ps] db] tl IH]; intros n p Hn Hk; simpl.
  - apply (cache_find_firstn k n), Hk.
  - simpl in Hn. apply (IH (S n)); [lia |].
    apply cached_call_keeps; [lia | exact Hk].
Qed.

Lemma cached_call_first q ps db p df p1 :
  cached_execute_query q ps db p = (Return df, p1) ->
  cache_find (sql_text q, ps) (firstn 1 (lru p1)) = Some df.
Proof.
  unfold cached_execute_query.
  destruct (cache_find (sql_text q, ps) (lru p)) as [d |] eqn:Hf.
  - intros H. inversion H; subst. cbn [lru firstn cache_find].
    rewrite key_eqb_refl. reflexivity.
  - destruct (execute_query q _ db p) as [[d | e] p'] eqn:He;
      intros H; inversion H; subst.
    cbn [lru maxsize firstn cache_find]. rewrite key_eqb_refl. reflexivity.
Qed.

Lemma cached_call_bounded q ps db p :
  (List.length (lru p) <= maxsize)%nat ->
  (List.length (lru (snd (cached_execute_query q ps db p))) <= maxsize)%nat.
Proof.
  intros H. unfold cached_execute_query.
  destruct (cache_find (sql_text q, ps) (lru p)) as [d |] eqn:Hf.
  - cbn [snd lru List.length]. apply cache_remove_found in Hf.
    unfold Key in *. lia.
  - pose proof (execute_query_lru q (params_of_tuple ps) db p) as Hl.
    destruct (execute_query q _ db p) as [[d | e] p'] eqn:He;
      cbn [snd] in Hl |- *.
    + cbn [lru]. rewrite length_firstn. lia.
    + rewrite Hl. exact H.
Qed.

Lemma run_calls_bounded calls :
  forall p, (List.length (lru p) <= maxsize)%nat ->
            (List.length (lru (run_calls calls p)) <= maxsize)%nat.
Proof.
  induction calls as [| [[q ps] db] tl IH]; intros p H; simpl.
  - exact H.
  - apply IH, cached_call_bounded, H.
Qed.

Lemma swapped_params_same_mapping k :
  dict_get (dict range_params) k = dict_get (dict range_params_swapped) k.
Proof.
  replace (dict range_params) with range_params by reflexivity.
  replace (dict range_params_swapped) with range_params_swapped by reflexivity.
  unfold range_params, range_params_swapped. cbn [dict_get].
  destruct (String.eqb_spec "start_date" k) as [E1 | H1];
    destruct (String.eqb_spec "end_date" k) as [E2 | H2];
    try reflexivity.
  rewrite <- E2 in E1. discriminate.
Qed.

(** C8 (as amended).  The key of the cache is the query text together
    with the parameter tuple as it is written: two keys are the same
    exactly when the texts are equal and the tuples list equal pairs in
    the same order.  A call that returned is answered again from the
    cache, without a statement to the store and whatever the store holds
    by then, as long as fewer than 128 calls were made in between; a call
    whose key is not cached sends its statement to the store; the cache
    of a process never holds more than 128 entries. *)
Theorem cached_execute_query_memoizes_by_tuple :
  (forall k1 k2 : Key, key_eqb k1 k2 = true <-> k1 = k2) /\
  (forall q ps db p df p1 calls db',
      cached_execute_query q ps db p = (Return df, p1) ->
      (List.length calls < maxsize)%nat ->
      let p2 := run_calls calls p1 in
      cached_execute_query q ps db' p2 =
      (Return df,
       {| lru := ((sql_text q, ps), df) :: cache_remove (sql_text q, ps) (lru p2);
          issued := issued p2 |})) /\
  (forall q ps db p,
      cache_find (sql_text q, ps) (lru p) = None ->
      exists params,
        issued (snd (cached_execute_query q ps db p))
        = (sql_text q, params) :: issued p) /\
  (forall calls,
      (List.length (lru (run_calls calls fresh)) <= maxsize)%nat).
Proof.
  split; [exact key_eqb_eq | split; [| split]].
  - intros q ps db p df p1 calls db' Hcall Hlen p2.
    apply cached_call_first in Hcall.
    assert (Hfind : cache_find (sql_text q, ps) (lru p2) = Some df).
    { apply (run_calls_keeps _ _ calls 1); [lia | exact Hcall]. }
    unfold cached_execute_query. rewrite Hfind. reflexivity.
  - intros q ps db p Hnone. unfold cached_execute_query. rewrite Hnone.
    eexists. unfold execute_query.
    destruct (read_sql_query db q _) as [df | [msg | n | k | m]];
      reflexivity.
  - intros calls. apply run_calls_bounded. simpl. unfold maxsize. lia.
Qed.

(** The amended statement at work: a table cached for [store_1] is
    returned again after the store has become [store_2]. *)
Lemma cached_execute_query_memoizes_witness :
  cached_execute_query all_events_query (Some range_params) store_2
    (run_calls [] (snd (cached_execute_query all_events_query
                          (Some range_params) store_1 fresh)))
  = (Return (TotalFrame [ {| t_timestamp := noon day_2023_01_02;
                             t_hake := Some "Kuopio" |} ]),
     {| lru := [((sql_text all_events_query, Some range_params),
                 TotalFrame [ {| t_timestamp := noon day_2023_01_02;
                                 t_hake := Some "Kuopio" |} ])];
        issued := [(sql_text all_events_query, Some (dict range_params))] |}).
Proof.
  refine (proj1 (proj2 cached_execute_query_memoizes_by_tuple)
            all_events_query (Some range_params) store_1 fresh _ _ [] store_2
            _ _).
  - vm_compute. reflexivity.
  - simpl. unfold maxsize. lia.
Defined.

(** C8, the counterexample.  [range_params] and [range_params_swapped]
    are the same mapping, and the query text is the same, yet the second
    call is not answered from the cache: it sends a second statement to
    the store and returns the rows of the store as it is then, not the
    table returned by the first call. *)
Lemma cached_execute_query_order_counterexample :
  (forall k, dict_get (dict range_params) k
             = dict_get (dict range_params_swapped) k) /\
  exists df1 p1 df2 p2,
    cached_execute_query all_events_query (Some range_params) store_1 fresh
      = (Return df1, p1) /\
    cached_execute_query all_events_query (Some range_params_swapped) store_2 p1
      = (Return df2, p2) /\
    df1 <> df2 /\
    List.length (issued p1) = 1%nat /\ List.length (issued p2) = 2%nat /\
    List.length (lru p2) = 2%nat.
Proof.
  split; [exact swapped_params_same_mapping |].
  do 4 eexists.
  split; [vm_compute; reflexivity |].
  split; [vm_compute; reflexivity |].
  split; [discriminate |].
  repeat split.
Qed.

End QueryCache.

(* --------------------------------------------------------------------- *)
(** *** Sorting and [nlargest]                                            *)
(* --------------------------------------------------------------------- *)

Section NLargestFacts.
Import Pandas.
Context {A : Type} (key : A -> Num.Float).

Let desc (a b : A) : Prop := Num.leb (key b) (key a) = true.
Let desc_nan_last (a b : A) : Prop := Num.ge_nan_last (key a) (key b).
Let valued (x : A) : Prop := Num.is_nan (key x) = false.

Lemma leb_total x y :
  Num.is_nan x = false -> Num.is_nan y = false ->
  Num.leb x y = false -> Num.leb y x = true.
Proof.
  destruct x as [| [|] | a], y as [| [|] | b]; simpl; intros; try congruence.
  apply Z.leb_le. apply Z.leb_gt in H1. lia.
Qed.

Lemma leb_trans x y z :
  Num.leb x y = true -> Num.leb y z = true -> Num.leb x z = true.
Proof.
  destruct x as [| [|] | a], y as [| [|] | b], z as [| [|] | c]; simpl;
    intros; try congruence.
  apply Z.leb_le. apply Z.leb_le in H, H0. lia.
Qed.

Lemma same_leb x y :
  Num.is_nan x = false -> Num.same x y = true -> Num.leb y x = true.
Proof.
  destruct x as [| [|] | a], y as [| [|] | b]; simpl; intros; try congruence.
  apply Z.eqb_eq in H0. apply Z.leb_le. lia.
Qed.

Lemma same_trans x y z :
  Num.same x y = true -> Num.same y z = true -> Num.same x z = true.
Proof.
  destruct x as [| [|] | a], y as [| [|] | b], z as [| [|] | c]; simpl;
    intros; try congruence.
  apply Z.eqb_eq in H, H0. apply Z.eqb_eq. lia.
Qed.

Lemma same_nan x y :
  Num.same x y = true -> Num.is_nan x = Num.is_nan y.
Proof.
  destruct x as [| [|] | a], y as [| [|] | b]; simpl; congruence.
Qed.

Lemma insert_desc_In x y l :
  In y (insert_desc key x l) <-> y = x \/ In y l.
Proof.
  induction l as [| z tl IH]; simpl.
  - intuition.
  - destruct (Num.leb (key z) (key x)); simpl; [intuition |].
    rewrite IH. intuition.
Qed.

Lemma insert_desc_length x l :
  List.length (insert_desc key x l) = S (List.length l).
Proof.
  induction l as [| z tl IH]; simpl; [reflexivity |].
  destruct (Num.leb (key z) (key x)); simpl; [reflexivity |].
  rewrite IH. reflexivity.
Qed.

Lemma insert_desc_sorted x l :
  valued x -> Forall valued l ->
  StronglySorted desc l -> StronglySorted desc (insert_desc key x l).
Proof.
  intros Hx Hl Hs. induction Hs as [| z tl Hs IH Hz]; simpl.
  - constructor; constructor.
  - inversion Hl as [| ? ? Hvz Hvtl]; subst.
    destruct (Num.leb (key z) (key x)) eqn:E.
    + constructor; [constructor; assumption |].
      constructor; [exact E |].
      rewrite Forall_forall in Hz |- *. intros w Hw.
      unfold desc. apply (leb_trans _ (key z)); [apply Hz, Hw | exact E].
    + constructor; [apply IH, Hvtl |].
      rewrite Forall_forall in Hz |- *. intros w Hw.
      apply insert_desc_In in Hw. destruct Hw as [-> | Hw]; [| apply Hz, Hw].
      unfold desc. apply leb_total; assumption.
Qed.

(** Inserting a row does not reorder the rows of any one value. *)
Lemma insert_desc_stable v x l :
  valued x ->
  filter (fun y => Num.same v (key y)) (insert_desc key x l)
  = filter (fun y => Num.same v (key y)) (x :: l).
Proof.
  intros Hx. induction l as [| z tl IH]; [reflexivity |].
  cbn [insert_desc]. destruct (Num.leb (key z) (key x)) eqn:E; [reflexivity |].
  cbn [filter] in IH |- *. rewrite IH.
  destruct (Num.same v (key x)) eqn:Ex; [| reflexivity].
  destruct (Num.same v (key z)) eqn:Ez; [| reflexivity].
  exfalso.
  assert (Hxz : Num.same (key x) (key z) = true).
  { apply (same_trans _ v); [| exact Ez].
    destruct v as [| [|] | a], (key x) as [| [|] | b]; simpl in *;
      try congruence. rewrite Z.eqb_sym. exact Ex. }
  rewrite (same_leb _ _ Hx Hxz) in E. discriminate.
Qed.

Lemma sort_desc_In x l : In x (sort_desc key l) <-> In x l.
Proof.
  induction l as [| z tl IH]; simpl; [tauto |].
  rewrite insert_desc_In, IH. intuition.
Qed.

Lemma sort_desc_length l : List.length (sort_desc key l) = List.length l.
Proof.
  induction l as [| z tl IH]; simpl; [reflexivity |].
  rewrite insert_desc_length, IH. reflexivity.
Qed.

Lemma sort_desc_valued l : Forall valued l -> Forall valued (sort_desc key l).
Proof.
  intros H. rewrite Forall_forall in H |- *. intros x Hx.
  apply H, sort_desc_In, Hx.
Qed.

Lemma sort_desc_sorted l :
  Forall valued l -> StronglySorted desc (sort_desc key l).
Proof.
  induction l as [| z tl IH]; simpl; intros H; [constructor |].
  inversion H; subst.
  apply insert_desc_sorted; [assumption | apply sort_desc_valued; assumption |].
  apply IH. assumption.
Qed.

Lemma sort_desc_stable v l :
  Forall valued l ->
  filter (fun y => Num.same v (key y)) (sort_desc key l)
  = filter (fun y => Num.same v (key y)) l.
Proof.
  induction l as [| z tl IH]; simpl; intros H; [reflexivity |].
  inversion H; subst.
  rewrite insert_desc_stable by assumption. cbn [filter].
  rewrite IH by assumption. reflexivity.
Qed.

Lemma StronglySorted_app (R : A -> A -> Prop) l1 l2 :
  StronglySorted R l1 -> StronglySorted R l2 ->
  (forall a b, In a l1 -> In b l2 -> R a b) ->
  StronglySorted R (l1 ++ l2).
Proof.
  intros H1 H2 Hc. induction H1 as [| a tl Hs IH Ha]; simpl; [exact H2 |].
  constructor.
  - apply IH. intros x y Hx Hy. apply Hc; [right; exact Hx | exact Hy].
  - apply Forall_app. split; [exact Ha |].
    rewrite Forall_forall. intros y Hy. apply Hc; [left; reflexivity | exact Hy].
Qed.

Lemma StronglySorted_firstn (R : A -> A -> Prop) n l :
  StronglySorted R l -> StronglySorted R (firstn n l).
Proof.
  intros H. revert n. induction H as [| a tl Hs IH Ha]; intros [| n]; simpl;
    try constructor.
  - apply IH.
  - rewrite Forall_forall in Ha |- *. intros y Hy. apply Ha.
    rewrite <- (firstn_skipn n tl). apply in_or_app. left. exact Hy.
Qed.

Lemma StronglySorted_all (R : A -> A -> Prop) l :
  (forall a b, In a l -> In b l -> R a b) -> StronglySorted R l.
Proof.
  induction l as [| a tl IH]; intros H; constructor.
  - apply IH. intros x y Hx Hy. apply H; right; assumption.
  - rewrite Forall_forall. intros y Hy. apply H; [left; reflexivity | right; exact Hy].
Qed.

Lemma StronglySorted_weaken (R S : A -> A -> Prop) l :
  (forall a b, R a b -> S a b) -> StronglySorted R l -> StronglySorted S l.
Proof.
  intros HRS H. induction H as [| a tl Hs IH Ha]; constructor.
  - exact IH.
  - rewrite Forall_forall in Ha |- *. intros y Hy. apply HRS, Ha, Hy.
Qed.

Lemma filter_firstn_prefix (f : A -> bool) n l :
  exists rest, filter f l = filter f (firstn n l) ++ rest.
Proof.
  exists (filter f (skipn n l)).
  rewrite <- filter_app, firstn_skipn. reflexivity.
Qed.

Lemma filter_filter_implied (f g : A -> bool) l :
  (forall x, f x = true -> g x = true) ->
  filter f (filter g l) = filter f l.
Proof.
  intros H. induction l as [| x tl IH]; simpl; [reflexivity |].
  destruct (g x) eqn:Eg; simpl.
  - rewrite IH. reflexivity.
  - destruct (f x) eqn:Ef; [| exact IH].
    apply H in Ef. congruence.
Qed.

Lemma filter_filter_excluded (f g : A -> bool) l :
  (forall x, f x = true -> g x = false) ->
  filter f (filter g l) = [].
Proof.
  intros H. induction l as [| x tl IH]; simpl; [reflexivity |].
  destruct (g x) eqn:Eg; simpl; [| exact IH].
  destruct (f x) eqn:Ef; [| exact IH].
  apply H in Ef. congruence.
Qed.

Lemma nlargest_unfold n l :
  nlargest key n l =
  firstn n (sort_desc key (filter (fun x => negb (Num.is_nan (key x))) l)
            ++ filter (fun x => Num.is_nan (key x)) l).
Proof. reflexivity. Qed.

Lemma dropped_valued l :
  Forall valued (filter (fun x => negb (Num.is_nan (key x))) l).
Proof.
  rewrite Forall_forall. intros x Hx. apply filter_In in Hx.
  destruct Hx as [_ Hx]. unfold valued.
  destruct (Num.is_nan (key x)); [discriminate | reflexivity].
Qed.

Lemma nlargest_length n l :
  List.length (nlargest key n l) = Nat.min n (List.length l).
Proof.
  rewrite nlargest_unfold, length_firstn, length_app, sort_desc_length.
  f_equal. induction l as [| x tl IH]; simpl; [reflexivity |].
  destruct (Num.is_nan (key x)); simpl; lia.
Qed.

Lemma nlargest_In n l x : In x (nlargest key n l) -> In x l.
Proof.
  rewrite nlargest_unfold. intros H.
  assert (H' : In x (sort_desc key (filter (fun x => negb (Num.is_nan (key x))) l)
                     ++ filter (fun x => Num.is_nan (key x)) l)).
  { rewrite <- (firstn_skipn n (_ ++ _)). apply in_or_app. left. exact H. }
  apply in_app_or in H'. destruct H' as [H' | H'].
  - apply sort_desc_In, filter_In in H'. tauto.
  - apply filter_In in H'. tauto.
Qed.

Lemma nlargest_sorted n l : StronglySorted desc_nan_last (nlargest key n l).
Proof.
  rewrite nlargest_unfold. apply StronglySorted_firstn, StronglySorted_app.
  - apply (StronglySorted_weaken desc).
    + intros a b H. left. exact H.
    + apply sort_desc_sorted, dropped_valued.
  - apply StronglySorted_all. intros a b _ Hb. right.
    apply filter_In in Hb. tauto.
  - intros a b _ Hb. right. apply filter_In in Hb. tauto.
Qed.

(** [keep='first']: the rows of one value keep the order of the frame,
    and those that are returned are the first ones of the frame. *)
Lemma nlargest_stable n l v :
  exists rest,
    filter (fun y => Num.same v (key y)) l
    = filter (fun y => Num.same v (key y)) (nlargest key n l) ++ rest.
Proof.
  rewrite nlargest_unfold.
  assert (H : filter (fun y => Num.same v (key y))
                (sort_desc key (filter (fun x => negb (Num.is_nan (key x))) l)
                 ++ filter (fun x => Num.is_nan (key x)) l)
              = filter (fun y => Num.same v (key y)) l).
  { rewrite filter_app, sort_desc_stable by apply dropped_valued.
    destruct (Num.is_nan v) eqn:Ev.
    - rewrite (filter_filter_excluded _ (fun x => negb (Num.is_nan (key x)))).
      + simpl. apply filter_filter_implied.
        intros x Hx. apply same_nan in Hx. congruence.
      + intros x Hx. apply same_nan in Hx. rewrite <- Hx, Ev. reflexivity.
    - rewrite (filter_filter_excluded _ (fun x => Num.is_nan (key x))).
      + rewrite app_nil_r. apply filter_filter_implied.
        intros x Hx. apply same_nan in Hx. rewrite <- Hx, Ev. reflexivity.
      + intros x Hx. apply same_nan in Hx. congruence. }
  rewrite <- H. apply filter_firstn_prefix.
Qed.

End NLargestFacts.

(* --------------------------------------------------------------------- *)
(** *** The population normaliser                                         *)
(* --------------------------------------------------------------------- *)

Section PopulationNormaliser.
Import Db Pandas Vakiluvut Examples.

Lemma mem_In s l : mem s l = true <-> In s l.
Proof.
  unfold mem. rewrite existsb_exists. split.
  - intros (x & Hx & E). apply String.eqb_eq in E. subst. exact Hx.
  - intros H. exists s. split; [exact H | apply String.eqb_refl].
Qed.

Lemma filter_map_comm {X Y : Type} (f : X -> Y) (g : Y -> bool) l :
  filter g (map f l) = map f (filter (fun x => g (f x)) l).
Proof.
  induction l as [| x tl IH]; simpl; [reflexivity |].
  destruct (g (f x)); simpl; rewrite IH; reflexivity.
Qed.

Lemma ranked_ranks {X : Type} (l : list X) (start : nat) :
  map fst (combine (seq start (List.length l)) l) = seq start (List.length l)
  /\ map snd (combine (seq start (List.length l)) l) = l.
Proof.
  revert start. induction l as [| x tl IH]; intros start; simpl.
  - split; reflexivity.
  - destruct (IH (S start)) as [H1 H2]. rewrite H1, H2. split; reflexivity.
Qed.

Lemma top_10_of_rows normalized_df e :
  map top_row (top_10_of normalized_df e)
  = nlargest normalized_rate 10
      (filter (fun r => String.eqb (r_event_type (rate_row r)) e) normalized_df).
Proof.
  unfold top_10_of. rewrite map_map. cbn [top_row].
  apply (ranked_ranks (nlargest _ _ _) 1).
Qed.

Lemma top_10_of_ranks normalized_df e :
  map rank (top_10_of normalized_df e)
  = seq 1 (List.length (top_10_of normalized_df e)).
Proof.
  unfold top_10_of. rewrite map_map, length_map. cbn [rank].
  rewrite length_combine, length_seq, Nat.min_id.
  apply (ranked_ranks (nlargest _ _ _) 1).
Qed.

Lemma candidates_of_selected df sel e :
  In e sel ->
  filter (fun r => String.eqb (r_event_type (rate_row r)) e)
         (calculate_municipality_rates df sel)
  = map with_normalized_rate
        (filter (fun r => String.eqb (r_event_type r) e) df).
Proof.
  intros He. unfold calculate_municipality_rates.
  rewrite filter_map_comm. cbn [with_normalized_rate rate_row]. f_equal.
  apply filter_filter_implied. intros r Hr.
  apply String.eqb_eq in Hr. rewrite Hr. apply mem_In, He.
Qed.

(** C2.  The result of [get_top_municipalities_analysis] is the
    concatenation, in the order of the selection, of one table per
    selected event type.  The table of event type [e] is made of rows of
    [e] of the frame; it has at most 10 rows (all of them when there are
    fewer); its ranks are 1, 2, ..., k in this order; its rows are in
    descending order of [normalized_rate] (a rate that is NaN, which only
    0/0 gives, counts as the smallest); rows of equal rate stand in the
    order they have in the frame, and those returned are the first ones
    of the frame. *)
Theorem top_municipalities_ranked_descending df sel :
  let normalized_df := calculate_municipality_rates df sel in
  get_top_municipalities_analysis df sel
  = List.concat (map (top_10_of normalized_df) sel) /\
  forall e, In e sel ->
    let candidates :=
      map with_normalized_rate
          (filter (fun r => String.eqb (r_event_type r) e) df) in
    let block := top_10_of normalized_df e in
    List.length block = Nat.min 10 (List.length candidates) /\
    (List.length block <= 10)%nat /\
    map rank block = seq 1 (List.length block) /\
    Forall (fun r => selected_event_type r = e /\
                     r_event_type (rate_row (top_row r)) = e /\
                     In (top_row r) candidates) block /\
    StronglySorted
      (fun a b => Num.ge_nan_last (normalized_rate a) (normalized_rate b))
      (map top_row block) /\
    forall v, exists rest,
        filter (fun r => Num.same v (normalized_rate r)) candidates
        = filter (fun r => Num.same v (normalized_rate r)) (map top_row block)
          ++ rest.
Proof.
  intros normalized_df. split; [reflexivity |].
  intros e He candidates block.
  assert (Hrows : map top_row block = nlargest normalized_rate 10 candidates).
  { unfold block, candidates, normalized_df.
    rewrite top_10_of_rows, candidates_of_selected by exact He. reflexivity. }
  assert (Hlen : List.length block = Nat.min 10 (List.length candidates)).
  { rewrite <- (length_map top_row), Hrows. apply nlargest_length. }
  split; [exact Hlen |]. split; [lia |].
  split; [apply top_10_of_ranks |].
  split; [| split].
  - rewrite Forall_forall. intros r Hr.
    assert (Hin : In (top_row r) candidates).
    { apply (nlargest_In normalized_rate 10). rewrite <- Hrows.
      apply in_map, Hr. }
    split; [| split; [| exact Hin]].
    + unfold block, top_10_of in Hr. apply in_map_iff in Hr.
      destruct Hr as (ir & <- & _). reflexivity.
    + unfold candidates in Hin. apply in_map_iff in Hin.
      destruct Hin as (m & <- & Hm). apply filter_In in Hm.
      destruct Hm as [_ Hm]. apply String.eqb_eq in Hm. exact Hm.
  - rewrite Hrows. apply nlargest_sorted.
  - intros v. rewrite Hrows. apply nlargest_stable.
Qed.

(** Kouvola, 150 incidents for 50000 inhabitants, has rate 3.00 and rank
    1; Kotka and Hamina, both 2.00, follow in the order of the frame. *)
Example top_municipalities_example :
  map (fun r => (rank r, r_municipality (rate_row (top_row r)),
                 normalized_rate (top_row r)))
      (get_top_municipalities_analysis municipality_rows ["rakennuspalo"])
  = [(1%nat, "Kouvola", Num.Fin 300);
     (2%nat, "Kotka", Num.Fin 200);
     (3%nat, "Hamina", Num.Fin 200)].
Proof. vm_compute. reflexivity. Qed.

Lemma top_municipalities_ranked_witness :
  let block := top_10_of (calculate_municipality_rates municipality_rows
                            ["rakennuspalo"]) "rakennuspalo" in
  List.length block = 3%nat /\
  map rank block = [1; 2; 3]%nat /\
  StronglySorted
    (fun a b => Num.ge_nan_last (normalized_rate a) (normalized_rate b))
    (map top_row block).
Proof.
  destruct (proj2 (top_municipalities_ranked_descending
                     municipality_rows ["rakennuspalo"])
                  "rakennuspalo" (or_introl eq_refl))
    as (Hlen & _ & Hrank & _ & Hsorted & _).
  split; [exact Hlen |]. split; [exact Hrank | exact Hsorted].
Defined.

End PopulationNormaliser.

(* --------------------------------------------------------------------- *)
(** *** The municipality loader                                           *)
(* --------------------------------------------------------------------- *)

Section MunicipalityLoader.
Import Db Pandas Vakiluvut Examples.

(** The joined table, as a function of the store. *)
Let merged_of (db : Store) : list MunicipalityRow :=
  map (fun ip =>
         {| r_municipality := i_municipality (fst ip);
            r_event_type := i_event_type (fst ip);
            r_incident_count := i_incident_count (fst ip);
            r_vakiluku := p_vakiluku (snd ip) |})
      (merge_inner (fun i p => String.eqb (i_municipality i) (p_alue p))
                   (incident_groups (tilanteet db))
                   (population_2024 (vakiluvut db))).

Lemma load_municipality_data_reachable db p :
  failure db = None ->
  load_municipality_data db p
  = (Return (merged_of db,
             group_keys String.compare (map r_event_type (merged_of db))),
     {| lru := lru p;
        issued := (sql_text IncidentsQuery, None)
                    :: (sql_text PopulationQuery, None) :: issued p |}).
Proof.
  intros H. unfold load_municipality_data, bind, execute_query, read_sql_query.
  rewrite H. reflexivity.
Qed.

Lemma filter_length_implied {X : Type} (f g : X -> bool) l :
  (forall x, f x = true -> g x = true) ->
  (List.length (filter f l) <= List.length (filter g l))%nat.
Proof.
  intros H. induction l as [| x tl IH]; simpl; [lia |].
  destruct (f x) eqn:Ef.
  - rewrite (H x Ef). simpl. lia.
  - destruct (g x); simpl; lia.
Qed.

Lemma group_count_le_type_count evs m ty :
  group_count evs (m, ty) <= type_count evs ty.
Proof.
  unfold group_count, type_count. apply Nat2Z.inj_le.
  apply filter_length_implied. intros ev Hev. unfold pair_eqb in Hev.
  apply andb_true_iff in Hev. tauto.
Qed.

Lemma merge_inner_In {L R : Type} (same : L -> R -> bool) left right l r :
  In (l, r) (merge_inner same left right) <->
  In l left /\ In r right /\ same l r = true.
Proof.
  unfold merge_inner. rewrite in_flat_map. split.
  - intros (x & Hx & H). apply in_map_iff in H.
    destruct H as (y & E & Hy). inversion E; subst.
    apply filter_In in Hy. tauto.
  - intros (Hl & Hr & Hs). exists l. split; [exact Hl |].
    apply in_map, filter_In. tauto.
Qed.

Lemma merged_of_In db row :
  In row (merged_of db) ->
  100 < r_incident_count row /\
  r_incident_count row
  = group_count (tilanteet db) (r_municipality row, r_event_type row) /\
  exists pop,
    In pop (vakiluvut db) /\ alue pop = r_municipality row /\
    vuosi pop = 2024 /\ vakiluku pop = r_vakiluku row.
Proof.
  unfold merged_of. intros H. apply in_map_iff in H.
  destruct H as ([i pr] & <- & H). apply merge_inner_In in H.
  destruct H as (Hi & Hp & Hs). cbn [fst snd] in *.
  cbn [r_municipality r_event_type r_incident_count r_vakiluku].
  unfold incident_groups in Hi. apply in_map_iff in Hi.
  destruct Hi as (k & <- & Hk). apply filter_In in Hk.
  destruct Hk as [_ Hk]. apply Z.ltb_lt in Hk.
  cbn [i_municipality i_event_type i_incident_count] in *.
  split; [exact Hk |]. split; [destruct k; reflexivity |].
  unfold population_2024 in Hp. apply in_map_iff in Hp.
  destruct Hp as (pop & <- & Hpop). apply filter_In in Hpop.
  destruct Hpop as [Hin Hy]. apply Z.eqb_eq in Hy.
  cbn [p_alue p_vakiluku] in *. apply String.eqb_eq in Hs.
  exists pop. repeat split; auto.
Qed.

(** C9.  On a store that answers, [load_municipality_data] returns the
    joined table, and every row of it is the count of one (municipality,
    event type) group of [tilanteet] that is larger than 100, so its
    event type occurs more than 100 times over all municipalities, joined
    with a row of [vakiluvut] of the same region whose year is 2024. *)
Theorem merged_table_rows_frequent_and_2024 db p :
  failure db = None ->
  exists merged_df event_types p',
    load_municipality_data db p = (Return (merged_df, event_types), p') /\
    forall row, In row merged_df ->
      100 < type_count (tilanteet db) (r_event_type row) /\
      100 < r_incident_count row /\
      r_incident_count row
      = group_count (tilanteet db) (r_municipality row, r_event_type row) /\
      exists pop,
        In pop (vakiluvut db) /\ alue pop = r_municipality row /\
        vuosi pop = 2024 /\ vakiluku pop = r_vakiluku row.
Proof.
  intros H. do 3 eexists.
  split; [apply load_municipality_data_reachable, H |].
  intros row Hrow. apply merged_of_In in Hrow.
  destruct Hrow as (Hc & Hg & Hpop).
  split; [| split; [exact Hc | split; [exact Hg | exact Hpop]]].
  pose proof (group_count_le_type_count (tilanteet db)
                (r_municipality row) (r_event_type row)). lia.
Qed.

Example load_store_regions :
  fst (load_municipality_data store_regions fresh)
  = Return ([ {| r_municipality := "Kouvola"; r_event_type := "rakennuspalo";
                 r_incident_count := 101; r_vakiluku := 50000 |} ],
            ["rakennuspalo"]).
Proof. vm_compute. reflexivity. Qed.

Lemma merged_table_rows_witness :
  exists merged_df event_types p',
    load_municipality_data store_regions fresh
    = (Return (merged_df, event_types), p') /\
    forall row, In row merged_df ->
      100 < type_count (tilanteet store_regions) (r_event_type row) /\
      100 < r_incident_count row /\
      r_incident_count row
      = group_count (tilanteet store_regions)
                    (r_municipality row, r_event_type row) /\
      exists pop,
        In pop (vakiluvut store_regions) /\ alue pop = r_municipality row /\
        vuosi pop = 2024 /\ vakiluku pop = r_vakiluku row.
Proof.
  apply (merged_table_rows_frequent_and_2024 store_regions fresh).
  reflexivity.
Defined.

Lemma top_rows_from_frame df sel row :
  In row (get_top_municipalities_analysis df sel) ->
  In (rate_row (top_row row)) df.
Proof.
  unfold get_top_municipalities_analysis. intros H.
  apply in_concat in H. destruct H as (block & Hb & Hrow).
  apply in_map_iff in Hb. destruct Hb as (e & <- & _).
  apply (in_map top_row) in Hrow. rewrite top_10_of_rows in Hrow.
  apply nlargest_In, filter_In in Hrow. destruct Hrow as [Hrow _].
  unfold calculate_municipality_rates in Hrow. apply in_map_iff in Hrow.
  destruct Hrow as (m & <- & Hm). apply filter_In in Hm. tauto.
Qed.

(** C10.  A region without a row of year 2024 in [vakiluvut] has no row
    in the joined table, whatever incidents it has, and so no row in the
    top-10 table of any selection; the loader returns normally. *)
Theorem region_without_2024_population_dropped db p region :
  failure db = None ->
  (forall pop, In pop (vakiluvut db) -> alue pop = region -> vuosi pop <> 2024) ->
  exists merged_df event_types p',
    load_municipality_data db p = (Return (merged_df, event_types), p') /\
    (forall row, In row merged_df -> r_municipality row <> region) /\
    (forall sel row,
        In row (get_top_municipalities_analysis merged_df sel) ->
        r_municipality (rate_row (top_row row)) <> region).
Proof.
  intros H Hregion. do 3 eexists.
  split; [apply load_municipality_data_reachable, H |].
  assert (Hm : forall row, In row (merged_of db) -> r_municipality row <> region).
  { intros row Hrow Heq. apply merged_of_In in Hrow.
    destruct Hrow as (_ & _ & pop & Hin & Ha & Hy & _).
    apply (Hregion pop Hin); congruence. }
  split; [exact Hm |].
  intros sel row Hrow. apply Hm. apply (top_rows_from_frame _ sel), Hrow.
Qed.

Lemma region_without_2024_population_witness :
  exists merged_df event_types p',
    load_municipality_data store_regions fresh
    = (Return (merged_df, event_types), p') /\
    (forall row, In row merged_df -> r_municipality row <> "Iitti") /\
    (forall sel row,
        In row (get_top_municipalities_analysis merged_df sel) ->
        r_municipality (rate_row (top_row row)) <> "Iitti").
Proof.
  apply (region_without_2024_population_dropped store_regions fresh "Iitti").
  - reflexivity.
  - intros pop Hin Ha. simpl in Hin.
    destruct Hin as [<- | [<- | [<- | []]]]; simpl in *;
      try discriminate; lia.
Defined.

End MunicipalityLoader.

(* --------------------------------------------------------------------- *)
(** *** Grouping and joining                                              *)
(* --------------------------------------------------------------------- *)

Section GroupByFacts.
Import Pandas.
Context {K : Type} (cmp : K -> K -> comparison).
Hypothesis cmp_eq : forall a b, cmp a b = Eq <-> a = b.

Lemma same_key_eq k x : same_key cmp k x = true <-> k = x.
Proof using cmp_eq.
  unfold same_key. rewrite <- cmp_eq. destruct (cmp k x); split; congruence.
Qed.

Lemma insert_key_In x k l : In x (insert_key cmp k l) <-> x = k \/ In x l.
Proof using cmp_eq.
  induction l as [| y tl IH]; simpl.
  - intuition.
  - destruct (cmp k y) eqn:E; simpl.
    + apply cmp_eq in E. subst y. intuition.
    + intuition.
    + rewrite IH. intuition.
Qed.

Lemma group_keys_In x keys : In x (group_keys cmp keys) <-> In x keys.
Proof using cmp_eq.
  induction keys as [| k tl IH]; simpl; [tauto |].
  rewrite insert_key_In, IH. intuition.
Qed.

Lemma groupby_size_In k n keys :
  In (k, n) (groupby_size cmp keys) <->
  In k keys /\ n = List.length (filter (same_key cmp k) keys).
Proof using cmp_eq.
  unfold groupby_size. rewrite in_map_iff. split.
  - intros (x & E & Hx). inversion E; subst.
    apply (proj1 (group_keys_In _ _)) in Hx. split; [exact Hx | reflexivity].
  - intros [Hk ->]. exists k. split; [reflexivity |].
    apply group_keys_In, Hk.
Qed.

Lemma group_size_positive k keys :
  In k keys -> (0 < List.length (filter (same_key cmp k) keys))%nat.
Proof using cmp_eq.
  intros H.
  assert (Hin : In k (filter (same_key cmp k) keys)).
  { apply filter_In. split; [exact H | apply same_key_eq; reflexivity]. }
  destruct (filter (same_key cmp k) keys); [destruct Hin | simpl; lia].
Qed.

End GroupByFacts.

Section JoinFacts.
Import Pandas.

Lemma string_compare_eq a b : String.compare a b = Eq <-> a = b.
Proof.
  split; [apply String.compare_eq_iff |].
  intros ->. pose proof (String.compare_antisym b b) as H.
  destruct (String.compare b b); [reflexivity | discriminate | discriminate].
Qed.

Lemma lex_eq {A B : Type} (ca : A -> A -> comparison) (cb : B -> B -> comparison) :
  (forall a b, ca a b = Eq <-> a = b) ->
  (forall a b, cb a b = Eq <-> a = b) ->
  forall x y, lex ca cb x y = Eq <-> x = y.
Proof.
  intros Ha Hb [a b] [a' b']. unfold lex. simpl. split.
  - destruct (ca a a') eqn:E; try discriminate.
    intros H. apply Ha in E. apply Hb in H. congruence.
  - intros H. inversion H; subst.
    rewrite (proj2 (Ha a' a') eq_refl). apply Hb. reflexivity.
Qed.

Lemma cmp_bucket_type_eq x y : Vasteet.cmp_bucket_type x y = Eq <-> x = y.
Proof. apply lex_eq; [apply Z.compare_eq_iff | apply string_compare_eq]. Qed.



Lemma merge_left_In {L R : Type} (same : L -> R -> bool) left right l o :
  In (l, o) (merge_left same left right) ->
  In l left /\
  match o with
  | Some r => In r right /\ same l r = true
  | None => filter (same l) right = []
  end.
Proof.
  unfold merge_left. rewrite in_flat_map. intros (x & Hx & H).
  destruct (filter (same x) right) as [| m ms] eqn:E.
  - destruct H as [H | []]. inversion H; subst. split; [exact Hx | exact E].
  - apply in_map_iff in H. destruct H as (r & Hr & Hin). inversion Hr; subst.
    split; [exact Hx |]. rewrite <- E in Hin. apply filter_In in Hin. exact Hin.
Qed.


(** Counting rows of a restricted table under a finer key. *)
Lemma count_restriction {X K1 K2 : Type} (h1 : X -> K1) (h2 : X -> K2)
      (g1 : K1 -> bool) (g2 : K2 -> bool) (w1 w2 : X -> bool) l :
  (forall x, w1 x = true -> g1 (h1 x) = true ->
             w2 x = true /\ g2 (h2 x) = true) ->
  (List.length (filter g1 (map h1 (filter w1 l)))
   <= List.length (filter g2 (map h2 (filter w2 l))))%nat.
Proof.
  intros H. induction l as [| x tl IH]; simpl; [lia |].
  destruct (w1 x) eqn:E1; simpl.
  - destruct (g1 (h1 x)) eqn:G1; simpl.
    + destruct (H x E1 G1) as [E2 G2]. rewrite E2. simpl. rewrite G2. simpl. lia.
    + destruct (w2 x); simpl; [destruct (g2 (h2 x)); simpl; lia | lia].
  - destruct (w2 x); simpl; [destruct (g2 (h2 x)); simpl; lia | lia].
Qed.

End JoinFacts.

(* --------------------------------------------------------------------- *)
(** *** Bound parameters of the two statements                            *)
(* --------------------------------------------------------------------- *)

Section StatementFacts.
Import Db Pandas Vasteet.

Lemma dict_get_set d k' v k :
  dict_get (dict_set d k' v) k
  = if String.eqb k' k then Some v else dict_get d k.
Proof.
  induction d as [| [k0 v0] tl IH]; simpl; [reflexivity |].
  destruct (String.eqb_spec k0 k') as [-> | Hne]; simpl.
  - destruct (String.eqb k' k); reflexivity.
  - rewrite IH. destruct (String.eqb_spec k0 k) as [-> | Hk]; [| reflexivity].
    destruct (String.eqb_spec k' k) as [-> | _]; [congruence | reflexivity].
Qed.

Lemma dict_get_fold t d k :
  dict_get (fold_left (fun d kv => dict_set d (fst kv) (snd kv)) t d) k
  = last_binding k t (dict_get d k).
Proof.
  revert d. induction t as [| [k' v] tl IH]; intros d; simpl; [reflexivity |].
  unfold last_binding in *. rewrite IH. simpl. rewrite dict_get_set. reflexivity.
Qed.

Lemma last_binding_unbound k t start :
  (forall kv, In kv t -> String.eqb (fst kv) k = false) ->
  last_binding k t start = start.
Proof.
  unfold last_binding. revert start.
  induction t as [| kv tl IH]; intros start H; simpl; [reflexivity |].
  rewrite (H kv (or_introl eq_refl)). apply IH.
  intros x Hx. apply H. right. exact Hx.
Qed.

Lemma last_binding_app k a b start :
  last_binding k (a ++ b) start = last_binding k b (last_binding k a start).
Proof. unfold last_binding. apply fold_left_app. Qed.

(** Pairs whose names are not [k] can be left out of the tuple. *)
Lemma dict_get_without a e b k :
  (forall kv, In kv e -> String.eqb (fst kv) k = false) ->
  dict_get (dict (a ++ e ++ b)) k = dict_get (dict (a ++ b)) k.
Proof.
  intros H. unfold dict. rewrite !dict_get_fold, !last_binding_app.
  rewrite (last_binding_unbound k e) by exact H. reflexivity.
Qed.

Lemma add_filter_parts col prefix values qp :
  add_filter col prefix values qp
  = (fst qp ++ fst (filter_part col prefix values),
     snd qp ++ snd (filter_part col prefix values)).
Proof.
  destruct qp as [c t]. destruct values; simpl; [| reflexivity].
  rewrite !app_nil_r. reflexivity.
Qed.

Lemma filter_part_names col prefix values kv :
  In kv (snd (filter_part col prefix values)) ->
  exists i, fst kv = placeholder prefix i.
Proof.
  destruct values as [| v tl]; [intros [] |].
  cbn [filter_part snd]. unfold enumerate_params. intros H.
  apply in_map_iff in H. destruct H as ([i x] & <- & _).
  exists i. reflexivity.
Qed.

Lemma filter_part_placeholders col prefix values c name :
  In c (fst (filter_part col prefix values)) -> In name (snd c) ->
  exists i, name = placeholder prefix i.
Proof.
  destruct values as [| v tl]; [intros [] |].
  cbn [filter_part fst]. intros [<- | []]. cbn [snd]. unfold placeholders.
  intros H. apply in_map_iff in H. destruct H as (i & <- & _).
  exists i. reflexivity.
Qed.

Lemma total_statement_parts lo hi munis hakes :
  total_statement lo hi munis hakes
  = (common_clauses munis hakes,
     date_params lo hi ++ [] ++ common_params munis hakes).
Proof.
  unfold total_statement, common_clauses, common_params.
  rewrite !add_filter_parts. cbn [fst snd app].
  rewrite <- !app_assoc. reflexivity.
Qed.

Lemma selected_statement_parts lo hi etypes munis hakes :
  selected_statement lo hi etypes munis hakes
  = (fst (filter_part C_event_type "event_type_" etypes)
       ++ common_clauses munis hakes,
     date_params lo hi
       ++ snd (filter_part C_event_type "event_type_" etypes)
       ++ common_params munis hakes).
Proof.
  unfold selected_statement, common_clauses, common_params.
  rewrite !add_filter_parts. cbn [fst snd app].
  rewrite <- !app_assoc. reflexivity.
Qed.

(** A name that is no event-type placeholder is bound to the same value
    by both tuples. *)
Lemma statements_agree lo hi etypes munis hakes name :
  (forall i, String.eqb (placeholder "event_type_" i) name = false) ->
  dict_get (dict (snd (selected_statement lo hi etypes munis hakes))) name
  = dict_get (dict (snd (total_statement lo hi munis hakes))) name.
Proof.
  intros H. rewrite selected_statement_parts, total_statement_parts.
  cbn [snd]. rewrite !dict_get_without; [reflexivity | intros kv [] |].
  intros kv Hkv. apply filter_part_names in Hkv. destruct Hkv as (i & ->).
  apply H.
Qed.

Lemma bind_text_agree d1 d2 name :
  dict_get d1 name = dict_get d2 name ->
  bind_text (Some d1) name = bind_text (Some d2) name.
Proof. unfold bind_text. intros ->. reflexivity. Qed.

Lemma bind_texts_agree d1 d2 names :
  (forall n, In n names -> dict_get d1 n = dict_get d2 n) ->
  bind_texts (Some d1) names = bind_texts (Some d2) names.
Proof.
  induction names as [| n tl IH]; intros H; [reflexivity |].
  cbn [bind_texts]. rewrite (bind_text_agree d1 d2 n) by (apply H; left; reflexivity).
  rewrite IH by (intros x Hx; apply H; right; exact Hx). reflexivity.
Qed.

Lemma bind_clauses_agree d1 d2 clauses :
  (forall c n, In c clauses -> In n (snd c) -> dict_get d1 n = dict_get d2 n) ->
  bind_clauses (Some d1) clauses = bind_clauses (Some d2) clauses.
Proof.
  induction clauses as [| [c names] tl IH]; intros H; [reflexivity |].
  cbn [bind_clauses].
  rewrite (bind_texts_agree d1 d2 names)
    by (intros n Hn; apply (H (c, names)); [left; reflexivity | exact Hn]).
  rewrite IH by (intros x n Hx Hn; apply (H x n); [right; exact Hx | exact Hn]).
  reflexivity.
Qed.

Lemma common_clause_names munis hakes c name :
  In c (common_clauses munis hakes) -> In name (snd c) ->
  forall i, String.eqb (placeholder "event_type_" i) name = false.
Proof.
  unfold common_clauses. intros Hc Hn i. apply in_app_or in Hc.
  destruct Hc as [Hc | Hc];
    destruct (filter_part_placeholders _ _ _ _ _ Hc Hn) as (j & ->);
    reflexivity.
Qed.

End StatementFacts.

(* --------------------------------------------------------------------- *)
(** *** The rate aggregator                                               *)
(* --------------------------------------------------------------------- *)

Section RateAggregator.
Import Db Pandas Vasteet Examples.

Lemma execute_query_Return q params db p df p1 :
  execute_query q params db p = (Return df, p1) ->
  read_sql_query db q params = Return df.
Proof.
  unfold execute_query.
  destruct (read_sql_query db q params) as [d | [msg | n | k | m]];
    cbn; intros H; inversion H; reflexivity.
Qed.

Lemma cached_result_current q ps db p df p1 :
  (forall d, cache_find (sql_text q, ps) (lru p) = Some d ->
             read_sql_query db q (params_of_tuple ps) = Return d) ->
  cached_execute_query q ps db p = (Return df, p1) ->
  read_sql_query db q (params_of_tuple ps) = Return df.
Proof.
  intros Hcur. unfold cached_execute_query.
  destruct (cache_find (sql_text q, ps) (lru p)) as [d |] eqn:Hf.
  - intros H. inversion H; subst. apply Hcur. reflexivity.
  - destruct (execute_query q (params_of_tuple ps) db p) as [[d | e] p0] eqn:He;
      intros H; inversion H; subst.
    apply (execute_query_Return _ _ _ _ _ _ He).
Qed.

Lemma cache_find_remove_ne k k' c :
  key_eqb k k' = false -> cache_find k (cache_remove k' c) = cache_find k c.
Proof.
  intros Hne. induction c as [| [k0 d] tl IH]; simpl; [reflexivity |].
  destruct (key_eqb k' k0) eqn:E; simpl.
  - apply key_eqb_eq in E. subst k0. rewrite Hne. exact IH.
  - rewrite IH. reflexivity.
Qed.

Lemma cached_other_entry k q ps db p df :
  key_eqb k (sql_text q, ps) = false ->
  cache_find k (lru (snd (cached_execute_query q ps db p))) = Some df ->
  cache_find k (lru p) = Some df.
Proof.
  intros Hne. unfold cached_execute_query.
  destruct (cache_find (sql_text q, ps) (lru p)) as [d |] eqn:Hf.
  - cbn [snd lru cache_find]. rewrite Hne.
    rewrite cache_find_remove_ne by exact Hne. trivial.
  - pose proof (execute_query_lru q (params_of_tuple ps) db p) as Hl.
    destruct (execute_query q (params_of_tuple ps) db p) as [[d | e] p0];
      cbn [snd] in Hl |- *.
    + cbn [lru]. intros H. apply cache_find_firstn in H.
      cbn [cache_find] in H. rewrite Hne, Hl in H. exact H.
    + rewrite Hl. trivial.
Qed.

Lemma statement_keys_differ c1 x c2 y :
  key_eqb (sql_text (SelectTilanteet true c1), x)
          (sql_text (SelectTilanteet false c2), y) = false.
Proof. reflexivity. Qed.

Lemma read_tilanteet db b clauses d df :
  read_sql_query db (SelectTilanteet b clauses) (Some d) = Return df ->
  exists lo hi cs,
    bind_datetime (Some d) "start_date" = Return lo /\
    bind_datetime (Some d) "end_date" = Return hi /\
    bind_clauses (Some d) clauses = Return cs /\
    df = if b
         then SelectedFrame (map selected_row
                (filter (where_tilanteet lo hi cs) (tilanteet db)))
         else TotalFrame (map total_row
                (filter (where_tilanteet lo hi cs) (tilanteet db))).
Proof.
  unfold read_sql_query. destruct (failure db); [discriminate |].
  destruct (bind_datetime (Some d) "start_date") as [lo | e1]; [| discriminate].
  destruct (bind_datetime (Some d) "end_date") as [hi | e2]; [| discriminate].
  destruct (bind_clauses (Some d) clauses) as [cs | e3]; [| discriminate].
  intros H. inversion H. exists lo, hi, cs. repeat split.
Qed.

Lemma bind_clauses_app params c1 c2 cs :
  bind_clauses params (c1 ++ c2) = Return cs ->
  exists a b, bind_clauses params c1 = Return a /\
              bind_clauses params c2 = Return b /\ cs = a ++ b.
Proof.
  revert cs. induction c1 as [| [c names] tl IH]; intros cs; simpl.
  - intros H. exists [], cs. repeat split. exact H.
  - destruct (bind_texts params names) as [vs | e]; [| discriminate].
    destruct (bind_clauses params (tl ++ c2)) as [rest | e] eqn:E; [| discriminate].
    intros H. inversion H; subst.
    destruct (IH rest eq_refl) as (a & b & Ha & Hb & ->).
    rewrite Ha. exists ((c, vs) :: a), b. repeat split. exact Hb.
Qed.

Lemma bind_datetime_agree d1 d2 name :
  dict_get d1 name = dict_get d2 name ->
  bind_datetime (Some d1) name = bind_datetime (Some d2) name.
Proof. unfold bind_datetime. intros ->. reflexivity. Qed.

Lemma where_tilanteet_app lo hi ce cs ev :
  where_tilanteet lo hi (ce ++ cs) ev = true ->
  where_tilanteet lo hi cs ev = true.
Proof.
  unfold where_tilanteet. rewrite forallb_app, !andb_true_iff. tauto.
Qed.

Lemma params_of_tuple_dates lo hi t :
  params_of_tuple (Some (date_params lo hi ++ t))
  = Some (dict (date_params lo hi ++ t)).
Proof. reflexivity. Qed.

(** Tables read from one store for the two statements of a request: the
    subset rows are total rows that pass one more test. *)
Lemma statements_read_restriction db lo hi etypes munis hakes df_t df_s :
  read_sql_query db
    (SelectTilanteet false (fst (total_statement lo hi munis hakes)))
    (params_of_tuple (Some (snd (total_statement lo hi munis hakes))))
  = Return df_t ->
  read_sql_query db
    (SelectTilanteet true (fst (selected_statement lo hi etypes munis hakes)))
    (params_of_tuple (Some (snd (selected_statement lo hi etypes munis hakes))))
  = Return df_s ->
  exists wt ws,
    (forall ev, ws ev = true -> wt ev = true) /\
    df_t = TotalFrame (map total_row (filter wt (tilanteet db))) /\
    df_s = SelectedFrame (map selected_row (filter ws (tilanteet db))).
Proof.
  pose proof (statements_agree lo hi etypes munis hakes) as Hagree.
  rewrite selected_statement_parts, total_statement_parts in *.
  cbn [fst snd] in *.
  rewrite !params_of_tuple_dates.
  set (pt := date_params lo hi ++ [] ++ common_params munis hakes) in *.
  set (ps := date_params lo hi
               ++ snd (filter_part C_event_type "event_type_" etypes)
               ++ common_params munis hakes) in *.
  intros Ht Hs.
  apply read_tilanteet in Ht.
  destruct Ht as (lo1 & hi1 & cs1 & Hl1 & Hh1 & Hc1 & ->).
  apply read_tilanteet in Hs.
  destruct Hs as (lo2 & hi2 & cs2 & Hl2 & Hh2 & Hc2 & ->).
  rewrite (bind_datetime_agree (dict ps) (dict pt)) in Hl2
    by (apply Hagree; reflexivity).
  rewrite (bind_datetime_agree (dict ps) (dict pt)) in Hh2
    by (apply Hagree; reflexivity).
  assert (lo2 = lo1) by congruence. assert (hi2 = hi1) by congruence. subst.
  apply bind_clauses_app in Hc2. destruct Hc2 as (ce & cm & _ & Hcm & ->).
  rewrite (bind_clauses_agree (dict ps) (dict pt)) in Hcm.
  - assert (cm = cs1) by congruence. subst cm.
    exists (where_tilanteet lo1 hi1 cs1), (where_tilanteet lo1 hi1 (ce ++ cs1)).
    split; [apply where_tilanteet_app |]. split; reflexivity.
  - intros c n Hc Hn. apply Hagree.
    apply (common_clause_names munis hakes c n Hc Hn).
Qed.

(** A request that returns a chart went through both fetches and the
    aggregation. *)
Lemma process_rescue_events_chart strptime s e etypes munis hakes agg show
      db p r p' rows :
  process_rescue_events strptime s e etypes munis hakes agg show db p
  = (Return r, p') ->
  fig r = Some rows ->
  exists lo hi df_t p1 df_s total_rows selected_rows,
    cached_execute_query
      (SelectTilanteet false (fst (total_statement lo hi munis hakes)))
      (Some (snd (total_statement lo hi munis hakes))) db p = (Return df_t, p1) /\
    cached_execute_query
      (SelectTilanteet true (fst (selected_statement lo hi etypes munis hakes)))
      (Some (snd (selected_statement lo hi etypes munis hakes))) db p1
    = (Return df_s, p') /\
    as_total_rows df_t = Return total_rows /\
    as_selected_rows df_s = Return selected_rows /\
    aggregate agg show total_rows selected_rows = Return r.
Proof.
  unfold process_rescue_events. intros Hrun Hfig.
  match type of Hrun with
  | try_except ?m ?h db p = _ =>
      destruct (try_except_total m (fun e => no_figure (ErrorMessage e)) db p)
        as (r0 & p0 & Hr & Hcase)
  end.
  rewrite Hrun in Hr. inversion Hr; subst r0 p0. clear Hr.
  destruct Hcase as [Hm | (e0 & _ & ->)]; [| discriminate].
  destruct etypes as [| x xs].
  { inversion Hm; subst. discriminate. }
  apply bind_Return_inv in Hm. destruct Hm as (lo & p1 & Hlo & Hm).
  apply lift_Return_inv in Hlo. destruct Hlo as [_ ->].
  apply bind_Return_inv in Hm. destruct Hm as (hi & p2 & Hhi & Hm).
  apply lift_Return_inv in Hhi. destruct Hhi as [_ ->].
  cbv zeta in Hm.
  apply bind_Return_inv in Hm. destruct Hm as (df_t & p3 & Ht & Hm).
  apply bind_Return_inv in Hm. destruct Hm as (df_s & p4 & Hs & Hm).
  destruct (empty df_t || empty df_s).
  { inversion Hm; subst. discriminate. }
  apply bind_Return_inv in Hm. destruct Hm as (tr & p5 & Htr & Hm).
  apply lift_Return_inv in Htr. destruct Htr as [Htr ->].
  apply bind_Return_inv in Hm. destruct Hm as (sr & p6 & Hsr & Hm).
  apply lift_Return_inv in Hsr. destruct Hsr as [Hsr ->].
  apply lift_Return_inv in Hm. destruct Hm as [Hm ->].
  exists lo, hi, df_t, p3, df_s, tr, sr. repeat split; assumption.
Qed.

(** The same for a request whose bounds are known. *)
Lemma process_rescue_events_chart_at strptime s e etypes munis hakes agg show
      db p r p' rows lo hi :
  start_datetime_of strptime s = Return lo ->
  end_datetime_of strptime e = Return hi ->
  process_rescue_events strptime s e etypes munis hakes agg show db p
  = (Return r, p') ->
  fig r = Some rows ->
  exists df_t p1 df_s total_rows selected_rows,
    cached_execute_query
      (SelectTilanteet false (fst (total_statement lo hi munis hakes)))
      (Some (snd (total_statement lo hi munis hakes))) db p = (Return df_t, p1) /\
    cached_execute_query
      (SelectTilanteet true (fst (selected_statement lo hi etypes munis hakes)))
      (Some (snd (selected_statement lo hi etypes munis hakes))) db p1
    = (Return df_s, p') /\
    as_total_rows df_t = Return total_rows /\
    as_selected_rows df_s = Return selected_rows /\
    aggregate agg show total_rows selected_rows = Return r.
Proof.
  unfold process_rescue_events. intros Hs He Hrun Hfig.
  match type of Hrun with
  | try_except ?m ?h db p = _ =>
      destruct (try_except_total m (fun e => no_figure (ErrorMessage e)) db p)
        as (r0 & p0 & Hr & Hcase)
  end.
  rewrite Hrun in Hr. inversion Hr; subst r0 p0. clear Hr.
  destruct Hcase as [Hm | (e0 & _ & ->)]; [| discriminate].
  destruct etypes as [| x xs].
  { inversion Hm; subst. discriminate. }
  unfold bind at 1 in Hm. unfold lift at 1 in Hm. rewrite Hs in Hm.
  unfold bind at 1 in Hm. unfold lift at 1 in Hm. rewrite He in Hm.
  cbv zeta in Hm.
  apply bind_Return_inv in Hm. destruct Hm as (df_t & p3 & Ht & Hm).
  apply bind_Return_inv in Hm. destruct Hm as (df_s & p4 & Hsel & Hm).
  destruct (empty df_t || empty df_s).
  { inversion Hm; subst. discriminate. }
  apply bind_Return_inv in Hm. destruct Hm as (tr & p5 & Htr & Hm).
  apply lift_Return_inv in Htr. destruct Htr as [Htr ->].
  apply bind_Return_inv in Hm. destruct Hm as (sr & p6 & Hsr & Hm).
  apply lift_Return_inv in Hsr. destruct Hsr as [Hsr ->].
  apply lift_Return_inv in Hm. destruct Hm as [Hm ->].
  exists df_t, p3, df_s, tr, sr. repeat split; assumption.
Qed.

(** When the cached tables that the request uses are current, both of
    its tables are what the store holds now, whether they were fetched or
    taken from the cache. *)
Lemma process_rescue_events_fetch strptime s e etypes munis hakes agg show
      db p r p' rows lo hi :
  start_datetime_of strptime s = Return lo ->
  end_datetime_of strptime e = Return hi ->
  tables_used_current db p lo hi etypes munis hakes ->
  process_rescue_events strptime s e etypes munis hakes agg show db p
  = (Return r, p') ->
  fig r = Some rows ->
  exists wt ws,
    (forall ev, ws ev = true -> wt ev = true) /\
    aggregate agg show (map total_row (filter wt (tilanteet db)))
              (map selected_row (filter ws (tilanteet db))) = Return r.
Proof.
  intros Hlo Hhi [Hcur_t Hcur_s] Hrun Hfig.
  destruct (process_rescue_events_chart_at _ _ _ _ _ _ _ _ _ _ _ _ _ _ _
              Hlo Hhi Hrun Hfig)
    as (df_t & p1 & df_s & tr & sr & Ht & Hs & Htr & Hsr & Hagg).
  assert (Rt := cached_result_current _ _ _ _ _ _ Hcur_t Ht).
  assert (Rs : read_sql_query db
                 (SelectTilanteet true (fst (selected_statement lo hi etypes munis hakes)))
                 (params_of_tuple (Some (snd (selected_statement lo hi etypes munis hakes))))
               = Return df_s).
  { apply (cached_result_current _ _ _ p1 _ p'); [| exact Hs].
    intros d Hd. apply Hcur_s.
    replace p1 with (snd (cached_execute_query
                            (SelectTilanteet false (fst (total_statement lo hi munis hakes)))
                            (Some (snd (total_statement lo hi munis hakes))) db p))
      in Hd by (rewrite Ht; reflexivity).
    apply cached_other_entry in Hd; [exact Hd | apply statement_keys_differ]. }
  destruct (statements_read_restriction _ _ _ _ _ _ _ _ Rt Rs)
    as (wt & ws & Hsub & -> & ->).
  cbn in Htr, Hsr. inversion Htr; inversion Hsr; subst.
  exists wt, ws. split; assumption.
Qed.

End RateAggregator.

(* --------------------------------------------------------------------- *)
(** *** Percentages                                                       *)
(* --------------------------------------------------------------------- *)

Section Percentages.
Import Db Pandas Vasteet Examples.

Lemma aggregate_Return agg show total_rows selected_rows r :
  aggregate agg show total_rows selected_rows = Return r ->
  exists f,
    time_bucket agg = Some f /\
    fig r = Some (merged_percentages (bucket_rows t_timestamp f total_rows)
                                     (bucket_rows s_timestamp f selected_rows)) /\
    hake_figs r = (if show
                   then hake_breakdown (bucket_rows t_timestamp f total_rows)
                                       (bucket_rows s_timestamp f selected_rows)
                   else []) /\
    sample_data r = firstn 100 (bucket_rows s_timestamp f selected_rows).
Proof.
  unfold aggregate. destruct (time_bucket agg) as [f |]; [| discriminate].
  intros H. inversion H. exists f. repeat split.
Qed.

(** What a row of [merged_df] holds, in terms of the two bucketed tables. *)
Lemma merged_percentages_row total_df selected_df row :
  In row (merged_percentages total_df selected_df) ->
  let keys_s := map (fun r => (snd r, s_event_type (fst r))) selected_df in
  let keys_t := map snd total_df in
  In (m_time_group row, m_event_type row) keys_s /\
  m_selected_count row
  = List.length (filter (same_key cmp_bucket_type
                                  (m_time_group row, m_event_type row)) keys_s) /\
  m_percentage row = percentage (m_selected_count row) (m_total_count row) /\
  match m_total_count row with
  | Some t =>
      In (m_time_group row) keys_t /\
      t = List.length (filter (same_key Z.compare (m_time_group row)) keys_t)
  | None => ~ In (m_time_group row) keys_t
  end.
Proof.
  intros H keys_s keys_t. unfold merged_percentages in H.
  apply in_map_iff in H. destruct H as ([[[tg et] n] o] & <- & H).
  apply merge_left_In in H. destruct H as [Hl Ho].
  apply (groupby_size_In _ cmp_bucket_type_eq) in Hl. destruct Hl as [Hk Hn].
  cbn [fst snd m_time_group m_event_type m_selected_count m_total_count
       m_percentage].
  split; [exact Hk |]. split; [exact Hn |]. split; [reflexivity |].
  destruct o as [[b t] |]; cbn [option_map snd].
  - destruct Ho as [Hr Hb]. cbn [fst] in Hb. apply Z.eqb_eq in Hb. subst b.
    apply (groupby_size_In _ Z.compare_eq_iff) in Hr. exact Hr.
  - intros Hin.
    assert (Hrow : In (tg, List.length (filter (same_key Z.compare tg) keys_t))
                      (filter (fun r : Z * nat => tg =? fst r)
                              (groupby_size Z.compare keys_t))).
    { apply filter_In. split.
      - apply (groupby_size_In _ Z.compare_eq_iff). split; [exact Hin | reflexivity].
      - apply Z.eqb_refl. }
    cbn [fst] in Ho. unfold keys_t in Hrow. rewrite Ho in Hrow. destruct Hrow.
Qed.

Lemma round_half_even_bounds n d :
  0 <= n <= d -> 0 < d ->
  0 <= Num.round_half_even (n * 100 * 100) d <= 10000.
Proof.
  intros Hn Hd. unfold Num.round_half_even.
  set (N := n * 100 * 100).
  assert (HN : 0 <= N <= 10000 * d) by (unfold N; lia).
  pose proof (Z.div_mod N d ltac:(lia)) as Hdm.
  pose proof (Z.mod_pos_bound N d Hd) as Hr.
  assert (Hq0 : 0 <= N / d) by (apply Z.div_pos; lia).
  assert (Hq1 : N / d <= 10000).
  { apply Z.div_le_upper_bound; lia. }
  destruct (2 * (N mod d) <? d) eqn:E1; [lia |].
  assert (Hlt : N / d < 10000).
  { apply Z.ltb_ge in E1.
    destruct (Z.eq_dec (N / d) 10000) as [E | E]; [| lia].
    rewrite E in Hdm. lia. }
  destruct (d <? 2 * (N mod d)); [lia |].
  destruct (Z.even (N / d)); lia.
Qed.

Lemma percentage_of_positive n t :
  (0 < t)%nat ->
  percentage n (Some t)
  = Num.Fin (Num.round_half_even (Z.of_nat n * 100 * 100) (Z.of_nat t)).
Proof.
  intros Ht. unfold percentage, Num.div_scale_round2.
  destruct (Z.eqb_spec (Z.of_nat t) 0); [lia |].
  destruct (Z.ltb_spec (Z.of_nat t) 0); [lia | reflexivity].
Qed.

(** A row never has a total of zero: the total is missing, or positive. *)
Lemma merged_row_total total_df selected_df row :
  In row (merged_percentages total_df selected_df) ->
  (m_total_count row = None /\ m_percentage row = Num.NaN) \/
  (exists t, m_total_count row = Some t /\ (0 < t)%nat /\
             m_percentage row
             = Num.Fin (Num.round_half_even
                          (Z.of_nat (m_selected_count row) * 100 * 100)
                          (Z.of_nat t))).
Proof.
  intros H. apply merged_percentages_row in H.
  destruct H as (_ & _ & Hp & Ht).
  destruct (m_total_count row) as [t |].
  - right. exists t. destruct Ht as [Hin ->].
    assert (Hpos := group_size_positive _ Z.compare_eq_iff _ _ Hin).
    split; [reflexivity |]. split; [exact Hpos |].
    rewrite Hp. apply percentage_of_positive, Hpos.
  - left. split; [reflexivity | exact Hp].
Qed.

(** When the subset rows are a restriction of the total rows, every row
    has a total, and the subset count does not exceed it. *)
Lemma restricted_row_total f wt ws evs row :
  (forall ev, ws ev = true -> wt ev = true) ->
  In row (merged_percentages
            (bucket_rows t_timestamp f (map total_row (filter wt evs)))
            (bucket_rows s_timestamp f (map selected_row (filter ws evs)))) ->
  exists t, m_total_count row = Some t /\ (0 < t)%nat /\
            (m_selected_count row <= t)%nat.
Proof.
  intros Hsub H. apply merged_percentages_row in H.
  unfold bucket_rows in H. rewrite !map_map in H. cbn [fst snd] in H.
  cbn [s_timestamp s_event_type selected_row t_timestamp total_row] in H.
  destruct H as (Hk & Hn & _ & Ht).
  assert (Hin : In (m_time_group row)
                   (map (fun ev => f (timestamp ev)) (filter wt evs))).
  { apply in_map_iff in Hk. destruct Hk as (ev & E & Hev). inversion E.
    apply in_map_iff. exists ev. split; [reflexivity |].
    apply filter_In in Hev. apply filter_In. split; [tauto |].
    apply Hsub. tauto. }
  destruct (m_total_count row) as [t |]; [| contradiction].
  destruct Ht as [_ Ht]. exists t. split; [reflexivity |].
  split.
  - rewrite Ht. apply (group_size_positive _ Z.compare_eq_iff), Hin.
  - rewrite Hn, Ht. apply count_restriction.
    intros ev Hw Hg. split; [apply Hsub, Hw |].
    apply (same_key_eq _ cmp_bucket_type_eq) in Hg. inversion Hg.
    apply (same_key_eq _ Z.compare_eq_iff). reflexivity.
Qed.

End Percentages.

(* --------------------------------------------------------------------- *)
(** *** Bounds of the percentages                                         *)
(* --------------------------------------------------------------------- *)

Section PercentageBounds.
Import Db Pandas Vasteet Examples.

Lemma fresh_tables_current db lo hi etypes munis hakes :
  tables_used_current db fresh lo hi etypes munis hakes.
Proof. split; intros df H; discriminate H. Qed.

(** C1 (as amended).  When the cached tables that the request uses are
    what the store holds at the time of the request (as on a fresh
    process, or while the store has not changed), every row of the result
    has a total count, the total is positive, the subset count does not
    exceed it, and the percentage, in hundredths, lies between 0 and
    10000, that is between 0 and 100 percent. *)
Theorem percentage_within_0_100_with_current_cache
        strptime s e etypes munis hakes agg show db p r p' rows row lo hi :
  start_datetime_of strptime s = Return lo ->
  end_datetime_of strptime e = Return hi ->
  tables_used_current db p lo hi etypes munis hakes ->
  process_rescue_events strptime s e etypes munis hakes agg show db p
  = (Return r, p') ->
  fig r = Some rows ->
  In row rows ->
  exists total pct,
    m_total_count row = Some total /\
    (0 < total)%nat /\
    (m_selected_count row <= total)%nat /\
    m_percentage row = Num.Fin pct /\
    0 <= pct <= 10000.
Proof.
  intros Hlo Hhi Hcur Hrun Hfig Hrow.
  destruct (process_rescue_events_fetch _ _ _ _ _ _ _ _ _ _ _ _ _ _ _
              Hlo Hhi Hcur Hrun Hfig)
    as (wt & ws & Hsub & Hagg).
  apply aggregate_Return in Hagg. destruct Hagg as (f & _ & Hf & _).
  rewrite Hfig in Hf. inversion Hf; subst rows. clear Hf.
  destruct (restricted_row_total _ _ _ _ _ Hsub Hrow) as (t & Ht & Hpos & Hle).
  apply merged_row_total in Hrow.
  destruct Hrow as [[Hnone _] | (t' & Ht' & _ & Hp)]; [congruence |].
  assert (t' = t) by congruence. subst t'.
  exists t, (Num.round_half_even (Z.of_nat (m_selected_count row) * 100 * 100)
                                 (Z.of_nat t)).
  split; [exact Ht |]. split; [exact Hpos |]. split; [exact Hle |].
  split; [exact Hp |]. apply round_half_even_bounds; lia.
Qed.

(** The request that filled the cache of [state_after_request], made
    again on the same store: both of its tables are served from the
    cache. *)
Lemma percentage_within_0_100_witness :
  exists total pct,
    m_total_count {| m_time_group := Calendar.midnight day_2023_01_02;
                     m_event_type := "B";
                     m_selected_count := 2;
                     m_total_count := Some 3%nat;
                     m_percentage := Num.Fin 6667 |} = Some total /\
    (0 < total)%nat /\
    (2 <= total)%nat /\
    Num.Fin 6667 = Num.Fin pct /\
    0 <= pct <= 10000.
Proof.
  eapply (percentage_within_0_100_with_current_cache
            no_strptime (DateObj 19358) (DateObj 19370) ["A"; "B"] ["Kouvola"] []
            "Päivä" true store_2 MoreExamples.state_after_request).
  - reflexivity.
  - reflexivity.
  - split; intros df H; vm_compute in H; injection H as <-;
      vm_compute; reflexivity.
  - vm_compute. reflexivity.
  - reflexivity.
  - right. left. reflexivity.
Defined.

(** C1, the counterexample.  The first request caches the total table of
    [store_1], one row; the second request, for another event type and
    the same dates, takes the total table from the cache and the subset
    table from [store_2]: on 2023-01-02 it counts 2 subset rows against
    a total of 1, a percentage of 200.00. *)
Lemma percentage_stale_total_counterexample :
  exists r1 p1 r2 p2 rows row,
    process_rescue_events no_strptime (DateObj 19358) (DateObj 19370)
                          ["A"] [] [] "Päivä" true store_1 fresh
    = (Return r1, p1) /\
    process_rescue_events no_strptime (DateObj 19358) (DateObj 19370)
                          ["B"] [] [] "Päivä" true store_2 p1
    = (Return r2, p2) /\
    fig r2 = Some rows /\ In row rows /\
    m_total_count row = Some 1%nat /\
    m_selected_count row = 2%nat /\
    m_percentage row = Num.Fin 20000 /\
    ~ (0 <= 20000 <= 10000).
Proof.
  do 6 eexists.
  split; [vm_compute; reflexivity |].
  split; [vm_compute; reflexivity |].
  split; [reflexivity |].
  split; [left; reflexivity |].
  repeat split. lia.
Qed.

(** C5 (as amended).  No row of the result has a total count of zero,
    and no percentage is the result of a division by zero: the total of
    a row is positive and its percentage a number, or the total is
    missing and the percentage NaN.  When the cached tables that the
    request uses are what the store holds at the time of the request,
    every row has a positive total. *)
Theorem emitted_rows_have_no_zero_total
        strptime s e etypes munis hakes agg show db p r p' rows row :
  process_rescue_events strptime s e etypes munis hakes agg show db p
  = (Return r, p') ->
  fig r = Some rows ->
  In row rows ->
  ((m_total_count row = None /\ m_percentage row = Num.NaN) \/
   (exists t pct, m_total_count row = Some t /\ (0 < t)%nat /\
                  m_percentage row = Num.Fin pct)) /\
  (forall lo hi,
      start_datetime_of strptime s = Return lo ->
      end_datetime_of strptime e = Return hi ->
      tables_used_current db p lo hi etypes munis hakes ->
      exists t, m_total_count row = Some t /\ (0 < t)%nat).
Proof.
  intros Hrun Hfig Hrow. split.
  - destruct (process_rescue_events_chart _ _ _ _ _ _ _ _ _ _ _ _ _ Hrun Hfig)
      as (lo & hi & df_t & p1 & df_s & tr & sr & _ & _ & _ & _ & Hagg).
    apply aggregate_Return in Hagg. destruct Hagg as (f & _ & Hf & _).
    rewrite Hfig in Hf. inversion Hf; subst rows. clear Hf.
    apply merged_row_total in Hrow.
    destruct Hrow as [Hnone | (t & Ht & Hpos & Hp)]; [left; exact Hnone |].
    right. eauto.
  - intros lo hi Hlo Hhi Hcur.
    destruct (process_rescue_events_fetch _ _ _ _ _ _ _ _ _ _ _ _ _ _ _
                Hlo Hhi Hcur Hrun Hfig)
      as (wt & ws & Hsub & Hagg).
    apply aggregate_Return in Hagg. destruct Hagg as (f & _ & Hf & _).
    rewrite Hfig in Hf. inversion Hf; subst rows. clear Hf.
    destruct (restricted_row_total _ _ _ _ _ Hsub Hrow) as (t & Ht & Hpos & _).
    exists t. split; assumption.
Qed.

(** A request for event type B on [state_after_request]: its total
    table is served from the cache, its subset table is fetched. *)
Lemma emitted_rows_have_no_zero_total_witness :
  exists t, Some 1%nat = Some t /\ (0 < t)%nat.
Proof.
  refine (proj2 (emitted_rows_have_no_zero_total
                   no_strptime (DateObj 19358) (DateObj 19370) ["B"]
                   ["Kouvola"] [] "Päivä" true store_2
                   MoreExamples.state_after_request _ _ _
                   {| m_time_group := Calendar.midnight (day_2023_01_02 + 1);
                      m_event_type := "B";
                      m_selected_count := 1;
                      m_total_count := Some 1%nat;
                      m_percentage := Num.Fin 10000 |} _ _ _)
                (Calendar.midnight 19358)
                (Calendar.midnight 19370 + Calendar.NS_PER_DAY - 1000) _ _ _).
  - vm_compute. reflexivity.
  - reflexivity.
  - right. left. reflexivity.
  - reflexivity.
  - reflexivity.
  - split; intros df H; vm_compute in H; try discriminate H;
      injection H as <-; vm_compute; reflexivity.
Defined.

(** C5, the counterexample.  In the second request above the cached total
    table has no row on 2023-01-03, a bucket whose total is therefore
    zero; the bucket is not left out: its row is returned with a missing
    total and a percentage that is NaN. *)
Lemma missing_total_stale_cache_counterexample :
  exists r1 p1 r2 p2 rows row,
    process_rescue_events no_strptime (DateObj 19358) (DateObj 19370)
                          ["A"] [] [] "Päivä" true store_1 fresh
    = (Return r1, p1) /\
    process_rescue_events no_strptime (DateObj 19358) (DateObj 19370)
                          ["B"] [] [] "Päivä" true store_2 p1
    = (Return r2, p2) /\
    fig r2 = Some rows /\ In row rows /\
    m_time_group row = Calendar.midnight (day_2023_01_02 + 1) /\
    m_selected_count row = 1%nat /\
    m_total_count row = None /\
    m_percentage row = Num.NaN /\
    ~ (exists t, m_total_count row = Some t /\ (0 < t)%nat).
Proof.
  do 6 eexists.
  split; [vm_compute; reflexivity |].
  split; [vm_compute; reflexivity |].
  split; [reflexivity |].
  split; [right; left; reflexivity |].
  repeat split. intros (t & Ht & _). discriminate.
Qed.

End PercentageBounds.

(* --------------------------------------------------------------------- *)
(** *** The station breakdown                                             *)
(* --------------------------------------------------------------------- *)

Section StationBreakdown.
Import Db Pandas Vasteet Examples.

Lemma unique_In {X : Type} (eqb : X -> X -> bool) x l :
  In x (unique eqb l) -> In x l.
Proof.
  induction l as [| y tl IH]; simpl; [tauto |].
  intros [-> | H]; [left; reflexivity |].
  apply filter_In in H. right. apply IH. tauto.
Qed.

Lemma firstn_In {X : Type} n (l : list X) x : In x (firstn n l) -> In x l.
Proof.
  intros H. rewrite <- (firstn_skipn n l). apply in_or_app. left. exact H.
Qed.

Lemma flat_map_singletons {X Y : Type} (g : X -> list Y) (h : X -> Y) l :
  (forall x, In x l -> g x = [h x]) -> flat_map g l = map h l.
Proof.
  induction l as [| x tl IH]; intros H; simpl; [reflexivity |].
  rewrite (H x (or_introl eq_refl)), IH; [reflexivity |].
  intros y Hy. apply H. right. exact Hy.
Qed.

(** One chart per event type among the first five of [merged_df_by_hake],
    each drawing all rows of its event type. *)
Lemma hake_breakdown_charts total_df selected_df :
  hake_breakdown total_df selected_df
  = map (fun event_type =>
           {| hf_event_type := event_type;
              hf_data := filter (fun r => String.eqb (h_event_type r) event_type)
                                (merged_by_hake total_df selected_df) |})
        (firstn 5 (unique String.eqb
                     (map h_event_type (merged_by_hake total_df selected_df)))).
Proof.
  unfold hake_breakdown. apply flat_map_singletons. intros et Het.
  apply firstn_In, unique_In, in_map_iff in Het.
  destruct Het as (m & Hm & Hin).
  assert (Hf : In m (filter (fun r => String.eqb (h_event_type r) et)
                            (merged_by_hake total_df selected_df))).
  { apply filter_In. split; [exact Hin |]. apply String.eqb_eq, Hm. }
  destruct (filter _ (merged_by_hake total_df selected_df)) eqn:E;
    [destruct Hf | reflexivity].
Qed.





End StationBreakdown.

(* ===================================================================== *)
(** ** Further properties of the modelled code                            *)
(* ===================================================================== *)

(* --------------------------------------------------------------------- *)
(** *** Buckets as projections                                            *)
(* --------------------------------------------------------------------- *)

Section BucketProjections.
Import Calendar Vasteet.

Lemma week_floor_idem d : week_floor (week_floor d) = week_floor d.
Proof. unfold week_floor, weekday. Z.div_mod_to_equations. lia. Qed.

Lemma month_floor_idem d : month_floor (month_floor d) = month_floor d.
Proof.
  destruct (month_floor_spec d) as (_ & y & m & dom & _ & Hc).
  unfold month_floor at 1. rewrite Hc. lia.
Qed.

Lemma year_doy_year_start y : year_doy (year_start_day y) = (y, 0).
Proof.
  rewrite (year_doy_unique (year_start_day y) y).
  - f_equal. lia.
  - pose proof (year_length y). destruct (is_leap y); lia.
Qed.

Lemma year_floor_idem d : year_floor (year_floor d) = year_floor d.
Proof.
  rewrite (year_floor_eq d). unfold year_floor.
  rewrite year_doy_year_start. lia.
Qed.

Lemma year_floor_month_floor d : year_floor (month_floor d) = year_floor d.
Proof.
  rewrite (year_floor_eq d), month_floor_eq.
  destruct (year_doy d) as [y n] eqn:E. cbn [fst snd].
  apply year_doy_spec in E. destruct E as (Hd & H0 & Hlt).
  pose proof (month_first_doy_le (is_leap y) n H0) as Hm.
  unfold year_floor.
  rewrite (year_doy_unique _ y) by lia. lia.
Qed.

Lemma year_floor_le_month_floor d : year_floor d <= month_floor d.
Proof.
  rewrite year_floor_eq, month_floor_eq.
  destruct (year_doy d) as [y n] eqn:E. cbn [fst snd].
  apply year_doy_spec in E. destruct E as (Hd & H0 & Hlt).
  pose proof (month_first_doy_le (is_leap y) n H0). lia.
Qed.

(** X1.  Every bucket is a fixed point of its own bucketing, lies on a
    midnight, and is not later than the timestamp: bucketing a bucket key
    again with the same label changes nothing. *)
Theorem time_bucket_idempotent agg f t :
  time_bucket agg = Some f ->
  f (f t) = f t /\ f t <= t /\ floor_day (f t) = f t.
Proof.
  unfold time_bucket. intros Hf.
  pose proof (midnight_day_of t) as Ht.
  repeat match type of Hf with
         | (if ?c then _ else _) = _ => destruct c
         end; inversion Hf; subst f; clear Hf.
  - unfold floor_day. rewrite day_of_midnight. repeat split. apply Ht.
  - rewrite !week_start_eq. unfold floor_day. rewrite day_of_midnight, week_floor_idem.
    repeat split.
    destruct (week_floor_spec (day_of t)) as [_ Hw].
    unfold midnight, NS_PER_DAY, NS_PER_SECOND in *. lia.
  - rewrite !month_start_eq. unfold floor_day. rewrite day_of_midnight, month_floor_idem.
    repeat split.
    destruct (month_floor_spec (day_of t)) as [Hm _].
    unfold midnight, NS_PER_DAY, NS_PER_SECOND in *. lia.
  - rewrite !year_start_eq. unfold floor_day. rewrite day_of_midnight, year_floor_idem.
    repeat split.
    destruct (year_floor_spec (day_of t)) as [Hy _].
    unfold midnight, NS_PER_DAY, NS_PER_SECOND in *. lia.
Qed.

Lemma time_bucket_idempotent_witness :
  month_start (month_start (Examples.noon 19359)) = month_start (Examples.noon 19359)
  /\ month_start (Examples.noon 19359) <= Examples.noon 19359
  /\ floor_day (month_start (Examples.noon 19359)) = month_start (Examples.noon 19359).
Proof.
  apply (time_bucket_idempotent "Kuukausi" month_start (Examples.noon 19359)).
  reflexivity.
Defined.

(** X2.  The granularities are nested: the day, ISO-week and month buckets
    of a timestamp depend only on its day, the year bucket only on its
    month, and the buckets are ordered year <= month <= day and
    week <= day.  So two records of one day bucket share their week,
    month and year buckets, and two records of one month bucket share
    their year bucket. *)
Theorem time_buckets_nested t1 t2 :
  (floor_day t1 = floor_day t2 ->
   week_start t1 = week_start t2 /\ month_start t1 = month_start t2) /\
  (month_start t1 = month_start t2 -> year_start t1 = year_start t2) /\
  year_start t1 <= month_start t1 <= floor_day t1 /\
  week_start t1 <= floor_day t1.
Proof.
  split; [| split; [| split]].
  - unfold floor_day. intros H.
    assert (Hd : day_of t1 = day_of t2).
    { rewrite <- (day_of_midnight (day_of t1)), H. apply day_of_midnight. }
    rewrite !week_start_eq, !month_start_eq, Hd. split; reflexivity.
  - rewrite !month_start_eq, !year_start_eq. intros H.
    assert (Hm : month_floor (day_of t1) = month_floor (day_of t2)).
    { rewrite <- (day_of_midnight (month_floor (day_of t1))), H.
      apply day_of_midnight. }
    rewrite <- (year_floor_month_floor (day_of t1)), Hm.
    rewrite year_floor_month_floor. reflexivity.
  - rewrite month_start_eq, year_start_eq. unfold floor_day.
    pose proof (year_floor_le_month_floor (day_of t1)).
    destruct (month_floor_spec (day_of t1)) as [Hm _].
    split; apply midnight_mono; assumption.
  - rewrite week_start_eq. unfold floor_day. apply midnight_mono.
    destruct (week_floor_spec (day_of t1)) as [_ Hw]. lia.
Qed.

Lemma time_buckets_nested_witness :
  week_start (Examples.noon 19359) = week_start (Examples.noon 19359 + 5)
  /\ month_start (Examples.noon 19359) = month_start (Examples.noon 19359 + 5).
Proof.
  apply (proj1 (time_buckets_nested (Examples.noon 19359) (Examples.noon 19359 + 5))).
  vm_compute. reflexivity.
Defined.

End BucketProjections.
(* --------------------------------------------------------------------- *)
(** *** Invariants of the query cache                                     *)
(* --------------------------------------------------------------------- *)

Section CacheInvariants.
Import Db Vasteet Examples.

Lemma cache_find_None_keys k c :
  cache_find k c = None -> ~ In k (map fst c).
Proof.
  induction c as [| [k' d] tl IH]; simpl; [tauto |].
  destruct (key_eqb k k') eqn:E; [discriminate |].
  intros H [Hk | Hin]; [| exact (IH H Hin)].
  subst k'. rewrite key_eqb_refl in E. discriminate.
Qed.

Lemma cache_remove_keys k c : ~ In k (map fst (cache_remove k c)).
Proof.
  unfold cache_remove. intros H. apply in_map_iff in H.
  destruct H as ([k' d] & Hk & Hin). cbn [fst] in Hk. subst k'.
  apply filter_In in Hin. destruct Hin as [_ Hin]. cbn [fst] in Hin.
  rewrite key_eqb_refl in Hin. discriminate.
Qed.

Lemma NoDup_map_filter {X Y : Type} (g : X -> Y) (f : X -> bool) l :
  NoDup (map g l) -> NoDup (map g (filter f l)).
Proof.
  induction l as [| x tl IH]; simpl; intros H; [constructor |].
  inversion H as [| ? ? Hx Htl]; subst.
  destruct (f x); simpl; [| apply IH, Htl].
  constructor; [| apply IH, Htl].
  intros Hin. apply Hx. apply in_map_iff in Hin.
  destruct Hin as (y & Hy & Hf). apply filter_In in Hf.
  apply in_map_iff. exists y. tauto.
Qed.

Lemma NoDup_firstn {X : Type} n (l : list X) : NoDup l -> NoDup (firstn n l).
Proof.
  revert n. induction l as [| x tl IH]; intros [| n] H; simpl;
    try constructor; inversion H; subst.
  - intros Hin. apply firstn_In in Hin. contradiction.
  - apply IH. assumption.
Qed.

Lemma cached_call_unique_keys q ps db p :
  NoDup (map fst (lru p)) ->
  NoDup (map fst (lru (snd (cached_execute_query q ps db p)))).
Proof.
  intros H. unfold cached_execute_query.
  destruct (cache_find (sql_text q, ps) (lru p)) as [d |] eqn:Hf.
  - cbn [snd lru map fst]. constructor; [apply cache_remove_keys |].
    apply NoDup_map_filter, H.
  - pose proof (execute_query_lru q (params_of_tuple ps) db p) as Hl.
    destruct (execute_query q (params_of_tuple ps) db p) as [[d | e] p0];
      cbn [snd] in Hl |- *.
    + cbn [lru]. rewrite Hl, <- firstn_map. apply NoDup_firstn.
      cbn [map fst]. constructor; [apply cache_find_None_keys, Hf | exact H].
    + rewrite Hl. exact H.
Qed.

(** X3.  Whatever calls a process makes, its cache holds at most one table
    per key (query text and parameter tuple), and a call that returned
    leaves its own entry as the most recently used one. *)
Theorem cache_one_entry_per_key :
  (forall calls, NoDup (map fst (lru (run_calls calls fresh)))) /\
  (forall q ps db p df p',
      cached_execute_query q ps db p = (Return df, p') ->
      exists rest, lru p' = ((sql_text q, ps), df) :: rest).
Proof.
  split.
  - intros calls.
    assert (H : forall p, NoDup (map fst (lru p)) ->
                          NoDup (map fst (lru (run_calls calls p)))).
    { induction calls as [| [[q ps] db] tl IH]; intros p Hp; simpl; [exact Hp |].
      apply IH, cached_call_unique_keys, Hp. }
    apply H. constructor.
  - intros q ps db p df p'. unfold cached_execute_query.
    destruct (cache_find (sql_text q, ps) (lru p)) as [d |] eqn:Hf.
    + intros H. inversion H; subst. eexists. reflexivity.
    + destruct (execute_query q (params_of_tuple ps) db p) as [[d | e] p0];
        intros H; inversion H; subst.
      eexists. reflexivity.
Qed.

(** X4.  A call that raises is not memoized: the cache is left as it was,
    without an entry for the key, so the same call made again sends its
    statement to the store again, whatever the store is by then. *)
Theorem failed_call_not_cached q ps db p e p' db' :
  cached_execute_query q ps db p = (Raise e, p') ->
  lru p' = lru p /\
  cache_find (sql_text q, ps) (lru p') = None /\
  issued (snd (cached_execute_query q ps db' p'))
  = (sql_text q, params_of_tuple ps) :: issued p'.
Proof.
  unfold cached_execute_query at 1.
  destruct (cache_find (sql_text q, ps) (lru p)) as [d |] eqn:Hf; [discriminate |].
  pose proof (execute_query_lru q (params_of_tuple ps) db p) as Hl.
  destruct (execute_query q (params_of_tuple ps) db p) as [[d | e0] p0];
    [discriminate |].
  intros H. inversion H; subst. cbn [snd] in Hl.
  split; [exact Hl |]. rewrite Hl. split; [exact Hf |].
  unfold cached_execute_query. rewrite Hl, Hf. unfold execute_query.
  destruct (read_sql_query db' q (params_of_tuple ps)) as [d | [msg | n | k | m]];
    reflexivity.
Qed.

Lemma failed_call_not_cached_witness :
  lru (snd (cached_execute_query all_events_query (Some range_params)
                                 store_down fresh)) = lru fresh /\
  cache_find (sql_text all_events_query, Some range_params)
             (lru (snd (cached_execute_query all_events_query (Some range_params)
                                             store_down fresh))) = None /\
  issued (snd (cached_execute_query all_events_query (Some range_params) store_1
                 (snd (cached_execute_query all_events_query (Some range_params)
                                            store_down fresh))))
  = (sql_text all_events_query, params_of_tuple (Some range_params))
      :: issued (snd (cached_execute_query all_events_query (Some range_params)
                                           store_down fresh)).
Proof.
  apply (failed_call_not_cached all_events_query (Some range_params)
           store_down fresh (NameError "st")).
  vm_compute. reflexivity.
Defined.

End CacheInvariants.

(* --------------------------------------------------------------------- *)
(** *** Group keys are strictly ascending                                 *)
(* --------------------------------------------------------------------- *)

Section SortedGroups.
Import Pandas.
Context {K : Type} (cmp : K -> K -> comparison).
Hypothesis cmp_eq : forall a b, cmp a b = Eq <-> a = b.
Hypothesis cmp_antisym : forall a b, cmp a b = CompOpp (cmp b a).
Hypothesis cmp_trans : forall a b c, cmp a b = Lt -> cmp b c = Lt -> cmp a c = Lt.

Let below (a b : K) : Prop := cmp a b = Lt.

Lemma insert_key_sorted k l :
  StronglySorted below l -> StronglySorted below (insert_key cmp k l).
Proof using cmp_eq cmp_antisym cmp_trans.
  intros H. induction H as [| x tl Hs IH Hx]; simpl.
  - constructor; constructor.
  - destruct (cmp k x) eqn:E.
    + constructor; assumption.
    + constructor; [constructor; assumption |].
      constructor; [exact E |].
      rewrite Forall_forall in Hx |- *. intros y Hy.
      apply (cmp_trans k x y E), Hx, Hy.
    + constructor; [exact IH |].
      rewrite Forall_forall in Hx |- *. intros y Hy.
      apply (insert_key_In cmp cmp_eq) in Hy. destruct Hy as [-> | Hy].
      * unfold below. rewrite cmp_antisym, E. reflexivity.
      * apply Hx, Hy.
Qed.

Lemma group_keys_sorted keys : StronglySorted below (group_keys cmp keys).
Proof using cmp_eq cmp_antisym cmp_trans.
  induction keys as [| k tl IH]; simpl; [constructor |].
  apply insert_key_sorted, IH.
Qed.

Lemma sorted_below_NoDup l : StronglySorted below l -> NoDup l.
Proof using cmp_eq.
  intros H. induction H as [| x tl Hs IH Hx]; constructor; [| exact IH].
  intros Hin. rewrite Forall_forall in Hx. specialize (Hx x Hin).
  unfold below in Hx. rewrite (proj2 (cmp_eq x x) eq_refl) in Hx. discriminate.
Qed.

Lemma group_keys_NoDup keys : NoDup (group_keys cmp keys).
Proof using cmp_eq cmp_antisym cmp_trans.
  apply sorted_below_NoDup, group_keys_sorted.
Qed.

Lemma groupby_size_keys keys :
  map fst (groupby_size cmp keys) = group_keys cmp keys.
Proof. unfold groupby_size. rewrite map_map. apply map_id. Qed.

End SortedGroups.

Section OrderInstances.
Import Pandas.

Lemma Z_compare_antisym a b : Z.compare a b = CompOpp (Z.compare b a).
Proof. apply Z.compare_antisym. Qed.

Lemma Z_compare_trans a b c :
  Z.compare a b = Lt -> Z.compare b c = Lt -> Z.compare a c = Lt.
Proof. rewrite !Z.compare_lt_iff. lia. Qed.

Lemma string_compare_trans a b c :
  String.compare a b = Lt -> String.compare b c = Lt -> String.compare a c = Lt.
Proof.
  intros H1 H2.
  exact (@RelationClasses.StrictOrder_Transitive _ _
           OrdersEx.String_as_OT.lt_strorder a b c H1 H2).
Qed.

Lemma lex_antisym {A B : Type} (ca : A -> A -> comparison)
      (cb : B -> B -> comparison) :
  (forall a b, ca a b = CompOpp (ca b a)) ->
  (forall a b, cb a b = CompOpp (cb b a)) ->
  forall x y, lex ca cb x y = CompOpp (lex ca cb y x).
Proof.
  intros Ha Hb [a b] [a' b']. unfold lex. cbn [fst snd].
  rewrite (Ha a a'). destruct (ca a' a); cbn [CompOpp]; [apply Hb | |];
    reflexivity.
Qed.

Lemma lex_trans {A B : Type} (ca : A -> A -> comparison)
      (cb : B -> B -> comparison) :
  (forall a b, ca a b = Eq <-> a = b) ->
  (forall a b c, ca a b = Lt -> ca b c = Lt -> ca a c = Lt) ->
  (forall a b c, cb a b = Lt -> cb b c = Lt -> cb a c = Lt) ->
  forall x y z, lex ca cb x y = Lt -> lex ca cb y z = Lt -> lex ca cb x z = Lt.
Proof.
  intros He Ha Hb [a b] [a' b'] [a'' b'']. unfold lex. cbn [fst snd].
  destruct (ca a a') eqn:E1; try discriminate;
    destruct (ca a' a'') eqn:E2; try discriminate; intros H1 H2.
  - apply He in E1. apply He in E2. subst.
    rewrite (proj2 (He a'' a'') eq_refl). apply (Hb b b' b''); assumption.
  - apply He in E1. subst. rewrite E2. reflexivity.
  - apply He in E2. subst. rewrite E1. reflexivity.
  - rewrite (Ha a a' a'' E1 E2). reflexivity.
Qed.

Lemma cmp_bucket_type_antisym x y :
  Vasteet.cmp_bucket_type x y = CompOpp (Vasteet.cmp_bucket_type y x).
Proof. apply lex_antisym; [apply Z_compare_antisym | apply String.compare_antisym]. Qed.

Lemma cmp_bucket_type_trans x y z :
  Vasteet.cmp_bucket_type x y = Lt -> Vasteet.cmp_bucket_type y z = Lt ->
  Vasteet.cmp_bucket_type x z = Lt.
Proof.
  apply lex_trans;
    [apply Z.compare_eq_iff | apply Z_compare_trans | apply string_compare_trans].
Qed.

Lemma filter_unique_key {X : Type} (l : list (Z * X)) (k : Z) :
  NoDup (map fst l) ->
  (List.length (filter (fun r => Z.eqb k (fst r)) l) <= 1)%nat.
Proof.
  induction l as [| [k' x] tl IH]; simpl; intros H; [lia |].
  inversion H as [| ? ? Hk Htl]; subst.
  destruct (Z.eqb_spec k k') as [-> | Hne]; [| apply IH, Htl].
  simpl.
  assert (Hnone : filter (fun r : Z * X => k' =? fst r) tl = []).
  { destruct (filter (fun r : Z * X => k' =? fst r) tl) as [| [k1 x1] rest] eqn:E;
      [reflexivity |].
    exfalso. apply Hk.
    assert (Hin : In (k1, x1) (filter (fun r : Z * X => k' =? fst r) tl))
      by (rewrite E; left; reflexivity).
    apply filter_In in Hin. destruct Hin as [Hin Heq]. cbn [fst] in Heq.
    apply Z.eqb_eq in Heq. subst k1.
    apply in_map_iff. exists (k', x1). split; [reflexivity | exact Hin]. }
  rewrite Hnone. simpl. lia.
Qed.

Lemma merge_left_one_each {L R : Type} (same : L -> R -> bool) left right :
  (forall l, In l left -> (List.length (filter (same l) right) <= 1)%nat) ->
  map fst (merge_left same left right) = left.
Proof.
  induction left as [| l tl IH]; intros H; [reflexivity |].
  unfold merge_left in *. cbn [flat_map]. rewrite map_app, IH.
  - pose proof (H l (or_introl eq_refl)) as Hl.
    destruct (filter (same l) right) as [| m [| m' ms]]; simpl in *;
      [reflexivity | reflexivity | lia].
  - intros x Hx. apply H. right. exact Hx.
Qed.

End OrderInstances.

Section OneRowPerPair.
Import Db Pandas Vasteet Examples.

Lemma merged_percentages_keys total_df selected_df :
  map (fun row => (m_time_group row, m_event_type row))
      (merged_percentages total_df selected_df)
  = group_keys cmp_bucket_type
               (map (fun r => (snd r, s_event_type (fst r))) selected_df).
Proof.
  unfold merged_percentages. rewrite map_map.
  rewrite <- (groupby_size_keys cmp_bucket_type).
  rewrite <- (merge_left_one_each
                (fun (l : Z * string * nat) (r : Z * nat) => fst (fst l) =? fst r)
                (groupby_size cmp_bucket_type
                   (map (fun r => (snd r, s_event_type (fst r))) selected_df))
                (groupby_size Z.compare (map snd total_df))) at 2.
  - rewrite map_map. apply map_ext. intros [[[tg et] n] o]. reflexivity.
  - intros l _. apply filter_unique_key.
    rewrite groupby_size_keys.
    apply (group_keys_NoDup Z.compare Z.compare_eq_iff Z_compare_antisym
                            Z_compare_trans).
Qed.

(** X5.  The chart table of a request has exactly one row for every
    (bucket, event type) pair that occurs in the fetched subset rows and
    no row for any other pair, and its rows are in ascending order of
    bucket, then of event type. *)
Theorem one_row_per_bucket_and_type
        strptime s e etypes munis hakes agg show db p r p' rows :
  process_rescue_events strptime s e etypes munis hakes agg show db p
  = (Return r, p') ->
  fig r = Some rows ->
  NoDup (map (fun row => (m_time_group row, m_event_type row)) rows) /\
  StronglySorted (fun a b => cmp_bucket_type a b = Lt)
                 (map (fun row => (m_time_group row, m_event_type row)) rows) /\
  exists f selected_rows df_s p1 lo hi,
    time_bucket agg = Some f /\
    cached_execute_query
      (SelectTilanteet true (fst (selected_statement lo hi etypes munis hakes)))
      (Some (snd (selected_statement lo hi etypes munis hakes))) db p1
    = (Return df_s, p') /\
    as_selected_rows df_s = Return selected_rows /\
    forall b ty,
      In (b, ty) (map (fun row => (m_time_group row, m_event_type row)) rows)
      <-> exists x, In x selected_rows /\ f (s_timestamp x) = b /\
                    s_event_type x = ty.
Proof.
  intros Hrun Hfig.
  destruct (process_rescue_events_chart _ _ _ _ _ _ _ _ _ _ _ _ _ Hrun Hfig)
    as (lo & hi & df_t & p1 & df_s & tr & sr & _ & Hs & _ & Hsr & Hagg).
  apply aggregate_Return in Hagg. destruct Hagg as (f & Hf & Hrows & _).
  rewrite Hfig in Hrows. inversion Hrows; subst rows. clear Hrows.
  rewrite merged_percentages_keys.
  split; [| split].
  - apply (group_keys_NoDup _ cmp_bucket_type_eq cmp_bucket_type_antisym
                            cmp_bucket_type_trans).
  - apply (group_keys_sorted _ cmp_bucket_type_eq cmp_bucket_type_antisym
                             cmp_bucket_type_trans).
  - exists f, sr, df_s, p1, lo, hi.
    split; [exact Hf |]. split; [exact Hs |]. split; [exact Hsr |].
    intros b ty. rewrite (group_keys_In _ cmp_bucket_type_eq).
    unfold bucket_rows. rewrite map_map. cbn [fst snd]. rewrite in_map_iff.
    split.
    + intros (x & E & Hx). inversion E. exists x. repeat split. exact Hx.
    + intros (x & Hx & <- & <-). exists x. split; [reflexivity | exact Hx].
Qed.

Lemma one_row_per_bucket_and_type_witness :
  NoDup (map (fun row => (m_time_group row, m_event_type row))
             (match fig first_result with Some rows => rows | None => [] end)).
Proof.
  apply (one_row_per_bucket_and_type
           no_strptime (DateObj 19358) (DateObj 19370) ["A"] [] [] "Päivä" true
           store_1 fresh first_result first_state
           (match fig first_result with Some rows => rows | None => [] end)
           eq_refl eq_refl).
Defined.

End OneRowPerPair.

(* --------------------------------------------------------------------- *)
(** *** More on the municipality loader and the normaliser                *)
(* --------------------------------------------------------------------- *)

Section LoaderEventTypes.
Import Db Pandas Vakiluvut Examples.

(** X6.  On a store that answers, the event types returned by
    [load_municipality_data] for the dropdown are exactly the event types
    of the rows of the joined table, each once, in strictly ascending
    order of their characters. *)
Theorem loaded_event_types_sorted_distinct db p :
  failure db = None ->
  exists merged_df event_types p',
    load_municipality_data db p = (Return (merged_df, event_types), p') /\
    StronglySorted (fun a b => String.compare a b = Lt) event_types /\
    NoDup event_types /\
    forall ty, In ty event_types <->
               exists row, In row merged_df /\ r_event_type row = ty.
Proof.
  intros H. unfold load_municipality_data, bind, execute_query, read_sql_query.
  rewrite H. cbn [lift as_population_rows as_incident_rows ret].
  do 3 eexists. split; [reflexivity |].
  split; [| split].
  - apply (group_keys_sorted _ string_compare_eq String.compare_antisym
                             string_compare_trans).
  - apply (group_keys_NoDup _ string_compare_eq String.compare_antisym
                            string_compare_trans).
  - intros ty. rewrite (group_keys_In _ string_compare_eq), in_map_iff.
    split; intros (row & Hr & Hin); exists row; tauto.
Qed.

Lemma loaded_event_types_witness :
  exists merged_df event_types p',
    load_municipality_data store_regions fresh
    = (Return (merged_df, event_types), p') /\
    StronglySorted (fun a b => String.compare a b = Lt) event_types /\
    NoDup event_types /\
    forall ty, In ty event_types <->
               exists row, In row merged_df /\ r_event_type row = ty.
Proof.
  apply (loaded_event_types_sorted_distinct store_regions fresh). reflexivity.
Defined.

End LoaderEventTypes.

Section NLargestMaximal.
Import Pandas.
Context {A : Type} (key : A -> Num.Float).

Lemma insert_desc_perm x l : Permutation (insert_desc key x l) (x :: l).
Proof.
  induction l as [| y tl IH]; simpl; [apply Permutation_refl |].
  destruct (Num.leb (key y) (key x)); [apply Permutation_refl |].
  apply (Permutation_trans (perm_skip y IH)). apply perm_swap.
Qed.

Lemma sort_desc_perm l : Permutation (sort_desc key l) l.
Proof.
  induction l as [| x tl IH]; simpl; [apply perm_nil |].
  apply (Permutation_trans (insert_desc_perm x _)). apply perm_skip, IH.
Qed.

Lemma partition_perm (f : A -> bool) l :
  Permutation l (filter (fun x => negb (f x)) l ++ filter f l).
Proof.
  induction l as [| x tl IH]; simpl; [apply perm_nil |].
  destruct (f x); simpl.
  - apply (Permutation_trans (perm_skip x IH)). apply Permutation_middle.
  - apply perm_skip, IH.
Qed.

Lemma StronglySorted_app_cross (R : A -> A -> Prop) l1 l2 :
  StronglySorted R (l1 ++ l2) ->
  forall a b, In a l1 -> In b l2 -> R a b.
Proof.
  induction l1 as [| x tl IH]; simpl; intros H a b Ha Hb; [destruct Ha |].
  inversion H as [| ? ? Hs Hx]; subst.
  destruct Ha as [-> | Ha]; [| apply (IH Hs a b Ha Hb)].
  rewrite Forall_forall in Hx. apply Hx, in_or_app. right. exact Hb.
Qed.

(** The rows returned by [nlargest] are the largest ones. *)
Lemma nlargest_dominates n l :
  exists rest,
    Permutation l (nlargest key n l ++ rest) /\
    forall a b, In a (nlargest key n l) -> In b rest ->
                Num.ge_nan_last (key a) (key b).
Proof.
  rewrite nlargest_unfold.
  set (L := sort_desc key (filter (fun x => negb (Num.is_nan (key x))) l)
            ++ filter (fun x => Num.is_nan (key x)) l).
  exists (skipn n L). split.
  - rewrite firstn_skipn. unfold L.
    apply (Permutation_trans (partition_perm (fun x => Num.is_nan (key x)) l)).
    apply Permutation_app_tail, Permutation_sym, sort_desc_perm.
  - apply StronglySorted_app_cross. rewrite firstn_skipn.
    pose proof (nlargest_sorted key (List.length L) l) as H.
    rewrite nlargest_unfold in H. fold L in H.
    rewrite firstn_all in H. exact H.
Qed.

End NLargestMaximal.

Section NormaliserMore.
Import Db Pandas Vakiluvut Examples.

(** X7.  The table of a selected event type holds the largest rates: the
    rows of that event type are the returned rows together with rows whose
    rate is not larger than any returned rate (a missing rate counting as
    the smallest). *)
Theorem top_10_rows_are_the_largest df sel e :
  In e sel ->
  exists rest,
    Permutation
      (map with_normalized_rate
           (filter (fun r => String.eqb (r_event_type r) e) df))
      (map top_row (top_10_of (calculate_municipality_rates df sel) e) ++ rest) /\
    forall a b,
      In a (map top_row (top_10_of (calculate_municipality_rates df sel) e)) ->
      In b rest ->
      Num.ge_nan_last (normalized_rate a) (normalized_rate b).
Proof.
  intros He. rewrite top_10_of_rows, candidates_of_selected by exact He.
  apply nlargest_dominates.
Qed.

Lemma top_10_rows_are_the_largest_witness :
  exists rest,
    Permutation
      (map with_normalized_rate
           (filter (fun r => String.eqb (r_event_type r) "rakennuspalo")
                   municipality_rows))
      (map top_row (top_10_of (calculate_municipality_rates municipality_rows
                                 ["rakennuspalo"]) "rakennuspalo") ++ rest) /\
    forall a b,
      In a (map top_row (top_10_of (calculate_municipality_rates municipality_rows
                                      ["rakennuspalo"]) "rakennuspalo")) ->
      In b rest ->
      Num.ge_nan_last (normalized_rate a) (normalized_rate b).
Proof.
  apply (top_10_rows_are_the_largest municipality_rows ["rakennuspalo"]
                                     "rakennuspalo").
  left. reflexivity.
Defined.

Lemma top_10_of_parts df sel e :
  In e sel ->
  let block := top_10_of (calculate_municipality_rates df sel) e in
  List.length block
  = Nat.min 10 (List.length
                  (map with_normalized_rate
                       (filter (fun r => String.eqb (r_event_type r) e) df))) /\
  map rank block = seq 1 (List.length block) /\
  StronglySorted
    (fun a b => Num.ge_nan_last (normalized_rate a) (normalized_rate b))
    (map top_row block).
Proof.
  intros He block.
  assert (Hrows : map top_row block
                  = nlargest normalized_rate 10
                      (map with_normalized_rate
                           (filter (fun r => String.eqb (r_event_type r) e) df))).
  { unfold block. rewrite top_10_of_rows, candidates_of_selected by exact He.
    reflexivity. }
  split; [| split].
  - rewrite <- (length_map top_row), Hrows. apply nlargest_length.
  - apply top_10_of_ranks.
  - rewrite Hrows. apply nlargest_sorted.
Qed.

Lemma leb_inf_top y : Num.leb (Num.Inf false) y = true -> y = Num.Inf false.
Proof. destruct y as [| [|] | b]; simpl; congruence. Qed.

(** X9.  A population of zero raises nothing: a municipality with
    incidents and a population of 0 gets an infinite rate, and when its
    event type is selected the row of rank 1 of that event type has an
    infinite rate. *)
Theorem zero_population_ranks_first df sel e m :
  In e sel -> In m df -> r_event_type m = e ->
  r_vakiluku m = 0 -> 0 < r_incident_count m ->
  normalized_rate (with_normalized_rate m) = Num.Inf false /\
  exists top rest,
    top_10_of (calculate_municipality_rates df sel) e = top :: rest /\
    rank top = 1%nat /\
    normalized_rate (top_row top) = Num.Inf false.
Proof.
  intros He Hm Hty Hz Hc.
  assert (Hrate : normalized_rate (with_normalized_rate m) = Num.Inf false).
  { unfold with_normalized_rate, Num.div_scale_round2. cbn [normalized_rate].
    rewrite Hz. cbn.
    destruct (Z.eqb_spec (r_incident_count m) 0); [lia |].
    destruct (Z.ltb_spec (r_incident_count m) 0); [lia | reflexivity]. }
  split; [exact Hrate |].
  set (block := top_10_of (calculate_municipality_rates df sel) e).
  assert (Hcand : In (with_normalized_rate m)
                     (map with_normalized_rate
                          (filter (fun r => String.eqb (r_event_type r) e) df))).
  { apply in_map, filter_In. split; [exact Hm | apply String.eqb_eq, Hty]. }
  assert (Hlargest :
            exists rest',
              Permutation
                (map with_normalized_rate
                     (filter (fun r => String.eqb (r_event_type r) e) df))
                (map top_row block ++ rest') /\
              forall a b,
                In a (map top_row block) -> In b rest' ->
                Num.ge_nan_last (normalized_rate a) (normalized_rate b)).
  { unfold block. rewrite top_10_of_rows, candidates_of_selected by exact He.
    apply nlargest_dominates. }
  destruct Hlargest as (rest' & Hperm & Hdom).
  destruct (top_10_of_parts df sel e He) as (Hlen & Hrank & Hsorted).
  fold block in Hlen, Hrank, Hsorted.
  destruct block as [| top rest] eqn:Eb.
  - exfalso. cbn [List.length] in Hlen.
    destruct (map with_normalized_rate
                  (filter (fun r => String.eqb (r_event_type r) e) df));
      [destruct Hcand | cbn [List.length] in Hlen; lia].
  - exists top, rest. split; [reflexivity |].
    cbn [map List.length seq] in Hrank. split; [congruence |].
    apply leb_inf_top. rewrite <- Hrate.
    apply (Permutation_in _ Hperm), in_app_or in Hcand.
    cbn [map] in Hcand, Hsorted, Hdom.
    assert (Hge : Num.ge_nan_last (normalized_rate (top_row top))
                                  (normalized_rate (with_normalized_rate m))).
    { destruct Hcand as [[Heq | Hin] | Hin].
      - rewrite Heq. left. rewrite Hrate. reflexivity.
      - inversion Hsorted as [| ? ? _ Hall]; subst.
        rewrite Forall_forall in Hall. apply Hall, Hin.
      - apply Hdom; [left; reflexivity | exact Hin]. }
    destruct Hge as [Hge | Hnan]; [exact Hge |].
    rewrite Hrate in Hnan. discriminate.
Qed.

End NormaliserMore.

Section NormaliserEdges.
Import Db Pandas Vakiluvut Examples MoreExamples.

Lemma zero_population_ranks_first_witness :
  normalized_rate (with_normalized_rate iitti_row) = Num.Inf false /\
  exists top rest,
    top_10_of (calculate_municipality_rates rows_with_zero_population
                 ["rakennuspalo"]) "rakennuspalo" = top :: rest /\
    rank top = 1%nat /\
    normalized_rate (top_row top) = Num.Inf false.
Proof.
  apply (zero_population_ranks_first rows_with_zero_population ["rakennuspalo"]
                                     "rakennuspalo" iitti_row).
  - left. reflexivity.
  - unfold rows_with_zero_population. apply in_or_app. right. left. reflexivity.
  - reflexivity.
  - reflexivity.
  - reflexivity.
Defined.

Lemma concat_length_bound {X : Type} (ls : list (list X)) n :
  Forall (fun l => (List.length l <= n)%nat) ls ->
  (List.length (List.concat ls) <= n * List.length ls)%nat.
Proof.
  induction 1 as [| l tl Hl _ IH]; simpl; [lia |].
  rewrite length_app. lia.
Qed.

Lemma top_10_of_length normalized_df e :
  (List.length (top_10_of normalized_df e) <= 10)%nat.
Proof.
  rewrite <- (length_map top_row), top_10_of_rows, nlargest_length. lia.
Qed.

Lemma get_top_rows_selected df sel row :
  In row (get_top_municipalities_analysis df sel) ->
  mem (r_event_type (rate_row (top_row row))) sel = true.
Proof.
  unfold get_top_municipalities_analysis. intros H.
  apply in_concat in H. destruct H as (block & Hb & Hrow).
  apply in_map_iff in Hb. destruct Hb as (e & <- & _).
  apply (in_map top_row) in Hrow. rewrite top_10_of_rows in Hrow.
  apply nlargest_In, filter_In in Hrow. destruct Hrow as [Hrow _].
  unfold calculate_municipality_rates in Hrow. apply in_map_iff in Hrow.
  destruct Hrow as (m & <- & Hm). apply filter_In in Hm. tauto.
Qed.

(** X10.  On a table with at least one row,
    [analyze_municipality_incidents] shows at most ten rows per selected
    event type; when no row of the table has a selected event type it
    returns, without an error, the "no data" table, the empty chart with
    its annotation and the "no data" summary. *)
Theorem analysis_row_bound_and_no_data x xs df :
  df <> [] ->
  (List.length (get_top_municipalities_analysis df (x :: xs))
   <= 10 * List.length (x :: xs))%nat /\
  (match fst (fst (analyze_municipality_incidents (x :: xs) df)) with
   | Display rows =>
       List.length rows
       = List.length (get_top_municipalities_analysis df (x :: xs))
   | Viesti _ => get_top_municipalities_analysis df (x :: xs) = []
   end) /\
  ((forall row, In row df -> mem (r_event_type row) (x :: xs) = false) ->
   analyze_municipality_incidents (x :: xs) df
   = (Viesti "Ei dataa saatavilla valituilla kriteereillä",
      Annotation "Ei dataa näytettäväksi",
      SummaryText Vakiluvut.NO_DATA)).
Proof.
  intros _. split; [| split].
  - unfold get_top_municipalities_analysis.
    rewrite <- (length_map (top_10_of (calculate_municipality_rates df (x :: xs)))
                           (x :: xs)).
    apply concat_length_bound. rewrite Forall_forall. intros l Hl.
    apply in_map_iff in Hl. destruct Hl as (e & <- & _).
    apply top_10_of_length.
  - unfold analyze_municipality_incidents, format_municipality_table.
    cbn [fst].
    destruct (get_top_municipalities_analysis df (x :: xs)); [reflexivity |].
    rewrite length_map. reflexivity.
  - intros Hnone.
    assert (Hempty : get_top_municipalities_analysis df (x :: xs) = []).
    { destruct (get_top_municipalities_analysis df (x :: xs)) as [| row rest] eqn:E;
        [reflexivity |].
      exfalso.
      assert (Hin : In row (get_top_municipalities_analysis df (x :: xs)))
        by (rewrite E; left; reflexivity).
      pose proof (get_top_rows_selected _ _ _ Hin) as Hsel.
      apply top_rows_from_frame in Hin. rewrite (Hnone _ Hin) in Hsel.
      discriminate. }
    unfold analyze_municipality_incidents. rewrite Hempty. reflexivity.
Qed.

Lemma analysis_no_data_witness :
  analyze_municipality_incidents ["liikenneonnettomuus"] municipality_rows
  = (Viesti "Ei dataa saatavilla valituilla kriteereillä",
     Annotation "Ei dataa näytettäväksi",
     SummaryText Vakiluvut.NO_DATA).
Proof.
  refine (proj2 (proj2 (analysis_row_bound_and_no_data
                          "liikenneonnettomuus" [] municipality_rows _)) _).
  - discriminate.
  - intros row Hin. simpl in Hin.
    destruct Hin as [<- | [<- | [<- | [<- | []]]]]; reflexivity.
Defined.

End NormaliserEdges.

(* --------------------------------------------------------------------- *)
(** *** Placeholders and their values                                     *)
(* --------------------------------------------------------------------- *)

Section PlaceholderRoundTrip.
Import Db Pandas Vasteet Criteria Examples.

Lemma string_of_nat_inj a b : string_of_nat a = string_of_nat b -> a = b.
Proof.
  unfold string_of_nat. intros H.
  apply DecimalNat.Unsigned.to_uint_inj.
  pose proof (NilEmpty.usu (Nat.to_uint a)) as Ha.
  pose proof (NilEmpty.usu (Nat.to_uint b)) as Hb.
  rewrite H in Ha. congruence.
Qed.

Lemma append_inj_r (p a b : string) : (p ++ a = p ++ b)%string -> a = b.
Proof.
  induction p as [| c p IH]; simpl; intros H; [exact H |].
  inversion H. apply IH. assumption.
Qed.

Lemma placeholder_eqb prefix a b :
  String.eqb (placeholder prefix a) (placeholder prefix b) = Nat.eqb a b.
Proof.
  destruct (Nat.eqb_spec a b) as [-> | Hne]; [apply String.eqb_refl |].
  apply String.eqb_neq. intros H. apply Hne.
  apply string_of_nat_inj, (append_inj_r prefix), H.
Qed.

Lemma last_binding_cons k kv t start :
  last_binding k (kv :: t) start
  = last_binding k t (if String.eqb (fst kv) k then Some (snd kv) else start).
Proof. reflexivity. Qed.

(** The pairs written for the values from index [a] on. *)
Lemma enum_unbound prefix values : forall a j start,
  (j < a)%nat ->
  last_binding (placeholder prefix j)
    (map (fun iv => (placeholder prefix (fst iv), VText (snd iv)))
         (combine (seq a (List.length values)) values)) start = start.
Proof.
  induction values as [| x tl IH]; intros a j start Hj; [reflexivity |].
  cbn [List.length seq combine map]. rewrite last_binding_cons. cbn [fst snd].
  rewrite placeholder_eqb.
  destruct (Nat.eqb_spec a j); [lia |]. apply IH. lia.
Qed.

Lemma enum_bound prefix values : forall a i v start,
  nth_error values i = Some v ->
  last_binding (placeholder prefix (a + i))
    (map (fun iv => (placeholder prefix (fst iv), VText (snd iv)))
         (combine (seq a (List.length values)) values)) start
  = Some (VText v).
Proof.
  induction values as [| x tl IH]; intros a i v start Hv.
  - destruct i; discriminate.
  - cbn [List.length seq combine map]. rewrite last_binding_cons. cbn [fst snd].
    rewrite placeholder_eqb. destruct i as [| i].
    + cbn in Hv. inversion Hv; subst. rewrite Nat.add_0_r, Nat.eqb_refl.
      apply enum_unbound. lia.
    + cbn in Hv. replace (a + S i)%nat with (S a + i)%nat by lia.
      apply IH, Hv.
Qed.

Lemma bind_texts_enum d prefix values : forall a,
  (forall i v, nth_error values i = Some v ->
               dict_get d (placeholder prefix (a + i)) = Some (VText v)) ->
  bind_texts (Some d) (map (placeholder prefix) (seq a (List.length values)))
  = Return values.
Proof.
  induction values as [| x tl IH]; intros a H; [reflexivity |].
  cbn [List.length seq map bind_texts]. unfold bind_text.
  pose proof (H 0%nat x eq_refl) as H0. rewrite Nat.add_0_r in H0. rewrite H0.
  rewrite (IH (S a)); [reflexivity |].
  intros i v Hv. replace (S a + i)%nat with (a + S i)%nat by lia.
  apply H. exact Hv.
Qed.

(** The values of one filter are read back from a tuple that holds its
    pairs between pairs of other names. *)
Lemma bind_texts_part col prefix values before after :
  (forall kv i, In kv after ->
                String.eqb (fst kv) (placeholder prefix i) = false) ->
  values <> [] ->
  bind_texts
    (Some (dict (before ++ snd (filter_part col prefix values) ++ after)))
    (placeholders prefix (List.length values))
  = Return values.
Proof.
  intros Hafter Hne. unfold placeholders.
  apply (bind_texts_enum _ prefix values 0). intros i v Hv. cbn [Nat.add].
  unfold dict. rewrite dict_get_fold, !last_binding_app.
  rewrite (last_binding_unbound _ after)
    by (intros kv Hkv; apply Hafter, Hkv).
  destruct values as [| x tl]; [contradiction |].
  cbn [filter_part snd]. unfold enumerate_params.
  apply (enum_bound prefix (x :: tl) 0 i v). exact Hv.
Qed.

Lemma bind_clauses_part col prefix values before after :
  (forall kv i, In kv after ->
                String.eqb (fst kv) (placeholder prefix i) = false) ->
  bind_clauses
    (Some (dict (before ++ snd (filter_part col prefix values) ++ after)))
    (fst (filter_part col prefix values))
  = Return (resolved col values).
Proof.
  intros Hafter. destruct values as [| x tl] eqn:E; [reflexivity |].
  rewrite <- E. assert (Hne : values <> []) by (rewrite E; discriminate).
  replace (fst (filter_part col prefix values))
    with [(col, placeholders prefix (List.length values))]
    by (rewrite E; reflexivity).
  cbn [bind_clauses].
  rewrite (bind_texts_part col prefix values before after Hafter Hne).
  rewrite E. reflexivity.
Qed.

Lemma bind_clauses_concat params c1 c2 r1 r2 :
  bind_clauses params c1 = Return r1 ->
  bind_clauses params c2 = Return r2 ->
  bind_clauses params (c1 ++ c2) = Return (r1 ++ r2).
Proof.
  revert r1. induction c1 as [| [c names] tl IH]; intros r1 H1 H2; simpl in *.
  - inversion H1. exact H2.
  - destruct (bind_texts params names) as [vs | e]; [| discriminate].
    destruct (bind_clauses params tl) as [rest | e]; [| discriminate].
    inversion H1; subst. rewrite (IH rest eq_refl H2). reflexivity.
Qed.

Lemma municipality_names_differ kv i munis hakes :
  In kv (common_params munis hakes) ->
  String.eqb (fst kv) (placeholder "event_type_" i) = false.
Proof.
  unfold common_params. intros H. apply in_app_or in H.
  destruct H as [H | H]; apply filter_part_names in H;
    destruct H as (j & ->); reflexivity.
Qed.

Lemma hake_names_differ kv i hakes :
  In kv (snd (filter_part C_hake "hake_" hakes)) ->
  String.eqb (fst kv) (placeholder "municipality_" i) = false.
Proof.
  intros H. apply filter_part_names in H. destruct H as (j & ->). reflexivity.
Qed.

Lemma date_bound lo hi rest :
  (forall kv, In kv rest -> exists prefix i,
        fst kv = placeholder prefix i /\
        (prefix = "event_type_" \/ prefix = "municipality_" \/ prefix = "hake_")) ->
  bind_datetime (Some (dict (date_params lo hi ++ rest))) "start_date" = Return lo /\
  bind_datetime (Some (dict (date_params lo hi ++ rest))) "end_date" = Return hi.
Proof.
  intros H. unfold bind_datetime, dict.
  rewrite !dict_get_fold, !last_binding_app.
  rewrite !(last_binding_unbound _ rest).
  - split; reflexivity.
  - intros kv Hkv. destruct (H kv Hkv) as (prefix & i & -> & [-> | [-> | ->]]);
      reflexivity.
  - intros kv Hkv. destruct (H kv Hkv) as (prefix & i & -> & [-> | [-> | ->]]);
      reflexivity.
Qed.

Lemma statement_names etypes munis hakes kv :
  In kv (snd (filter_part C_event_type "event_type_" etypes)
         ++ common_params munis hakes) ->
  exists prefix i,
    fst kv = placeholder prefix i /\
    (prefix = "event_type_" \/ prefix = "municipality_" \/ prefix = "hake_").
Proof.
  intros H. apply in_app_or in H. destruct H as [H | H].
  - apply filter_part_names in H. destruct H as (i & ->).
    exists "event_type_", i. tauto.
  - unfold common_params in H. apply in_app_or in H. destruct H as [H | H];
      apply filter_part_names in H; destruct H as (i & ->).
    + exists "municipality_", i. tauto.
    + exists "hake_", i. tauto.
Qed.

Lemma common_clauses_bound before munis hakes :
  bind_clauses (Some (dict (before ++ common_params munis hakes)))
               (common_clauses munis hakes)
  = Return (resolved C_municipality munis ++ resolved C_hake hakes).
Proof.
  unfold common_clauses, common_params. apply bind_clauses_concat.
  - apply bind_clauses_part. intros kv i Hkv. apply (hake_names_differ kv i hakes Hkv).
  - replace (before ++ snd (filter_part C_municipality "municipality_" munis)
               ++ snd (filter_part C_hake "hake_" hakes))
      with ((before ++ snd (filter_part C_municipality "municipality_" munis))
              ++ snd (filter_part C_hake "hake_" hakes) ++ [])
      by (rewrite app_nil_r, app_assoc; reflexivity).
    apply bind_clauses_part. intros kv i [].
Qed.

Lemma where_resolved_total lo hi munis hakes ev :
  where_tilanteet lo hi (resolved C_municipality munis ++ resolved C_hake hakes) ev
  = total_filter lo hi munis hakes ev.
Proof.
  unfold where_tilanteet, total_filter, chosen, chosen_hake.
  destruct munis, hakes; cbn [resolved app forallb in_test fst snd];
    rewrite ?andb_true_r, ?andb_assoc; reflexivity.
Qed.

Lemma where_resolved_subset lo hi etypes munis hakes ev :
  where_tilanteet lo hi (resolved C_event_type etypes
                         ++ resolved C_municipality munis
                         ++ resolved C_hake hakes) ev
  = subset_filter lo hi etypes munis hakes ev.
Proof.
  unfold subset_filter. rewrite <- where_resolved_total.
  unfold where_tilanteet, chosen.
  destruct etypes; cbn [resolved app forallb in_test fst snd].
  - rewrite andb_true_r. reflexivity.
  - destruct ((lo <=? timestamp ev) && (timestamp ev <=? hi)),
      (mem (event_type ev) (s :: etypes)),
      (forallb (in_test ev) (resolved C_municipality munis ++ resolved C_hake hakes));
      reflexivity.
Qed.

(** The total statement with its parameters reads the rows that pass the
    total filter. *)
Lemma read_total_statement db lo hi munis hakes :
  failure db = None ->
  read_sql_query db
    (SelectTilanteet false (fst (total_statement lo hi munis hakes)))
    (params_of_tuple (Some (snd (total_statement lo hi munis hakes))))
  = Return (TotalFrame
              (map total_row
                   (filter (total_filter lo hi munis hakes) (tilanteet db)))).
Proof.
  intros Hup. rewrite total_statement_parts. cbn [fst snd].
  rewrite params_of_tuple_dates. unfold read_sql_query. rewrite Hup.
  change ([] ++ common_params munis hakes) with (common_params munis hakes).
  destruct (date_bound lo hi (common_params munis hakes)) as [Hlo Hhi].
  { intros kv Hkv.
    apply (statement_names [] munis hakes kv). exact Hkv. }
  rewrite Hlo, Hhi.
  rewrite (common_clauses_bound (date_params lo hi)).
  f_equal. f_equal. f_equal. apply filter_ext. intros ev.
  apply where_resolved_total.
Qed.

(** The subset statement with its parameters reads the rows that pass the
    subset filter. *)
Lemma read_selected_statement db lo hi etypes munis hakes :
  failure db = None ->
  read_sql_query db
    (SelectTilanteet true (fst (selected_statement lo hi etypes munis hakes)))
    (params_of_tuple (Some (snd (selected_statement lo hi etypes munis hakes))))
  = Return (SelectedFrame
              (map selected_row
                   (filter (subset_filter lo hi etypes munis hakes)
                           (tilanteet db)))).
Proof.
  intros Hup. rewrite selected_statement_parts. cbn [fst snd].
  rewrite params_of_tuple_dates. unfold read_sql_query. rewrite Hup.
  destruct (date_bound lo hi
              (snd (filter_part C_event_type "event_type_" etypes)
               ++ common_params munis hakes)) as [Hlo Hhi].
  { apply statement_names. }
  rewrite Hlo, Hhi.
  rewrite (bind_clauses_concat _ _ _ (resolved C_event_type etypes)
             (resolved C_municipality munis ++ resolved C_hake hakes)).
  - f_equal. f_equal. f_equal. apply filter_ext. intros ev.
    apply where_resolved_subset.
  - apply bind_clauses_part. intros kv i Hkv.
    apply (municipality_names_differ kv i munis hakes Hkv).
  - replace (date_params lo hi
               ++ snd (filter_part C_event_type "event_type_" etypes)
               ++ common_params munis hakes)
      with ((date_params lo hi
               ++ snd (filter_part C_event_type "event_type_" etypes))
              ++ common_params munis hakes)
      by (rewrite app_assoc; reflexivity).
    apply common_clauses_bound.
Qed.

(** X11.  On a store that answers, the two statements of a request, with
    the parameters built for them, fetch exactly the rows of [tilanteet]
    whose timestamp lies between the two bounds (inclusive) and whose
    municipality and station are among the selected ones (an empty
    selection restricting nothing, a row without station passing no
    station selection), the subset statement keeping only the selected
    event types: every placeholder is bound to the value it was written
    for. *)
Theorem statements_fetch_selected_rows db lo hi etypes munis hakes :
  failure db = None ->
  read_sql_query db
    (SelectTilanteet false (fst (total_statement lo hi munis hakes)))
    (params_of_tuple (Some (snd (total_statement lo hi munis hakes))))
  = Return (TotalFrame
              (map total_row
                   (filter (total_filter lo hi munis hakes) (tilanteet db)))) /\
  read_sql_query db
    (SelectTilanteet true (fst (selected_statement lo hi etypes munis hakes)))
    (params_of_tuple (Some (snd (selected_statement lo hi etypes munis hakes))))
  = Return (SelectedFrame
              (map selected_row
                   (filter (subset_filter lo hi etypes munis hakes)
                           (tilanteet db)))).
Proof.
  intros Hup. split.
  - apply read_total_statement. exact Hup.
  - apply read_selected_statement. exact Hup.
Qed.

Lemma statements_fetch_witness :
  read_sql_query store_2
    (SelectTilanteet true
       (fst (selected_statement 0 (Calendar.midnight 19370) ["B"] ["Kouvola"] [])))
    (params_of_tuple
       (Some (snd (selected_statement 0 (Calendar.midnight 19370)
                                      ["B"] ["Kouvola"] []))))
  = Return (SelectedFrame
              (map selected_row
                   (filter (subset_filter 0 (Calendar.midnight 19370)
                                          ["B"] ["Kouvola"] [])
                           (tilanteet store_2)))).
Proof.
  apply (proj2 (statements_fetch_selected_rows
                  store_2 0 (Calendar.midnight 19370) ["B"] ["Kouvola"] []
                  eq_refl)).
Defined.

End PlaceholderRoundTrip.

(* --------------------------------------------------------------------- *)
(** *** A request in terms of the store                                   *)
(* --------------------------------------------------------------------- *)

Section RequestOutcome.
Import Db Pandas Vasteet Criteria Examples.





(** X13.  A date string that does not parse ends the request before any
    statement is sent: the result carries the [ValueError] in its
    summary, and the cache and the statements sent are as they were. *)
Theorem unparsable_date_aborts_before_query
        strptime s e x xs munis hakes agg show db p err :
  start_datetime_of strptime s = Raise err \/
  (exists lo, start_datetime_of strptime s = Return lo /\
              end_datetime_of strptime e = Raise err) ->
  process_rescue_events strptime s e (x :: xs) munis hakes agg show db p
  = (Return (no_figure (ErrorMessage err)), p).
Proof.
  intros [Hs | (lo & Hs & He)];
    unfold process_rescue_events, try_except, bind, lift, ret;
    rewrite Hs; [reflexivity |]. rewrite He. reflexivity.
Qed.

Lemma unparsable_date_witness :
  process_rescue_events no_strptime (DateStr "2023-13-45") (DateObj 19370)
                        ["A"] [] [] "Päivä" false store_1 fresh
  = (Return (no_figure (ErrorMessage (ValueError "time data does not match format"))),
     fresh).
Proof.
  apply (unparsable_date_aborts_before_query
           no_strptime (DateStr "2023-13-45") (DateObj 19370) "A" [] [] []
           "Päivä" false store_1 fresh).
  left. reflexivity.
Defined.



End RequestOutcome.

(* --------------------------------------------------------------------- *)
(** *** The cache while the store does not change                         *)
(* --------------------------------------------------------------------- *)

Section UnchangedStore.
Import Db Pandas Vasteet Examples.

Lemma prefix_app (a b : string) : String.prefix a (a ++ b) = true.
Proof.
  induction a as [| c a IH]; [destruct b; reflexivity |].
  cbn [append String.prefix].
  destruct (ascii_dec c c) as [_ | N]; [exact IH | contradiction N; reflexivity].
Qed.

Lemma filter_all {X : Type} (f : X -> bool) l :
  (forall x, In x l -> f x = true) -> filter f l = l.
Proof.
  induction l as [| x tl IH]; intros H; simpl; [reflexivity |].
  rewrite (H x (or_introl eq_refl)), IH; [reflexivity |].
  intros y Hy. apply H. right. exact Hy.
Qed.

Lemma filter_none {X : Type} (f : X -> bool) l :
  (forall x, In x l -> f x = false) -> filter f l = [].
Proof.
  induction l as [| x tl IH]; intros H; simpl; [reflexivity |].
  rewrite (H x (or_introl eq_refl)). apply IH.
  intros y Hy. apply H. right. exact Hy.
Qed.

Lemma enumerate_params_names prefix values kv :
  In kv (enumerate_params prefix values) ->
  exists i, fst kv = placeholder prefix i.
Proof.
  unfold enumerate_params. intros H. apply in_map_iff in H.
  destruct H as ([i v] & <- & _). exists i. reflexivity.
Qed.

Lemma enumerate_params_values prefix values :
  map snd (enumerate_params prefix values) = map VText values.
Proof.
  unfold enumerate_params. rewrite map_map. cbn [snd].
  generalize 0%nat. induction values as [| v tl IH]; intros a;
    [reflexivity |].
  cbn [List.length seq combine map snd]. rewrite IH. reflexivity.
Qed.

Lemma filter_part_params col prefix values :
  snd (filter_part col prefix values) = enumerate_params prefix values.
Proof. destruct values; reflexivity. Qed.

(** The values bound to the placeholders of one prefix, read back from
    the parameters of a statement. *)
Lemma values_of_prefix prefix etypes munis hakes :
  prefix = "event_type_" \/ prefix = "municipality_" \/ prefix = "hake_" ->
  map snd (filter (fun kv => String.prefix prefix (fst kv))
                  (enumerate_params "event_type_" etypes
                   ++ enumerate_params "municipality_" munis
                   ++ enumerate_params "hake_" hakes))
  = map VText (if String.eqb prefix "event_type_" then etypes
               else if String.eqb prefix "municipality_" then munis
               else hakes).
Proof.
  intros Hp. rewrite !filter_app.
  destruct Hp as [-> | [-> | ->]]; cbn [String.eqb Ascii.eqb Bool.eqb].
  - rewrite (filter_all _ (enumerate_params "event_type_" etypes)),
      (filter_none _ (enumerate_params "municipality_" munis)),
      (filter_none _ (enumerate_params "hake_" hakes)).
    + rewrite !app_nil_r. apply enumerate_params_values.
    + intros kv H. apply enumerate_params_names in H. destruct H as (i & ->).
      reflexivity.
    + intros kv H. apply enumerate_params_names in H. destruct H as (i & ->).
      reflexivity.
    + intros kv H. apply enumerate_params_names in H. destruct H as (i & ->).
      apply prefix_app.
  - rewrite (filter_none _ (enumerate_params "event_type_" etypes)),
      (filter_all _ (enumerate_params "municipality_" munis)),
      (filter_none _ (enumerate_params "hake_" hakes)).
    + rewrite app_nil_r. apply enumerate_params_values.
    + intros kv H. apply enumerate_params_names in H. destruct H as (i & ->).
      reflexivity.
    + intros kv H. apply enumerate_params_names in H. destruct H as (i & ->).
      apply prefix_app.
    + intros kv H. apply enumerate_params_names in H. destruct H as (i & ->).
      reflexivity.
  - rewrite (filter_none _ (enumerate_params "event_type_" etypes)),
      (filter_none _ (enumerate_params "municipality_" munis)),
      (filter_all _ (enumerate_params "hake_" hakes)).
    + apply enumerate_params_values.
    + intros kv H. apply enumerate_params_names in H. destruct H as (i & ->).
      apply prefix_app.
    + intros kv H. apply enumerate_params_names in H. destruct H as (i & ->).
      reflexivity.
    + intros kv H. apply enumerate_params_names in H. destruct H as (i & ->).
      reflexivity.
Qed.

Lemma map_VText_inj a b : map VText a = map VText b -> a = b.
Proof.
  revert b. induction a as [| x a IH]; intros [| y b] H;
    try discriminate H; [reflexivity |].
  cbn [map] in H. injection H as Hx Hab. rewrite Hx, (IH b Hab). reflexivity.
Qed.

(** The parameters of a statement determine the selections they were
    built from. *)
Lemma statement_params_inj e1 m1 h1 e2 m2 h2 :
  enumerate_params "event_type_" e1 ++ enumerate_params "municipality_" m1
    ++ enumerate_params "hake_" h1
  = enumerate_params "event_type_" e2 ++ enumerate_params "municipality_" m2
    ++ enumerate_params "hake_" h2 ->
  e1 = e2 /\ m1 = m2 /\ h1 = h2.
Proof.
  intros H.
  pose proof (values_of_prefix "event_type_" e1 m1 h1 (or_introl eq_refl)) as A1.
  pose proof (values_of_prefix "event_type_" e2 m2 h2 (or_introl eq_refl)) as A2.
  pose proof (values_of_prefix "municipality_" e1 m1 h1
                (or_intror (or_introl eq_refl))) as B1.
  pose proof (values_of_prefix "municipality_" e2 m2 h2
                (or_intror (or_introl eq_refl))) as B2.
  pose proof (values_of_prefix "hake_" e1 m1 h1
                (or_intror (or_intror eq_refl))) as C1.
  pose proof (values_of_prefix "hake_" e2 m2 h2
                (or_intror (or_intror eq_refl))) as C2.
  rewrite H in A1, B1, C1.
  cbn [String.eqb Ascii.eqb Bool.eqb] in A1, A2, B1, B2, C1, C2.
  repeat split; apply map_VText_inj; congruence.
Qed.

Lemma selected_params_inj lo1 hi1 e1 m1 h1 lo2 hi2 e2 m2 h2 :
  snd (selected_statement lo1 hi1 e1 m1 h1)
  = snd (selected_statement lo2 hi2 e2 m2 h2) ->
  lo1 = lo2 /\ hi1 = hi2 /\ e1 = e2 /\ m1 = m2 /\ h1 = h2.
Proof.
  rewrite !selected_statement_parts. cbn [snd]. unfold common_params.
  rewrite !filter_part_params. unfold date_params. cbn [app].
  intros H. injection H as Hlo Hhi Hrest.
  destruct (statement_params_inj _ _ _ _ _ _ Hrest) as (-> & -> & ->).
  subst. repeat split.
Qed.

Lemma total_params_inj lo1 hi1 m1 h1 lo2 hi2 m2 h2 :
  snd (total_statement lo1 hi1 m1 h1) = snd (total_statement lo2 hi2 m2 h2) ->
  lo1 = lo2 /\ hi1 = hi2 /\ m1 = m2 /\ h1 = h2.
Proof.
  rewrite !total_statement_parts. cbn [snd]. unfold common_params.
  rewrite !filter_part_params. unfold date_params. cbn [app].
  intros H. injection H as Hlo Hhi Hrest.
  destruct (statement_params_inj [] _ _ [] _ _ Hrest) as (_ & -> & ->).
  subst. repeat split.
Qed.

Lemma cache_find_In k c df : cache_find k c = Some df -> In (k, df) c.
Proof.
  induction c as [| [k' d] tl IH]; simpl; [discriminate |].
  destruct (key_eqb k k') eqn:E.
  - intros H. injection H as ->. apply key_eqb_eq in E. subst k'.
    left. reflexivity.
  - intros H. right. apply IH, H.
Qed.

(** A call for a statement of a request keeps the cache filled by
    requests. *)
Lemma cached_call_of_requests q ps db p :
  (forall df, read_sql_query db q (params_of_tuple ps) = Return df ->
              request_table db (sql_text q, ps) df) ->
  cache_of_requests db p ->
  cache_of_requests db (snd (cached_execute_query q ps db p)).
Proof.
  intros Hq Hinv k df. unfold cached_execute_query.
  destruct (cache_find (sql_text q, ps) (lru p)) as [d |] eqn:Hf.
  - cbn [snd lru]. intros [H | H].
    + injection H as <- <-. apply Hinv, cache_find_In, Hf.
    + unfold cache_remove in H. apply filter_In in H. apply Hinv, H.
  - pose proof (execute_query_lru q (params_of_tuple ps) db p) as Hl.
    destruct (execute_query q (params_of_tuple ps) db p) as [[d | e] p0] eqn:He;
      cbn [snd] in Hl |- *.
    + cbn [lru]. intros H. apply firstn_In in H. destruct H as [H | H].
      * injection H as <- <-. apply Hq.
        apply (execute_query_Return _ _ _ _ _ _ He).
      * rewrite Hl in H. apply Hinv, H.
    + rewrite Hl. apply Hinv.
Qed.

Lemma request_of_requests strptime s e etypes munis hakes agg show db p :
  cache_of_requests db p ->
  cache_of_requests db
    (snd (process_rescue_events strptime s e etypes munis hakes agg show db p)).
Proof.
  intros Hinv. unfold process_rescue_events, try_except.
  destruct etypes as [| x xs]; [exact Hinv |].
  unfold bind at 1. unfold lift at 1.
  destruct (start_datetime_of strptime s) as [lo | e1]; [| exact Hinv].
  unfold bind at 1. unfold lift at 1.
  destruct (end_datetime_of strptime e) as [hi | e2]; [| exact Hinv].
  cbv zeta. unfold bind at 1.
  pose proof (cached_call_of_requests
                (SelectTilanteet false (fst (total_statement lo hi munis hakes)))
                (Some (snd (total_statement lo hi munis hakes))) db p) as H1.
  destruct (cached_execute_query
              (SelectTilanteet false (fst (total_statement lo hi munis hakes)))
              (Some (snd (total_statement lo hi munis hakes))) db p)
    as [[df_t | e3] p1].
  2:{ apply H1; [| exact Hinv]. intros df Hdf. left.
      exists lo, hi, munis, hakes. split; [reflexivity | exact Hdf]. }
  assert (Hinv1 : cache_of_requests db p1).
  { apply H1; [| exact Hinv]. intros df Hdf. left.
    exists lo, hi, munis, hakes. split; [reflexivity | exact Hdf]. }
  clear H1. unfold bind at 1.
  pose proof (cached_call_of_requests
                (SelectTilanteet true
                   (fst (selected_statement lo hi (x :: xs) munis hakes)))
                (Some (snd (selected_statement lo hi (x :: xs) munis hakes)))
                db p1) as H2.
  destruct (cached_execute_query
              (SelectTilanteet true
                 (fst (selected_statement lo hi (x :: xs) munis hakes)))
              (Some (snd (selected_statement lo hi (x :: xs) munis hakes)))
              db p1)
    as [[df_s | e4] p2].
  2:{ apply H2; [| exact Hinv1]. intros df Hdf. right.
      exists lo, hi, (x :: xs), munis, hakes. split; [reflexivity | exact Hdf]. }
  assert (Hinv2 : cache_of_requests db p2).
  { apply H2; [| exact Hinv1]. intros df Hdf. right.
    exists lo, hi, (x :: xs), munis, hakes. split; [reflexivity | exact Hdf]. }
  clear H2.
  destruct (empty df_t || empty df_s); [exact Hinv2 |].
  unfold bind, lift.
  destruct (as_total_rows df_t); [| exact Hinv2].
  destruct (as_selected_rows df_s); [| exact Hinv2].
  destruct (aggregate agg show _ _); exact Hinv2.
Qed.

Lemma run_requests_of_requests strptime db reqs : forall p,
  cache_of_requests db p ->
  cache_of_requests db (run_requests strptime db reqs p).
Proof.
  induction reqs as [| r tl IH]; intros p Hinv; [exact Hinv |].
  cbn [run_requests]. apply IH, request_of_requests, Hinv.
Qed.

(** X8.  While the store does not change, the cache serves current
    tables: after any sequence of requests that a process answered on one
    store, starting with an empty cache, every cached table that a
    further request uses, for any bounds and selections, is the table
    that the store answers to the statement of that request. *)
Theorem unchanged_store_tables_current
        strptime db reqs lo hi etypes munis hakes :
  tables_used_current db (run_requests strptime db reqs fresh)
                      lo hi etypes munis hakes.
Proof.
  assert (Hinv : cache_of_requests db (run_requests strptime db reqs fresh)).
  { apply run_requests_of_requests. intros k df []. }
  split; intros df Hf; apply cache_find_In, Hinv in Hf;
    destruct Hf as [(lo' & hi' & m' & h' & Hk & Hread)
                   | (lo' & hi' & e' & m' & h' & Hk & Hread)].
  - injection Hk as _ Hps.
    destruct (total_params_inj _ _ _ _ _ _ _ _ Hps) as (-> & -> & -> & ->).
    exact Hread.
  - exfalso.
    pose proof (statement_keys_differ
                  (fst (selected_statement lo' hi' e' m' h'))
                  (Some (snd (selected_statement lo' hi' e' m' h')))
                  (fst (total_statement lo hi munis hakes))
                  (Some (snd (total_statement lo hi munis hakes)))) as Hne.
    rewrite <- Hk, key_eqb_refl in Hne. discriminate Hne.
  - exfalso.
    pose proof (statement_keys_differ
                  (fst (selected_statement lo hi etypes munis hakes))
                  (Some (snd (selected_statement lo hi etypes munis hakes)))
                  (fst (total_statement lo' hi' m' h'))
                  (Some (snd (total_statement lo' hi' m' h')))) as Hne.
    rewrite Hk, key_eqb_refl in Hne. discriminate Hne.
  - injection Hk as _ Hps.
    destruct (selected_params_inj _ _ _ _ _ _ _ _ _ _ Hps)
      as (-> & -> & -> & -> & ->).
    exact Hread.
Qed.

End UnchangedStore.

(* --------------------------------------------------------------------- *)
(** *** The callers of the rate aggregator                                *)
(* --------------------------------------------------------------------- *)

Section CallerFacts.
Import Db Pandas Vasteet Ui Examples.

Lemma process_rescue_events_returns strptime s e etypes munis hakes agg show db p :
  exists r p',
    process_rescue_events strptime s e etypes munis hakes agg show db p
    = (Return r, p') /\
    ((exists msg, r = no_figure msg) \/
     (exists total_rows selected_rows,
         aggregate agg show total_rows selected_rows = Return r)).
Proof.
  unfold process_rescue_events.
  match goal with
  | |- context [try_except ?m ?h] =>
      destruct (try_except_total m (fun e => no_figure (ErrorMessage e)) db p)
        as (r & p' & Hr & Hcase)
  end.
  exists r, p'. split; [exact Hr |].
  destruct Hcase as [Hm | (e0 & _ & ->)]; [| left; eexists; reflexivity].
  destruct etypes as [| x xs].
  { inversion Hm; subst. left. eexists. reflexivity. }
  apply bind_Return_inv in Hm. destruct Hm as (lo & p1 & _ & Hm).
  apply bind_Return_inv in Hm. destruct Hm as (hi & p2 & _ & Hm).
  cbv zeta in Hm.
  apply bind_Return_inv in Hm. destruct Hm as (df_t & p3 & _ & Hm).
  apply bind_Return_inv in Hm. destruct Hm as (df_s & p4 & _ & Hm).
  destruct (empty df_t || empty df_s).
  { inversion Hm; subst. left. eexists. reflexivity. }
  apply bind_Return_inv in Hm. destruct Hm as (tr & p5 & _ & Hm).
  apply bind_Return_inv in Hm. destruct Hm as (sr & p6 & _ & Hm).
  apply lift_Return_inv in Hm. destruct Hm as [Hm _].
  right. exists tr, sr. exact Hm.
Qed.

Lemma hake_figs_at_most_five strptime s e etypes munis hakes agg show db p r p' :
  process_rescue_events strptime s e etypes munis hakes agg show db p
  = (Return r, p') ->
  (List.length (hake_figs r) <= 5)%nat.
Proof.
  intros H.
  destruct (process_rescue_events_returns strptime s e etypes munis hakes agg
                                          show db p)
    as (r0 & p0 & Hr & Hshape).
  rewrite H in Hr. inversion Hr; subst r0 p0.
  destruct Hshape as [(msg & ->) | (tr & sr & Hagg)]; [simpl; lia |].
  apply aggregate_Return in Hagg. destruct Hagg as (f & _ & _ & Hh & _).
  rewrite Hh. destruct show; [| simpl; lia].
  rewrite hake_breakdown_charts, length_map, length_firstn. lia.
Qed.

Lemma plot_outputs_nil n : plot_outputs n [] = repeat PlotHidden n.
Proof.
  unfold plot_outputs. generalize 0%nat as a.
  induction n as [| n IH]; intros a; simpl; [reflexivity |].
  rewrite IH. destruct a; reflexivity.
Qed.

Lemma plot_outputs_cons n chart charts :
  plot_outputs (S n) (chart :: charts) = PlotShown chart :: plot_outputs n charts.
Proof.
  unfold plot_outputs. cbn [seq map nth_error]. f_equal.
  rewrite <- seq_shift, map_map. reflexivity.
Qed.

(** The loop shows every chart when there are not more charts than
    plots. *)
Lemma plot_outputs_all charts : forall n,
  (List.length charts <= n)%nat ->
  plot_outputs n charts
  = map PlotShown charts ++ repeat PlotHidden (n - List.length charts).
Proof.
  induction charts as [| c tl IH]; intros n Hn.
  - rewrite plot_outputs_nil, Nat.sub_0_r. reflexivity.
  - destruct n as [| n]; [simpl in Hn; lia |].
    rewrite plot_outputs_cons, IH by (simpl in Hn; lia). reflexivity.
Qed.

(** X15.  The wrapper that the interface calls never raises and always
    fills its five plots: it passes on the chart, the summary and the
    sample of the request, shows every station chart of the request, in
    order, and hides the remaining plots; no chart is dropped, because a
    request never returns more than five. *)
Theorem wrapper_shows_every_station_chart
        strptime s e etypes munis hakes agg show db p :
  exists r p',
    process_rescue_events strptime s e etypes munis hakes agg show db p
    = (Return r, p') /\
    update_rescue_events_wrapper strptime s e etypes munis hakes agg show db p
    = ({| out_chart := fig r;
          out_summary := FromRequest (summary_text r);
          out_sample := sample_data r;
          out_plots := map PlotShown (hake_figs r)
                       ++ repeat PlotHidden (5 - List.length (hake_figs r)) |},
       p') /\
    List.length (out_plots
                   (fst (update_rescue_events_wrapper strptime s e etypes munis
                           hakes agg show db p))) = 5%nat.
Proof.
  destruct (process_rescue_events_returns strptime s e etypes munis hakes agg
                                          show db p)
    as (r & p' & Hr & _).
  pose proof (hake_figs_at_most_five _ _ _ _ _ _ _ _ _ _ _ _ Hr) as Hlen.
  exists r, p'. split; [exact Hr |].
  unfold update_rescue_events_wrapper. rewrite Hr.
  unfold request_outputs. rewrite (plot_outputs_all _ 5 Hlen).
  split; [reflexivity |].
  cbn [fst out_plots]. rewrite length_app, length_map, repeat_length. lia.
Qed.

(** X16.  [update_rescue_events] of [vasteet.py] returns the outputs of
    its [except] clause for every request: after the request has run, its
    loop reads [hake_chart_outputs], a name that is bound nowhere in
    [vasteet.py], so the chart, the summary and the sample of the request
    are never passed on. *)
Theorem update_rescue_events_always_name_error
        strptime s e etypes munis hakes agg show db p :
  update_rescue_events strptime s e etypes munis hakes agg show db p
  = (error_outputs (NameError "hake_chart_outputs"),
     snd (process_rescue_events strptime s e etypes munis hakes agg show db p)).
Proof.
  destruct (process_rescue_events_returns strptime s e etypes munis hakes agg
                                          show db p)
    as (r & p' & Hr & _).
  unfold update_rescue_events. rewrite Hr. reflexivity.
Qed.

End CallerFacts.

(* --------------------------------------------------------------------- *)
(** *** Startup of the municipality tab                                   *)
(* --------------------------------------------------------------------- *)

Section StartupFacts.
Import Db Pandas Vakiluvut Ui Examples.

Lemma load_municipality_data_unreachable db p msg :
  failure db = Some msg ->
  load_municipality_data db p
  = (Raise (NameError "st"),
     {| lru := lru p; issued := (sql_text PopulationQuery, None) :: issued p |}).
Proof.
  intros H. unfold load_municipality_data, bind, execute_query, read_sql_query.
  rewrite H. reflexivity.
Qed.

Lemma selected_type_has_rows df sel c :
  In c sel ->
  (exists row, In row df /\ r_event_type row = c) ->
  get_top_municipalities_analysis df sel <> [].
Proof.
  intros Hc (row & Hrow & Hty) Hnil.
  destruct (top_10_of_parts df sel c Hc) as (Hlen & _).
  assert (Hin : In (top_10_of (calculate_municipality_rates df sel) c)
                   (map (top_10_of (calculate_municipality_rates df sel)) sel))
    by (apply in_map, Hc).
  unfold get_top_municipalities_analysis in Hnil. cbv zeta in Hnil.
  destruct (top_10_of (calculate_municipality_rates df sel) c) as [| b bl] eqn:Eb.
  - rewrite length_map in Hlen.
    assert (Hf : In row (filter (fun r => String.eqb (r_event_type r) c) df)).
    { apply filter_In. split; [exact Hrow |]. rewrite Hty. apply String.eqb_refl. }
    destruct (filter (fun r => String.eqb (r_event_type r) c) df);
      [destruct Hf | simpl in Hlen; lia].
  - assert (Hb : In b (List.concat
                         (map (top_10_of (calculate_municipality_rates df sel)) sel))).
    { apply in_concat. eexists. split; [exact Hin | left; reflexivity]. }
    rewrite Hnil in Hb. destruct Hb.
Qed.

(** X17.  On a store that answers, [load_municipality_data_on_startup]
    stores the joined table, offers exactly the loaded event types and
    preselects the first two; and the analysis run afterwards answers every
    selection that contains an offered type with a table of at least one
    row and a summary of the selection, never with the "no data" text. *)
Theorem startup_choices_have_rows g db p :
  failure db = None ->
  exists df dd p',
    load_municipality_data_on_startup g db p
    = (dd, {| municipality_data_df := Some df;
              municipality_available_event_types := choices dd |}, p') /\
    value dd = firstn 2 (choices dd) /\
    forall sel c,
      In c sel -> In c (choices dd) ->
      exists row rows chart total n,
        municipality_analysis_wrapper
          {| municipality_data_df := Some df;
             municipality_available_event_types := choices dd |} sel
        = Analysis (Display (row :: rows), chart, AnalysisSummary sel total n).
Proof.
  intros H. unfold load_municipality_data_on_startup.
  unfold load_municipality_data, bind, execute_query, read_sql_query.
  rewrite H. cbn [lift as_population_rows as_incident_rows ret].
  eexists. eexists {| choices := _; value := _ |}. eexists.
  split; [reflexivity |]. split; [reflexivity |].
  cbn [choices]. intros sel c Hsel Hc.
  apply (proj1 (group_keys_In _ string_compare_eq _ _)) in Hc.
  apply in_map_iff in Hc. destruct Hc as (row & Hty & Hrow).
  match goal with
  | |- context [Build_Globals (Some ?d)] =>
      pose proof (selected_type_has_rows d sel c Hsel
                    (ex_intro _ row (conj Hrow Hty))) as Hne
  end.
  unfold municipality_analysis_wrapper. cbn [municipality_data_df].
  unfold analyze_municipality_incidents.
  destruct sel as [| s0 sl]; [destruct Hsel |].
  cbv zeta.
  match goal with
  | |- context [format_municipality_table ?t] =>
      destruct t as [| r rs] eqn:Et; [contradiction Hne; reflexivity |]
  end.
  cbn [format_municipality_table map].
  do 5 eexists. reflexivity.
Qed.

Lemma startup_choices_witness :
  exists df dd p',
    load_municipality_data_on_startup initial_globals store_regions fresh
    = (dd, {| municipality_data_df := Some df;
              municipality_available_event_types := choices dd |}, p') /\
    value dd = firstn 2 (choices dd) /\
    forall sel c,
      In c sel -> In c (choices dd) ->
      exists row rows chart total n,
        municipality_analysis_wrapper
          {| municipality_data_df := Some df;
             municipality_available_event_types := choices dd |} sel
        = Analysis (Display (row :: rows), chart, AnalysisSummary sel total n).
Proof.
  apply (startup_choices_have_rows initial_globals store_regions fresh).
  reflexivity.
Defined.

(** X18.  On a store that cannot be reached, startup issues the
    population statement only, returns a dropdown without choices and
    assigns neither global: the table stays [None], so that the analysis
    still prompts for an empty selection but raises [TypeError] for any
    other one instead of reporting that there is no data. *)
Theorem startup_failure_keeps_globals db p msg :
  failure db = Some msg ->
  load_municipality_data_on_startup initial_globals db p
  = ({| choices := []; value := [] |}, initial_globals,
     {| lru := lru p; issued := (sql_text PopulationQuery, None) :: issued p |}) /\
  (let g := snd (fst (load_municipality_data_on_startup initial_globals db p)) in
   municipality_analysis_wrapper g []
   = Analysis (Viesti "Valitse vähintään yksi tapahtumatyyppi",
               Annotation "Valitse tapahtumatyyppejä",
               SummaryText Vakiluvut.SELECT_PROMPT) /\
   forall x xs,
     municipality_analysis_wrapper g (x :: xs)
     = RaisesTypeError "'NoneType' object is not subscriptable").
Proof.
  intros H. unfold load_municipality_data_on_startup.
  rewrite (load_municipality_data_unreachable db p msg H).
  split; [reflexivity |]. split; [reflexivity |]. intros x xs. reflexivity.
Qed.

Lemma startup_failure_witness :
  load_municipality_data_on_startup initial_globals store_down fresh
  = ({| choices := []; value := [] |}, initial_globals,
     {| lru := lru fresh;
        issued := (sql_text PopulationQuery, None) :: issued fresh |}) /\
  (let g := snd (fst (load_municipality_data_on_startup initial_globals
                        store_down fresh)) in
   municipality_analysis_wrapper g []
   = Analysis (Viesti "Valitse vähintään yksi tapahtumatyyppi",
               Annotation "Valitse tapahtumatyyppejä",
               SummaryText Vakiluvut.SELECT_PROMPT) /\
   forall x xs,
     municipality_analysis_wrapper g (x :: xs)
     = RaisesTypeError "'NoneType' object is not subscriptable").
Proof.
  apply (startup_failure_keeps_globals store_down fresh "connection refused").
  reflexivity.
Defined.

End StartupFacts.

(* --------------------------------------------------------------------- *)
(** *** Option labels of the fire tab                                     *)
(* --------------------------------------------------------------------- *)

Section OptionLabels.
Import Db Palotapahtumat.

Lemma prefix_nil s : String.prefix "" s = true.
Proof. destruct s; reflexivity. Qed.

(** The separator has two characters: whether it starts a string is
    decided by the first two characters of the string. *)
Lemma prefix_sep_spec c1 c2 s :
  String.prefix " (" (String c1 (String c2 s))
  = Ascii.eqb " " c1 && Ascii.eqb "(" c2.
Proof.
  cbn [String.prefix].
  destruct (ascii_dec " " c1) as [<- | N1].
  - destruct (ascii_dec "(" c2) as [<- | N2].
    + rewrite prefix_nil. reflexivity.
    + apply Ascii.eqb_neq in N2. rewrite N2. reflexivity.
  - apply Ascii.eqb_neq in N1. rewrite N1. reflexivity.
Qed.

Lemma prefix_sep_one c : String.prefix " (" (String c "") = false.
Proof. cbn [String.prefix]. destruct (ascii_dec " " c); reflexivity. Qed.

Lemma prefix_sep_two c1 c2 rest tail :
  String.prefix " (" (String c1 (String c2 rest) ++ tail)
  = String.prefix " (" (String c1 (String c2 rest)).
Proof.
  change (String c1 (String c2 rest) ++ tail)%string
    with (String c1 (String c2 (rest ++ tail))).
  rewrite !prefix_sep_spec. reflexivity.
Qed.

Lemma contains_sep_short c : contains " (" (String c "") = false.
Proof.
  change (contains " (" (String c "")) with
    (String.prefix " (" (String c "") || String.prefix " (" "").
  rewrite prefix_sep_one. reflexivity.
Qed.

(** What follows the first separator does not matter. *)
Lemma before_sep_app t tail :
  contains " (" t = true ->
  contains " (" (t ++ tail) = true /\
  before_sep " (" (t ++ tail) = before_sep " (" t.
Proof.
  induction t as [| c1 rest IH]; intros H; [discriminate H |].
  destruct rest as [| c2 rest].
  { rewrite contains_sep_short in H. discriminate H. }
  change (contains " (" (String c1 (String c2 rest))) with
    (String.prefix " (" (String c1 (String c2 rest))
     || contains " (" (String c2 rest)) in H.
  change (contains " (" (String c1 (String c2 rest) ++ tail)) with
    (String.prefix " (" (String c1 (String c2 rest) ++ tail)
     || contains " (" (String c2 rest ++ tail)).
  change (before_sep " (" (String c1 (String c2 rest) ++ tail)) with
    (if String.prefix " (" (String c1 (String c2 rest) ++ tail) then ""
     else String c1 (before_sep " (" (String c2 rest ++ tail))).
  change (before_sep " (" (String c1 (String c2 rest))) with
    (if String.prefix " (" (String c1 (String c2 rest)) then ""
     else String c1 (before_sep " (" (String c2 rest))).
  rewrite prefix_sep_two.
  destruct (String.prefix " (" (String c1 (String c2 rest))) eqn:Ep.
  - split; reflexivity.
  - cbn [orb] in H. destruct (IH H) as [Hc Hb].
    rewrite Hc, Hb. split; reflexivity.
Qed.

(** A name without separator is what stands before the separator that the
    label adds. *)
Lemma before_sep_label t tail :
  contains " (" t = false ->
  contains " (" (t ++ " (" ++ tail) = true /\
  before_sep " (" (t ++ " (" ++ tail) = t.
Proof.
  induction t as [| c1 rest IH]; intros H.
  { change ("" ++ " (" ++ tail)%string with (String " " (String "(" tail)).
    cbn [contains before_sep]. rewrite !prefix_sep_spec. split; reflexivity. }
  destruct rest as [| c2 rest].
  - clear IH H.
    change (String c1 "" ++ " (" ++ tail)%string
      with (String c1 (String " " (String "(" tail))).
    cbn [contains before_sep]. rewrite !prefix_sep_spec.
    change (Ascii.eqb "(" " ") with false.
    change (Ascii.eqb " " " " && Ascii.eqb "(" "(") with true.
    rewrite Bool.andb_false_r. split; reflexivity.
  - change (contains " (" (String c1 (String c2 rest))) with
      (String.prefix " (" (String c1 (String c2 rest))
       || contains " (" (String c2 rest)) in H.
    apply Bool.orb_false_iff in H. destruct H as [Hp Hc].
    destruct (IH Hc) as [Hc' Hb'].
    change (contains " (" (String c1 (String c2 rest) ++ " (" ++ tail)) with
      (String.prefix " (" (String c1 (String c2 rest) ++ " (" ++ tail)
       || contains " (" (String c2 rest ++ " (" ++ tail)).
    change (before_sep " (" (String c1 (String c2 rest) ++ " (" ++ tail)) with
      (if String.prefix " (" (String c1 (String c2 rest) ++ " (" ++ tail)
       then ""
       else String c1 (before_sep " (" (String c2 rest ++ " (" ++ tail))).
    rewrite prefix_sep_two, Hp, Hc', Hb'. split; reflexivity.
Qed.

Lemma clean_option_label event_type count :
  clean_event_type (option_label event_type count) = clean_event_type event_type.
Proof.
  unfold clean_event_type, option_label.
  destruct (contains " (" event_type) eqn:E.
  - destruct (before_sep_app event_type
                (" (" ++ Vasteet.string_of_nat count ++ ")") E) as [-> ->].
    reflexivity.
  - destruct (before_sep_label event_type
                (Vasteet.string_of_nat count ++ ")") E) as [-> ->].
    reflexivity.
Qed.

(** X19.  The statement of [palotapahtumat_etl] is the same whether its
    filter is given as the option labels that the fire tab offers
    ([name (count)]) or as the event types themselves: the count that a
    label adds never reaches the statement. *)
Theorem labels_filter_like_event_types
        (lower : string -> string) (options : list (string * nat)) :
  where_clause lower (map (fun o => option_label (fst o) (snd o)) options)
  = where_clause lower (map fst options).
Proof.
  assert (E : map (event_filter_part lower)
                  (map (fun o => option_label (fst o) (snd o)) options)
              = map (event_filter_part lower) (map fst options)).
  { rewrite !map_map. apply map_ext. intros o. unfold event_filter_part.
    rewrite clean_option_label. reflexivity. }
  destruct options as [| o tl]; [reflexivity |].
  unfold where_clause.
  change (map (fun o0 => option_label (fst o0) (snd o0)) (o :: tl))
    with (option_label (fst o) (snd o)
          :: map (fun o0 => option_label (fst o0) (snd o0)) tl) in *.
  change (map fst (o :: tl)) with (fst o :: map fst tl) in *.
  rewrite E. reflexivity.
Qed.

(** X20.  Cleaning the label of an option gives back the event type
    whenever the event type itself has no [" ("] in it. *)
Theorem option_label_round_trip event_type count :
  contains " (" event_type = false ->
  clean_event_type (option_label event_type count) = event_type.
Proof.
  intros H. rewrite clean_option_label. unfold clean_event_type.
  rewrite H. reflexivity.
Qed.

Lemma option_label_round_trip_witness :
  clean_event_type (option_label "rakennuspalo: pieni" 412)
  = "rakennuspalo: pieni".
Proof.
  apply (option_label_round_trip "rakennuspalo: pieni" 412). reflexivity.
Defined.

End OptionLabels.

(* --------------------------------------------------------------------- *)
(** *** db.py: the filter options and the rows they load                  *)
(* --------------------------------------------------------------------- *)

Section FilterOptions.
Import Db DbOptions Examples.

(** [execute_query] is [execute_statement] at the statements of the two
    analyses. *)
Lemma execute_query_as_statement q params :
  execute_query q params
  = execute_statement (sql_text q) params
                      (fun db => read_sql_query db q params) BlankFrame.
Proof. reflexivity. Qed.

Lemma insert_sorted_In x y l : In y (insert_sorted x l) <-> y = x \/ In y l.
Proof.
  induction l as [| z tl IH]; simpl; [intuition |].
  destruct (String.compare x z); simpl; try rewrite IH; intuition.
Qed.

Lemma sorted_In y l : In y (sorted l) <-> In y l.
Proof.
  induction l as [| x tl IH]; simpl; [tauto |].
  rewrite insert_sorted_In, IH. intuition.
Qed.

Lemma insert_sorted_NoDup x l :
  ~ In x l -> NoDup l -> NoDup (insert_sorted x l).
Proof.
  induction l as [| z tl IH]; simpl; intros Hx Hl.
  - constructor; [intros [] | constructor].
  - inversion Hl as [| ? ? Hz Htl]; subst.
    assert (Hins : NoDup (z :: insert_sorted x tl)).
    { constructor; [| apply IH; tauto].
      rewrite insert_sorted_In. intros [-> | H]; tauto. }
    destruct (String.compare x z); try exact Hins;
      constructor; simpl; tauto.
Qed.

Lemma sorted_NoDup l : NoDup l -> NoDup (sorted l).
Proof.
  induction 1 as [| x tl Hx _ IH]; simpl; [constructor |].
  apply insert_sorted_NoDup; [rewrite sorted_In; exact Hx | exact IH].
Qed.

Let le (a b : string) : Prop := String.compare a b <> Gt.

Lemma string_le_trans a b c : le a b -> le b c -> le a c.
Proof.
  unfold le. intros Hab Hbc.
  destruct (String.compare a b) eqn:Eab; [| | congruence].
  - apply string_compare_eq in Eab. subst. exact Hbc.
  - destruct (String.compare b c) eqn:Ebc; [| | congruence].
    + apply string_compare_eq in Ebc. subst. rewrite Eab. discriminate.
    + rewrite (string_compare_trans _ _ _ Eab Ebc). discriminate.
Qed.

Lemma insert_sorted_ascending x l :
  StronglySorted le l -> StronglySorted le (insert_sorted x l).
Proof.
  induction 1 as [| z tl Htl IH Hz]; simpl.
  - constructor; constructor.
  - destruct (String.compare x z) eqn:E.
    + constructor; [constructor; assumption |].
      assert (Hxz : le x z) by (unfold le; rewrite E; discriminate).
      constructor; [exact Hxz |].
      eapply Forall_impl; [| exact Hz]. intros w Hw.
      exact (string_le_trans _ _ _ Hxz Hw).
    + constructor; [constructor; assumption |].
      assert (Hxz : le x z) by (unfold le; rewrite E; discriminate).
      constructor; [exact Hxz |].
      eapply Forall_impl; [| exact Hz]. intros w Hw.
      exact (string_le_trans _ _ _ Hxz Hw).
    + constructor; [exact IH |].
      apply Forall_forall. intros w Hw. apply insert_sorted_In in Hw.
      destruct Hw as [-> | Hw].
      * unfold le. rewrite String.compare_antisym, E. discriminate.
      * rewrite Forall_forall in Hz. apply Hz, Hw.
Qed.

Lemma sorted_ascending l : StronglySorted le (sorted l).
Proof.
  induction l as [| x tl IH]; simpl; [constructor |].
  apply insert_sorted_ascending, IH.
Qed.

Lemma ascending_NoDup_strict l :
  StronglySorted le l -> NoDup l ->
  StronglySorted (fun a b => String.compare a b = Lt) l.
Proof.
  induction 1 as [| z tl Htl IH Hz]; intros Hnd; [constructor |].
  inversion Hnd as [| ? ? Hnz Hndtl]; subst.
  constructor; [apply IH, Hndtl |].
  apply Forall_forall. intros w Hw.
  rewrite Forall_forall in Hz. specialize (Hz w Hw). unfold le in Hz.
  destruct (String.compare z w) eqn:E; [| reflexivity | congruence].
  apply string_compare_eq in E. subst. contradiction.
Qed.

Lemma sorted_strict l :
  NoDup l -> StronglySorted (fun a b => String.compare a b = Lt) (sorted l).
Proof.
  intros H. apply ascending_NoDup_strict;
    [apply sorted_ascending | apply sorted_NoDup, H].
Qed.

Lemma unique_In_iff {X : Type} (eqb : X -> X -> bool) x l :
  (forall a b, eqb a b = true <-> a = b) ->
  In x (unique eqb l) <-> In x l.
Proof.
  intros Heq. split; [apply unique_In |].
  induction l as [| y tl IH]; simpl; [tauto |].
  intros [-> | H]; [left; reflexivity |].
  destruct (eqb y x) eqn:E.
  - left. apply Heq, E.
  - right. apply filter_In. split; [apply IH, H |]. rewrite E. reflexivity.
Qed.

Lemma unique_NoDup {X : Type} (eqb : X -> X -> bool) l :
  (forall a b, eqb a b = true <-> a = b) ->
  NoDup (unique eqb l).
Proof.
  intros Heq. induction l as [| y tl IH]; simpl; constructor.
  - intros H. apply filter_In in H. destruct H as [_ H].
    rewrite (proj2 (Heq y y) eq_refl) in H. discriminate H.
  - apply NoDup_filter, IH.
Qed.

Lemma option_eqb_eq a b : option_eqb a b = true <-> a = b.
Proof.
  destruct a as [x |], b as [y |]; simpl;
    try (split; [discriminate | discriminate]); try tauto.
  rewrite String.eqb_eq. split; congruence.
Qed.

Lemma dropna_In v l : In v (dropna l) <-> In (Some v) l.
Proof.
  unfold dropna. rewrite in_flat_map. split.
  - intros ([w |] & Hin & Hv); simpl in Hv; [| tauto].
    destruct Hv as [-> | []]. exact Hin.
  - intros H. exists (Some v). split; [exact H | left; reflexivity].
Qed.

Lemma dropna_NoDup l : NoDup l -> NoDup (dropna l).
Proof.
  induction 1 as [| [w |] tl Hx _ IH]; simpl; [constructor | | exact IH].
  constructor; [| exact IH]. rewrite dropna_In. exact Hx.
Qed.

Lemma get_filter_options_reachable db p :
  failure db = None ->
  get_filter_options db p
  = (Return ("All" :: sorted (distinct_event_types (tilanteet db)),
             "All" :: sorted (dropna (distinct_hakes (tilanteet db)))),
     {| lru := lru p;
        issued := ("SELECT DISTINCT hake FROM tilanteet", None)
                  :: ("SELECT DISTINCT event_type FROM tilanteet", None)
                  :: issued p |}).
Proof.
  intros H. unfold get_filter_options, bind, execute_statement, connected.
  rewrite H. reflexivity.
Qed.

(** X21.  On a store that answers, [get_filter_options] returns two lists
    that start with ["All"]; what follows is, in strictly ascending order
    and so without repetition, exactly the event types of the table and
    exactly its stations that are not NULL. *)
Theorem filter_options_sorted_complete db p :
  failure db = None ->
  exists event_types hake_values,
    get_filter_options db p
    = (Return ("All" :: event_types, "All" :: hake_values),
       {| lru := lru p;
          issued := ("SELECT DISTINCT hake FROM tilanteet", None)
                    :: ("SELECT DISTINCT event_type FROM tilanteet", None)
                    :: issued p |}) /\
    StronglySorted (fun a b => String.compare a b = Lt) event_types /\
    StronglySorted (fun a b => String.compare a b = Lt) hake_values /\
    (forall t, In t event_types <->
               exists ev, In ev (tilanteet db) /\ event_type ev = t) /\
    (forall h, In h hake_values <->
               exists ev, In ev (tilanteet db) /\ hake ev = Some h).
Proof.
  intros H. unfold get_filter_options, bind, execute_statement, connected.
  rewrite H. cbn [ret lru issued].
  do 2 eexists. split; [reflexivity |].
  split; [| split; [| split]].
  - apply sorted_strict. apply unique_NoDup. intros a b. apply String.eqb_eq.
  - apply sorted_strict, dropna_NoDup, unique_NoDup, option_eqb_eq.
  - intros t. rewrite sorted_In. unfold distinct_event_types.
    rewrite (unique_In_iff String.eqb t _ String.eqb_eq), in_map_iff.
    split; intros (ev & A & B); exists ev; tauto.
  - intros h. rewrite sorted_In, dropna_In. unfold distinct_hakes.
    rewrite (unique_In_iff option_eqb (Some h) _ option_eqb_eq), in_map_iff.
    split; intros (ev & A & B); exists ev; tauto.
Qed.

Lemma filter_options_witness :
  exists event_types hake_values,
    get_filter_options store_1 fresh
    = (Return ("All" :: event_types, "All" :: hake_values),
       {| lru := lru fresh;
          issued := ("SELECT DISTINCT hake FROM tilanteet", None)
                    :: ("SELECT DISTINCT event_type FROM tilanteet", None)
                    :: issued fresh |}) /\
    StronglySorted (fun a b => String.compare a b = Lt) event_types /\
    StronglySorted (fun a b => String.compare a b = Lt) hake_values /\
    (forall t, In t event_types <->
               exists ev, In ev (tilanteet store_1) /\ event_type ev = t) /\
    (forall h, In h hake_values <->
               exists ev, In ev (tilanteet store_1) /\ hake ev = Some h).
Proof.
  apply (filter_options_sorted_complete store_1 fresh). reflexivity.
Defined.

Lemma load_data_reachable e h db p :
  failure db = None ->
  load_data e h db p
  = (Return (filter (fun ev =>
                       (String.eqb e "All" || String.eqb (event_type ev) e)
                       && (String.eqb h "All"
                           || match hake ev with
                              | Some v => String.eqb v h
                              | None => false
                              end))
                    (tilanteet db)),
     {| lru := lru p;
        issued := (fst (load_data_query e h), Some (snd (load_data_query e h)))
                  :: issued p |}).
Proof.
  intros H. unfold load_data, load_data_query.
  destruct (String.eqb e "All") eqn:Ee; destruct (String.eqb h "All") eqn:Eh;
    unfold execute_statement, connected, load_data_rows; rewrite H;
    cbn [negb bind_text dict_set dict_get String.eqb Ascii.eqb Bool.eqb
         fst snd orb andb];
    reflexivity.
Qed.

(** X22.  On a store that answers, [load_data] returns exactly the rows
    of the table that pass both tests, in the order of the table: the
    value ["All"] switches a test off, any other event type must be equal
    to the row's, and any other station must be equal to a station that is
    not NULL; the values reach the statement as bound parameters, never in
    its text. *)
Theorem load_data_rows_match e h db p :
  failure db = None ->
  fst (load_data e h db p)
  = Return (filter (fun ev =>
                      (String.eqb e "All" || String.eqb (event_type ev) e)
                      && (String.eqb h "All"
                          || match hake ev with
                             | Some v => String.eqb v h
                             | None => false
                             end))
                   (tilanteet db)) /\
  (exists text params,
      issued (snd (load_data e h db p)) = (text, Some params) :: issued p /\
      In text
         ["SELECT municipality, timestamp, event_type, hake FROM tilanteet WHERE 1=1";
          "SELECT municipality, timestamp, event_type, hake FROM tilanteet WHERE 1=1 AND event_type = :event_type";
          "SELECT municipality, timestamp, event_type, hake FROM tilanteet WHERE 1=1 AND hake = :hake";
          "SELECT municipality, timestamp, event_type, hake FROM tilanteet WHERE 1=1 AND event_type = :event_type AND hake = :hake"] /\
      dict_get params "event_type"
      = (if String.eqb e "All" then None else Some (VText e)) /\
      dict_get params "hake"
      = (if String.eqb h "All" then None else Some (VText h))).
Proof.
  intros H. rewrite (load_data_reachable e h db p H). split; [reflexivity |].
  cbn [snd issued]. do 2 eexists. split; [reflexivity |].
  unfold load_data_query.
  destruct (String.eqb e "All"); destruct (String.eqb h "All");
    cbn; tauto.
Qed.

Lemma load_data_rows_witness :
  fst (load_data "rakennuspalo" "All" store_1 fresh)
  = Return (filter (fun ev =>
                      (String.eqb "rakennuspalo" "All"
                       || String.eqb (event_type ev) "rakennuspalo")
                      && (String.eqb "All" "All"
                          || match hake ev with
                             | Some v => String.eqb v "All"
                             | None => false
                             end))
                   (tilanteet store_1)) /\
  (exists text params,
      issued (snd (load_data "rakennuspalo" "All" store_1 fresh))
      = (text, Some params) :: issued fresh /\
      In text
         ["SELECT municipality, timestamp, event_type, hake FROM tilanteet WHERE 1=1";
          "SELECT municipality, timestamp, event_type, hake FROM tilanteet WHERE 1=1 AND event_type = :event_type";
          "SELECT municipality, timestamp, event_type, hake FROM tilanteet WHERE 1=1 AND hake = :hake";
          "SELECT municipality, timestamp, event_type, hake FROM tilanteet WHERE 1=1 AND event_type = :event_type AND hake = :hake"] /\
      dict_get params "event_type"
      = (if String.eqb "rakennuspalo" "All" then None
         else Some (VText "rakennuspalo")) /\
      dict_get params "hake"
      = (if String.eqb "All" "All" then None else Some (VText "All"))).
Proof.
  apply (load_data_rows_match "rakennuspalo" "All" store_1 fresh). reflexivity.
Defined.

(** X23.  On a store that cannot be reached, neither function returns:
    [load_data] ends with [NameError], and [get_filter_options] ends with
    it after its first statement, without sending the second one. *)
Theorem options_unreachable_store_raise e h db p msg :
  failure db = Some msg ->
  fst (load_data e h db p) = Raise (NameError "st") /\
  get_filter_options db p
  = (Raise (NameError "st"),
     {| lru := lru p;
        issued := ("SELECT DISTINCT event_type FROM tilanteet", None)
                  :: issued p |}).
Proof.
  intros H. split.
  - unfold load_data. destruct (load_data_query e h) as [query params].
    unfold execute_statement, connected. rewrite H. reflexivity.
  - unfold get_filter_options, bind, execute_statement, connected.
    rewrite H. reflexivity.
Qed.

Lemma options_unreachable_witness :
  fst (load_data "rakennuspalo" "All" store_down fresh) = Raise (NameError "st") /\
  get_filter_options store_down fresh
  = (Raise (NameError "st"),
     {| lru := lru fresh;
        issued := ("SELECT DISTINCT event_type FROM tilanteet", None)
                  :: issued fresh |}).
Proof.
  apply (options_unreachable_store_raise "rakennuspalo" "All" store_down fresh
                                         "connection refused").
  reflexivity.
Defined.

(** X24.  The two functions fit: on a store that answers, every event
    type that [get_filter_options] offers besides ["All"] loads at least
    one row when it is selected with all stations, and every row loaded
    has that event type. *)
Theorem offered_event_type_loads_rows db p p1 p2 event_types hake_values t :
  failure db = None ->
  get_filter_options db p = (Return ("All" :: event_types, hake_values), p1) ->
  In t event_types ->
  t <> "All" ->
  exists row rows,
    fst (load_data t "All" db p2) = Return (row :: rows) /\
    Forall (fun ev => event_type ev = t) (row :: rows).
Proof.
  intros H Hopt Ht Hall.
  rewrite (get_filter_options_reachable db p H) in Hopt.
  inversion Hopt; subst. clear Hopt.
  apply (proj1 (sorted_In _ _)) in Ht. unfold distinct_event_types in Ht.
  apply (proj1 (unique_In_iff String.eqb t _ String.eqb_eq)) in Ht.
  apply (proj1 (in_map_iff _ _ _)) in Ht.
  destruct Ht as (ev & Hty & Hev).
  rewrite (load_data_reachable t "All" db p2 H). cbn [fst].
  apply String.eqb_neq in Hall. rewrite Hall.
  change (String.eqb "All" "All") with true. cbn [orb].
  match goal with
  | |- context [filter ?f ?l] =>
      assert (Hin : In ev (filter f l));
        [apply filter_In; split;
         [exact Hev | rewrite Hty, String.eqb_refl; reflexivity] |];
      assert (Hall' : Forall (fun ev => event_type ev = t) (filter f l));
        [apply Forall_forall; intros x Hx; apply filter_In in Hx;
         destruct Hx as [_ Hx]; rewrite Bool.andb_true_r in Hx;
         apply String.eqb_eq, Hx |];
      destruct (filter f l) as [| row rows]; [destruct Hin |]
  end.
  exists row, rows. split; [reflexivity | exact Hall'].
Qed.

Lemma offered_event_type_witness :
  exists row rows,
    fst (load_data "A" "All" store_1 fresh) = Return (row :: rows) /\
    Forall (fun ev => event_type ev = "A") (row :: rows).
Proof.
  apply (offered_event_type_loads_rows store_1 fresh
           (snd (get_filter_options store_1 fresh)) fresh
           (List.tl (fst (match fst (get_filter_options store_1 fresh) with
                          | Return r => r | Raise _ => ([], []) end)))
           (snd (match fst (get_filter_options store_1 fresh) with
                 | Return r => r | Raise _ => ([], []) end))
           "A").
  - reflexivity.
  - reflexivity.
  - vm_compute. tauto.
  - discriminate.
Defined.

End FilterOptions.
